(** * Google Takeout metadata processor: resolution, embedding and verification

    A shallow embedding of [takeout_processor.py] (class
    [GoogleTakeoutProcessor]) and of [verify_processing.py]
    (class [ProcessingVerifier]), with the properties of the
    Metadata Resolution & Embedding Engine stated over it.

    Conventions of the embedding:
    - file names and paths are byte strings ([string]); [str.lower] and
      [str.upper] act on the ASCII letters;
    - a value produced by [json.load] / [json.loads] is a [json] tree, a
      Python dict being an association list read with first-match lookup;
    - the file system and the external tool are an abstract [world] reached
      through the operations of an [OS] record; every operation that the
      source performs on them is threaded through the processor state and
      recorded, in order, in an event trace;
    - a Python exception is the [Exc] result of the state-and-error monad
      [M]; state changes made before the exception persist, as in Python. *)

From Stdlib Require Import String Ascii List Bool Arith ZArith QArith Lia.
From Stdlib Require Import DecimalString RelationClasses.
Import ListNotations.

Local Close Scope Q_scope.
Local Open Scope string_scope.
Local Open Scope list_scope.

(** String concatenation, kept apart from list append. *)
Infix "+++" := String.append (right associativity, at level 60).

(* ================================================================== *)
(** ** Python string primitives *)

Module PyStr.

Definition is_upper (c : ascii) : bool :=
let n := nat_of_ascii c in (65 <=? n)%nat && (n <=? 90)%nat.

Definition is_lower (c : ascii) : bool :=
let n := nat_of_ascii c in (97 <=? n)%nat && (n <=? 122)%nat.

Definition lower_ascii (c : ascii) : ascii :=
if is_upper c then ascii_of_nat (nat_of_ascii c + 32) else c.

Definition upper_ascii (c : ascii) : ascii :=
if is_lower c then ascii_of_nat (nat_of_ascii c - 32) else c.

(** [s.lower()] *)
Fixpoint lower (s : string) : string :=
match s with
| EmptyString => EmptyString
| String c r => String (lower_ascii c) (lower r)
end.

(** [s.upper()] *)
Fixpoint upper (s : string) : string :=
match s with
| EmptyString => EmptyString
| String c r => String (upper_ascii c) (upper r)
end.

(** [s.startswith(p)] *)
Fixpoint startswith (p s : string) : bool :=
match p, s with
| EmptyString, _ => true
| String _ _, EmptyString => false
| String a p', String b s' => Ascii.eqb a b && startswith p' s'
end.

(** [p in s] *)
Fixpoint contains (p s : string) : bool :=
match s with
| EmptyString => startswith p EmptyString
| String _ r => startswith p s || contains p r
end.

(** [s.endswith(p)] *)
Fixpoint endswith (p s : string) : bool :=
match s with
| EmptyString => String.eqb p EmptyString
| String _ r => String.eqb p s || endswith p r
end.

(** One left-to-right pass of [s.replace(old, '')]: [skip] counts the
  characters of the occurrence being dropped. *)
Fixpoint remove_from (old : string) (skip : nat) (s : string) : string :=
match s with
| EmptyString => EmptyString
| String c r =>
    match skip with
    | S k => remove_from old k r
    | O =>
        if startswith old s
        then remove_from old (Nat.pred (String.length old)) r
        else String c (remove_from old O r)
    end
end.

(** [s.replace(old, '')]: every non-overlapping occurrence, leftmost
  first, is removed; an empty [old] leaves [s] as it is. *)
Definition remove_all (old s : string) : string :=
match old with
| EmptyString => s
| String _ _ => remove_from old O s
end.

(** [s.rfind('.')], as [None] when there is no dot. *)
Fixpoint rfind_dot (s : string) : option nat :=
match s with
| EmptyString => None
| String c r =>
    match rfind_dot r with
    | Some i => Some (S i)
    | None => if Ascii.eqb c "."%char then Some O else None
    end
end.

(** The substring relation behind [in]. *)
Definition Contains (p s : string) : Prop :=
exists pre post, s = pre +++ p +++ post.

End PyStr.

(* ================================================================== *)
(** ** Paths *)

(** A [pathlib.Path] seen through the two attributes the processor reads:
    [parent] (rendered as a string) and [name]. *)
Record Path : Type := mkPath { parent : string; name : string }.

(** [str(path)] *)
Definition path_str (p : Path) : string :=
  match name p with
  | EmptyString => parent p
  | _ => parent p +++ "/" +++ name p
  end.

(** [path.parent / new_name] *)
Definition sibling (p : Path) (new_name : string) : Path :=
  mkPath (parent p) new_name.

(** [path.suffix]: the last dot-separated part of the name, dot included,
    unless the only dot leads or ends the name. *)
Definition suffix (p : Path) : string :=
  match PyStr.rfind_dot (name p) with
  | Some i =>
      if (0 <? i)%nat && (i <? String.length (name p) - 1)%nat
      then substring i (String.length (name p) - i) (name p)
      else EmptyString
  | None => EmptyString
  end.

(** [path.stem] *)
Definition stem (p : Path) : string :=
  substring 0 (String.length (name p) - String.length (suffix p)) (name p).

(** [path.with_suffix(ext)] *)
Definition with_suffix (p : Path) (ext : string) : Path :=
  mkPath (parent p) (stem p +++ ext).

(** The last component of a rendered path. *)
Fixpoint last_component (s : string) : string :=
  match s with
  | EmptyString => EmptyString
  | String _ rest => if PyStr.contains "/" s then last_component rest else s
  end.

(* ================================================================== *)
(** ** Pattern matcher *)

(** The marker list of [_is_edited_photo]. *)
Definition edited_markers : list string :=
  [ "-edited"; "-effects-edited"; "_edited"; "_1-edited" ].

(** [_is_edited_photo]: the name is lower-cased first, then searched. *)
Definition _is_edited_photo (media_file : Path) : bool :=
  let filename := PyStr.lower (name media_file) in
  existsb (fun pattern => PyStr.contains pattern filename) edited_markers.

(** The list [patterns_to_remove] of [_get_original_name], in source order. *)
Definition patterns_to_remove : list string :=
  [ "-EFFECTS-edited"; "-edited"; "_1-edited"; "_edited" ].

(** The [for pattern in patterns_to_remove] loop: the first pattern found in
    the name is removed (all its occurrences) and the loop returns. *)
Fixpoint strip_first_match (patterns : list string) (filename : string)
  : option string :=
  match patterns with
  | [] => None
  | pattern :: rest =>
      if PyStr.contains pattern filename
      then Some (PyStr.remove_all pattern filename)
      else strip_first_match rest filename
  end.

(** [_get_original_name] *)
Definition _get_original_name (edited_file : Path) : option string :=
  strip_first_match patterns_to_remove (name edited_file).


(* ================================================================== *)
(** ** JSON values and the Python operations applied to them *)

Local Set Warnings "-register-all".

(** What [json.load] returns: [None], a bool, a (finite) number, a string, a
    list or a dict with string keys. *)
Inductive json : Type :=
| JNull
| JBool (b : bool)
| JNum (q : Q)
| JStr (s : string)
| JArr (items : list json)
| JObj (fields : list (string * json)).

(** The exceptions the modelled code can meet. *)
Inductive exn : Type :=
| AttributeError | IndexError | KeyError | TypeError | ValueError
| ZeroDivisionError | JSONDecodeError | CalledProcessError
| TimeoutExpired | OSError.

(** A result or a raised exception. *)
Inductive res (A : Type) : Type :=
| Ok (a : A)
| Exc (e : exn).
Arguments Ok {A} a.
Arguments Exc {A} e.

Module Py.

(** [bool(v)] *)
Definition truthy (v : json) : bool :=
match v with
| JNull => false
| JBool b => b
| JNum q => negb (Qeq_bool q 0%Q)
| JStr s => negb (String.eqb s "")
| JArr items => match items with [] => false | _ => true end
| JObj fields => match fields with [] => false | _ => true end
end.

(** [v != 0]: [False == 0] holds in Python, and a value that is not a
  number differs from [0]. *)
Definition ne_zero (v : json) : bool :=
match v with
| JBool b => b
| JNum q => negb (Qeq_bool q 0%Q)
| _ => true
end.

(** Lookup in a dict. *)
Fixpoint lookup (fields : list (string * json)) (key : string) : option json :=
match fields with
| [] => None
| (k, v) :: rest => if String.eqb k key then Some v else lookup rest key
end.

(** [d.get(key, default)]: only a dict has the method. *)
Definition get (d : json) (key : string) (default : json) : res json :=
match d with
| JObj fields =>
    match lookup fields key with
    | Some v => Ok v
    | None => Ok default
    end
| _ => Exc AttributeError
end.

(** [v[0]] *)
Definition item0 (v : json) : res json :=
match v with
| JArr (x :: _) => Ok x
| JArr [] => Exc IndexError
| JStr (String c _) => Ok (JStr (String c EmptyString))
| JStr EmptyString => Exc IndexError
| JObj _ => Exc KeyError
| _ => Exc TypeError
end.

(** [s.upper()] on a value: only a string has the method. *)
Definition upper (v : json) : res string :=
match v with
| JStr s => Ok (PyStr.upper s)
| _ => Exc AttributeError
end.

End Py.

(* ================================================================== *)
(** ** The processor state and its monad *)

(** The [stats] dict of [GoogleTakeoutProcessor.__init__]. *)
Record Stats : Type := mkStats {
  total_files : nat;
  processed_files : nat;
  json_matched : nat;
  date_restored : nat;
  gps_restored : nat;
  extensions_fixed : nat;
  live_photos_paired : nat;
  zip_files_extracted : nat;
  errors : list string
}.

Definition initial_stats : Stats := mkStats 0 0 0 0 0 0 0 0 [].

(** The dict built by [generate_report]; [success_rate_percent] is the number
    that the source renders with one decimal and a percent sign. *)
Record Report : Type := mkReport {
  processing_stats : Stats;
  summary : string;
  success_rate_percent : Q
}.

(** What [subprocess.run] can do: complete with an exit status, hit its
    timeout, or fail to run at all. *)
Inductive run_result : Type :=
| Completed (returncode : Z) (stdout stderr : string)
| TimedOut
| RunFailed.

Inductive level : Type := Debug | Info | Warning | Error.

(** The effects of the processor on its surroundings, as recorded in the
    trace. *)
Inductive event : Type :=
| EvRun (argv : list string) (timeout : option Z)   (* subprocess.run *)
| EvMove (src dst : string)                         (* shutil.move *)
| EvMkdir (dir : string)                            (* Path.mkdir *)
| EvCopy (src dst : string)                         (* shutil.copy2 *)
| EvWriteReport (path : string)                     (* open(.., 'w') + json.dump *)
| EvExtract (zip_file : string) (member : nat) (dir : string)
                                                    (* zip_ref.extract *)
| EvLog (lvl : level)                               (* self.logger.<lvl>(..) *)
| EvStatus.                                         (* status/progress callbacks *)

(** The operations of the surroundings.  Each one that can change the world
    returns the new world, also when it raises. *)
Record OS (world : Type) : Type := mkOS {
  path_exists : world -> string -> res bool;
      (* Path.exists(): the OSError of the underlying stat is raised unless
         it says that the file is not there *)
  read_json : world -> string -> option json;
      (* open + json.load; None when either raises *)
  json_loads : string -> option json;
      (* json.loads; None for JSONDecodeError *)
  subprocess_run : world -> list string -> option Z -> run_result * world;
  shutil_move : world -> string -> string -> res unit * world;
  reroot : world -> Path -> res Path;
      (* the path of a media file relative to its Google Photos directory,
         as the copy routines compute it; raises when they do *)
  mkdir : world -> string -> res unit * world;
  shutil_copy2 : world -> string -> string -> res unit * world;
  write_report : world -> string -> Report -> res unit * world;
  status_callbacks : world -> list event -> res unit;
      (* the status and progress callbacks, if any is set: what a call
         does may depend on the effects so far, and it may raise *)
  is_file : world -> string -> res bool;
  is_dir : world -> string -> res bool;
  glob_takeout_zips : world -> string -> res (list Path);
      (* list(dir.glob("takeout-*.zip")) *)
  walk_google_photos : world -> string -> list string;
      (* the roots that os.walk yields with 'Google Photos' among their
         directories, in its order; os.walk skips what it cannot read *)
  rglob_is_file : world -> Path -> res (list (Path * bool));
      (* dir.rglob('*'), each path with its is_file(); raises when the
         traversal or one of the tests does *)
  which_unzip : world -> bool;
      (* shutil.which('unzip') is not None *)
  zip_infolist : world -> string -> res (list (list N));
      (* zipfile.ZipFile(zip).infolist(): the member names, as code
         points; raises when the archive cannot be opened or read *)
  zip_extract : world -> string -> nat -> string -> res unit * world
      (* zip_ref.extract(member, dir), the member given by its index *)
}.
Arguments path_exists {world} _ _ _.
Arguments read_json {world} _ _ _.
Arguments json_loads {world} _ _.
Arguments subprocess_run {world} _ _ _ _.
Arguments shutil_move {world} _ _ _ _.
Arguments reroot {world} _ _ _.
Arguments mkdir {world} _ _ _.
Arguments shutil_copy2 {world} _ _ _ _.
Arguments write_report {world} _ _ _ _.
Arguments status_callbacks {world} _ _ _.
Arguments is_file {world} _ _ _.
Arguments is_dir {world} _ _ _.
Arguments glob_takeout_zips {world} _ _ _.
Arguments walk_google_photos {world} _ _ _.
Arguments rglob_is_file {world} _ _ _.
Arguments which_unzip {world} _ _.
Arguments zip_infolist {world} _ _ _.
Arguments zip_extract {world} _ _ _ _ _.

(** The processor state: the world, [self.stats], the trace of effects in
    chronological order, and the history of the values returned by
    [_verify_file_processing] (a history variable, read by no code). *)
Record state (world : Type) : Type := mkState {
  st_world : world;
  st_stats : Stats;
  st_trace : list event;
  st_verdicts : list (Path * bool)
}.
Arguments mkState {world} _ _ _ _.
Arguments st_world {world} _.
Arguments st_stats {world} _.
Arguments st_trace {world} _.
Arguments st_verdicts {world} _.

(** The state-and-error monad: a computation reads and writes a state and
    ends with a value or a raised exception. *)
Definition SE (S A : Type) : Type := S -> res A * S.

Definition ret {S A} (a : A) : SE S A := fun s => (Ok a, s).

Definition raise {S A} (e : exn) : SE S A := fun s => (Exc e, s).

Definition bind {S A B} (m : SE S A) (k : A -> SE S B) : SE S B :=
  fun s =>
    match m s with
    | (Ok a, s') => k a s'
    | (Exc e, s') => (Exc e, s')
    end.

(** [try: m except <handled>: h] *)
Definition try_except {S A} (m : SE S A) (handled : exn -> bool)
  (h : exn -> SE S A) : SE S A :=
  fun s =>
    match m s with
    | (Ok a, s') => (Ok a, s')
    | (Exc e, s') => if handled e then h e s' else (Exc e, s')
    end.

(** [except Exception] *)
Definition any_exception (_ : exn) : bool := true.

Declare Scope proc_scope.
Delimit Scope proc_scope with proc.
Notation "x <- m ;; k" := (bind m (fun x => k))
  (at level 61, m at next level, right associativity) : proc_scope.
Notation "m ;; k" := (bind m (fun _ => k))
  (at level 61, right associativity) : proc_scope.
Local Open Scope proc_scope.

(** [for x in l: acc = body x acc] *)
Fixpoint for_each {S A B} (l : list A) (acc : B)
  (body : A -> B -> SE S B) : SE S B :=
  match l with
  | [] => ret acc
  | x :: rest => acc' <- body x acc ;; for_each rest acc' body
  end.

Definition lift_res {S A} (r : res A) : SE S A :=
  fun s => (r, s).

(** The monad of the processor. *)
Definition M (world A : Type) : Type := SE (state world) A.

Definition emit {world} (e : event) : M world unit :=
  fun s => (Ok tt, mkState (st_world s) (st_stats s) (st_trace s ++ [e])
                           (st_verdicts s)).

Definition log {world} (lvl : level) : M world unit := emit (EvLog lvl).

Definition modify_stats {world} (f : Stats -> Stats) : M world unit :=
  fun s => (Ok tt, mkState (st_world s) (f (st_stats s)) (st_trace s)
                           (st_verdicts s)).

Definition record_verdict {world} (p : Path) (b : bool) : M world unit :=
  fun s => (Ok tt, mkState (st_world s) (st_stats s) (st_trace s)
                           (st_verdicts s ++ [(p, b)])).

Definition set_world {world} (w : world) : M world unit :=
  fun s => (Ok tt, mkState w (st_stats s) (st_trace s) (st_verdicts s)).

Definition get_world {world} : M world world :=
  fun s => (Ok (st_world s), s).

Definition get_stats {world} : M world Stats :=
  fun s => (Ok (st_stats s), s).

(** Field updates of [self.stats]. *)
Definition set_total_files (n : nat) (t : Stats) : Stats :=
  mkStats n (processed_files t) (json_matched t) (date_restored t)
          (gps_restored t) (extensions_fixed t) (live_photos_paired t)
          (zip_files_extracted t) (errors t).
Definition set_processed_files (n : nat) (t : Stats) : Stats :=
  mkStats (total_files t) n (json_matched t) (date_restored t)
          (gps_restored t) (extensions_fixed t) (live_photos_paired t)
          (zip_files_extracted t) (errors t).
Definition incr_json_matched (t : Stats) : Stats :=
  mkStats (total_files t) (processed_files t) (S (json_matched t))
          (date_restored t) (gps_restored t) (extensions_fixed t)
          (live_photos_paired t) (zip_files_extracted t) (errors t).
Definition incr_date_restored (t : Stats) : Stats :=
  mkStats (total_files t) (processed_files t) (json_matched t)
          (S (date_restored t)) (gps_restored t) (extensions_fixed t)
          (live_photos_paired t) (zip_files_extracted t) (errors t).
Definition incr_gps_restored (t : Stats) : Stats :=
  mkStats (total_files t) (processed_files t) (json_matched t)
          (date_restored t) (S (gps_restored t)) (extensions_fixed t)
          (live_photos_paired t) (zip_files_extracted t) (errors t).
Definition incr_extensions_fixed (t : Stats) : Stats :=
  mkStats (total_files t) (processed_files t) (json_matched t)
          (date_restored t) (gps_restored t) (S (extensions_fixed t))
          (live_photos_paired t) (zip_files_extracted t) (errors t).
Definition incr_live_photos_paired (t : Stats) : Stats :=
  mkStats (total_files t) (processed_files t) (json_matched t)
          (date_restored t) (gps_restored t) (extensions_fixed t)
          (S (live_photos_paired t)) (zip_files_extracted t) (errors t).
Definition set_zip_files_extracted (n : nat) (t : Stats) : Stats :=
  mkStats (total_files t) (processed_files t) (json_matched t)
          (date_restored t) (gps_restored t) (extensions_fixed t)
          (live_photos_paired t) n (errors t).
Definition append_error (msg : string) (t : Stats) : Stats :=
  mkStats (total_files t) (processed_files t) (json_matched t)
          (date_restored t) (gps_restored t) (extensions_fixed t)
          (live_photos_paired t) (zip_files_extracted t) (errors t ++ [msg]).

(** [str(n)] for a non-negative int. *)
Definition str_of_nat (n : nat) : string :=
  NilZero.string_of_uint (Nat.to_uint n).

(* ================================================================== *)
(** ** GoogleTakeoutProcessor *)

(** The sidecar suffixes of [find_json_metadata], in order of preference. *)
Definition sidecar_suffixes : list string :=
  [ ".supplemental-metadata.json";
    ".supplemental-metada.json";     (* Google's typo *)
    ".s.json";
    ".json" ].

(** The [patterns] list built from a base path. *)
Definition sidecar_patterns (base_path : Path) : list string :=
  map (fun suf => path_str base_path +++ suf) sidecar_suffixes.

(** The tag-copying arguments shared by the batch and the single-file
    commands. *)
Definition tag_mappings : list string :=
  [ "-GPSLatitude<GeoDataLatitude";
    "-GPSLatitudeRef<GeoDataLatitude";
    "-GPSLongitude<GeoDataLongitude";
    "-GPSLongitudeRef<GeoDataLongitude";
    "-GPSAltitude<GeoDataAltitude";
    "-DateTimeOriginal<PhotoTakenTimeTimestamp";
    "-CreateDate<PhotoTakenTimeTimestamp";
    "-FileCreateDate<PhotoTakenTimeTimestamp";
    "-FileModifyDate<PhotoTakenTimeTimestamp";
    "-ImageDescription<Description";
    "-Caption-Abstract<Description";
    "-Description<Description";
    "-XMP:Description<Description";
    "-Keywords<Tags";
    "-Subject<Tags";
    "-XMP:Subject<Tags";
    "-Title<Title";
    "-XMP:Title<Title" ].

(** The command of [_process_batch_with_verification]. *)
Definition batch_cmd (batch : list Path) : list string :=
  [ "exiftool"; "-api"; "largefilesupport=1"; "-overwrite_original";
    "-d"; "%s";
    "-ext"; "jpg"; "-ext"; "jpeg"; "-ext"; "png"; "-ext"; "heic";
    "-ext"; "mp4"; "-ext"; "mov"; "-ext"; "m4v";
    "-tagsfromfile"; "%d/%F.supplemental-metadata.json";
    "-tagsfromfile"; "%d/%F.supplemental-metada.json";
    "-tagsfromfile"; "%d/%F.s.json";
    "-tagsfromfile"; "%d/%F.json" ]
  ++ tag_mappings ++ map path_str batch.

(** The command of [_process_files_individually]. *)
Definition single_cmd (json_file : string) (file_path : Path) : list string :=
  [ "exiftool"; "-api"; "largefilesupport=1"; "-overwrite_original";
    "-d"; "%s"; "-tagsfromfile=" +++ json_file ]
  ++ tag_mappings ++ [ path_str file_path ].

(** The read-only query of [_verify_file_processing]. *)
Definition verify_cmd (file_path : Path) : list string :=
  [ "exiftool"; "-json"; "-DateTimeOriginal"; "-GPSLatitude"; "-Description";
    path_str file_path ].

(** The read-only query of [detect_file_type_mismatch]. *)
Definition filetype_cmd (file_path : Path) : list string :=
  [ "exiftool"; "-json"; "-FileType"; path_str file_path ].

(** The [mismatches] table of [detect_file_type_mismatch]. *)
Definition mismatches : list (string * list string) :=
  [ (".jpg", ["MP4"; "PNG"]);
    (".png", ["JPEG"]);
    (".heic", ["MOV"]) ].

Fixpoint assoc_str {A} (key : string) (table : list (string * A)) : option A :=
  match table with
  | [] => None
  | (k, v) :: rest => if String.eqb k key then Some v else assoc_str key rest
  end.

Definition mem_str (x : string) (l : list string) : bool :=
  existsb (String.eqb x) l.

(** [base / rel] for a relative path [rel]. *)
Definition under (base : string) (rel : Path) : Path :=
  match parent rel with
  | EmptyString => mkPath base (name rel)
  | d => mkPath (base +++ "/" +++ d) (name rel)
  end.

(** The value of a [subprocess.run] call: the completed process, or the
    exception raised. *)
Definition completed_or_raise (r : run_result) : res (Z * string * string) :=
  match r with
  | Completed rc out err => Ok (rc, out, err)
  | TimedOut => Exc TimeoutExpired
  | RunFailed => Exc OSError
  end.

(** [media_extensions], in [get_media_files_from_directory] and in the
    verifier's [find_all_media_files]. *)
Definition media_extensions : list string :=
  [ ".jpg"; ".jpeg"; ".png"; ".heic"; ".mp4"; ".mov"; ".m4v"; ".gif";
    ".tiff"; ".bmp" ].

(** [get_media_files_from_directory], on what [directory.rglob('*')]
    yields: each path with the answer of its [is_file()]. *)
Definition get_media_files_from_directory (entries : list (Path * bool))
  : list Path :=
  fold_left
    (fun media_files entry =>
       let '(file_path, is_file) := entry in
       if is_file && mem_str (PyStr.lower (suffix file_path)) media_extensions
       then
         if negb (PyStr.endswith ".json" (name file_path))
         then media_files ++ [file_path]
         else media_files
       else media_files)
    entries [].

(** [self.input_source]: a list of ZIP files, or one path. *)
Inductive input_source : Type :=
| InputList (zip_files : list Path)
| InputPath (input_path : Path).

(** The answers of [determine_input_type]. *)
Inductive input_type : Type :=
| ZipFiles                               (* "zip_files", None *)
| ZipDirectory (input_path : Path)       (* "zip_directory", input_path *)
| ExtractedDirectory (input_path : Path).
                                         (* "extracted_directory", input_path *)

(** The characters [_check_for_unicode_issues] looks for in a member name,
    as code points: i-acute, a-acute, e-acute, n-tilde, U+FFFD and [&]. *)
Definition problematic_chars : list N := [237; 225; 233; 241; 65533; 38]%N.

(** The two tests on a member name: one of these characters occurs in it,
    or [filename.encode('ascii')] raises. *)
Definition name_has_issues (filename : list N) : bool :=
  existsb (fun char => existsb (N.eqb char) filename) problematic_chars
  || existsb (fun c => (127 <? c)%N) filename.

Section Processor.

Variable world : Type.
Variable os : OS world.

(** The constructor arguments [dry_run], [output_dir] and
    [use_system_unzip]. *)
Variable dry_run : bool.
Variable output_dir : string.
Variable use_system_unzip : bool.

Local Abbreviation M := (M world).

(** *** Access to the surroundings *)

(** [subprocess.run(argv, capture_output=True, text=True, timeout=t)] *)
Definition run (argv : list string) (timeout : option Z)
: M (Z * string * string) :=
fun s =>
  let '(r, w') := subprocess_run os (st_world s) argv timeout in
  (completed_or_raise r,
   mkState w' (st_stats s) (st_trace s ++ [EvRun argv timeout])
           (st_verdicts s)).

(** The same with [check=True]. *)
Definition run_checked (argv : list string) (timeout : option Z)
: M (Z * string * string) :=
r <- run argv timeout ;;
let '(rc, _, _) := r in
if (rc =? 0)%Z then ret r else raise CalledProcessError.

(** An operation of the world that may raise, with its trace event. *)
Definition perform (op : world -> res unit * world) (e : event) : M unit :=
fun s =>
  let '(r, w') := op (st_world s) in
  (r, mkState w' (st_stats s) (st_trace s ++ [e]) (st_verdicts s)).

(** [json.loads(text)] *)
Definition loads (text : string) : M json :=
match json_loads os text with
| Some v => ret v
| None => raise JSONDecodeError
end.

(** The status and progress callbacks: the call is recorded, and what the
  callbacks raise is raised. *)
Definition callbacks : M unit :=
fun s =>
  (status_callbacks os (st_world s) (st_trace s),
   mkState (st_world s) (st_stats s) (st_trace s ++ [EvStatus])
           (st_verdicts s)).

(** [update_status]: a log line, then the callbacks. *)
Definition update_status : M unit :=
log Info ;; callbacks.

(** *** Input and extraction *)

(** [find_google_photos_dirs] *)
Definition find_google_photos_dirs (w : world) (search_dir : string)
: list Path :=
map (fun root => mkPath root "Google Photos")
    (walk_google_photos os w search_dir).

(** [determine_input_type] *)
Definition determine_input_type (source : input_source) : M input_type :=
match source with
| InputList _ => ret ZipFiles
| InputPath input_path =>
    w <- get_world ;;
    file <- lift_res (is_file os w (path_str input_path)) ;;
    if file && String.eqb (PyStr.lower (suffix input_path)) ".zip"
    then ret ZipFiles else
    dir <- lift_res (is_dir os w (path_str input_path)) ;;
    if dir then
      zip_files <- lift_res (glob_takeout_zips os w (path_str input_path)) ;;
      match zip_files with
      | _ :: _ => ret (ZipDirectory input_path)
      | [] =>
          direct <- lift_res
                      (path_exists os w
                         (path_str (mkPath (path_str input_path)
                                           "Google Photos"))) ;;
          if direct then ret (ExtractedDirectory input_path) else
          match find_google_photos_dirs w (path_str input_path) with
          | _ :: _ => ret (ExtractedDirectory input_path)
          | [] => raise ValueError
          end
      end
    else raise ValueError
end.

(** [_check_for_unicode_issues]: the first ten members of each archive are
  examined; an archive that cannot be read counts as having issues. *)
Definition _check_for_unicode_issues (w : world) (zip_files : list Path)
: bool :=
existsb
  (fun zip_file =>
     match zip_infolist os w (path_str zip_file) with
     | Ok members => existsb name_has_issues (firstn 10 members)
     | Exc _ => true
     end)
  zip_files.

(** [_extract_single_zip]: a member that cannot be extracted is logged and
  skipped; an archive that cannot be opened is logged and the exception
  raised again. *)
Definition _extract_single_zip (zip_file : Path) (extraction_dir : string)
: M unit :=
try_except
  (w <- get_world ;;
   members <- lift_res (zip_infolist os w (path_str zip_file)) ;;
   for_each (seq 0 (length members)) tt
     (fun member _ =>
        try_except
          (perform (fun w => zip_extract os w (path_str zip_file) member
                                         extraction_dir)
                   (EvExtract (path_str zip_file) member extraction_dir))
          any_exception
          (fun _ => log Warning)))
  any_exception
  (fun e => log Error ;; raise e).

(** [self.stats['errors'].append(f"Extraction failed: {zip_file}")] *)
Definition extraction_failed (zip_file : Path) : M unit :=
log Error ;;
modify_stats (append_error ("Extraction failed: " +++ path_str zip_file)).

(** [_extract_sequential] *)
Definition _extract_sequential (zip_files : list Path)
(extraction_dir : string) : M unit :=
for_each zip_files tt
  (fun zip_file _ =>
     update_status ;;
     try_except (_extract_single_zip zip_file extraction_dir)
                any_exception
                (fun _ => extraction_failed zip_file)).

(** [_extract_with_system_unzip]; its two handlers run the same code. *)
Definition _extract_with_system_unzip (zip_files : list Path)
(extraction_dir : string) : M unit :=
for_each zip_files tt
  (fun zip_file _ =>
     update_status ;;
     try_except
       (result <- run [ "unzip"; "-U"; "-q"; path_str zip_file;
                        "-d"; extraction_dir ] None ;;
        let '(returncode, _, _) := result in
        result <-
          (if negb (returncode =? 0)%Z then
             log Warning ;;
             run [ "unzip"; "-q"; path_str zip_file; "-d"; extraction_dir ]
                 None
           else ret result) ;;
        let '(returncode, _, _) := result in
        if negb (returncode =? 0)%Z then
          log Warning ;;
          _extract_single_zip zip_file extraction_dir
        else ret tt)
       any_exception
       (fun _ =>
          log Error ;;
          try_except
            (log Info ;; _extract_single_zip zip_file extraction_dir)
            any_exception
            (fun _ => extraction_failed zip_file))).

(** [_extract_parallel], in the schedule of the thread pool in which every
  task runs to its end before the next one starts; the pool refuses to
  start without a worker. *)
Definition _extract_parallel (zip_files : list Path)
(extraction_dir : string) : M unit :=
match zip_files with
| [] => raise ValueError
| _ =>
    futures <-
      for_each zip_files []
        (fun zip_file futures =>
           outcome <-
             try_except
               (_extract_single_zip zip_file extraction_dir ;; ret (Ok tt))
               any_exception
               (fun e => ret (Exc e)) ;;
           ret (futures ++ [(outcome, zip_file)])) ;;
    for_each futures tt
      (fun item _ =>
         let '(future, zip_file) := item in
         try_except (lift_res future ;; update_status)
                    any_exception
                    (fun _ => extraction_failed zip_file))
end.

(** [extract_takeout_zips]: nothing in it looks at [dry_run]. *)
Definition extract_takeout_zips (zip_sources : list Path) : M string :=
let extraction_dir := output_dir +++ "/temp/extracted" in
perform (fun w => mkdir os w extraction_dir) (EvMkdir extraction_dir) ;;
update_status ;;
w <- get_world ;;
(if _check_for_unicode_issues w (firstn 1 zip_sources) then
   log Info ;;
   _extract_sequential zip_sources extraction_dir
 else if use_system_unzip && which_unzip os w then
   _extract_with_system_unzip zip_sources extraction_dir
 else if (1 <? length zip_sources)%nat then
   _extract_parallel zip_sources extraction_dir
 else
   _extract_sequential zip_sources extraction_dir) ;;
modify_stats (set_zip_files_extracted (length zip_sources)) ;;
ret extraction_dir.

(** *** Metadata locator *)

(** The first pattern that names an existing file. *)
Fixpoint first_existing (w : world) (patterns : list string)
: res (option string) :=
match patterns with
| [] => Ok None
| pattern :: rest =>
    match path_exists os w pattern with
    | Ok true => Ok (Some pattern)
    | Ok false => first_existing w rest
    | Exc e => Exc e
    end
end.

(** [find_json_metadata] *)
Definition find_json_metadata (w : world) (media_file : Path)
: res (option string) :=
let base_path := sibling media_file (name media_file) in
match first_existing w (sidecar_patterns base_path) with
| Exc e => Exc e
| Ok (Some json_path) => Ok (Some json_path)
| Ok None =>
    if _is_edited_photo media_file then
      match _get_original_name media_file with
      | Some original_name =>
          if negb (String.eqb original_name "") then
            let original_base_path := sibling media_file original_name in
            first_existing w (sidecar_patterns original_base_path)
          else Ok None
      | None => Ok None
      end
    else Ok None
end.

Definition find_json (media_file : Path) : M (option string) :=
fun s => (find_json_metadata (st_world s) media_file, s).

(** [_load_json_safely]: an unreadable or malformed file gives [{}]. *)
Definition _load_json_safely (json_path : string) : M json :=
w <- get_world ;;
match read_json os w json_path with
| Some v => ret v
| None => log Warning ;; ret (JObj [])
end.

(** *** Verifier *)

(** [a.get(k1, {}).get(k2, default)] *)
Definition get2 (d : json) (k1 k2 : string) (default : json) : M json :=
inner <- lift_res (Py.get d k1 (JObj [])) ;;
lift_res (Py.get inner k2 default).

(** [x and exif_data.get(field)] used as a condition: the right operand is
  evaluated only when the left one is true. *)
Definition and_restored (left : bool) (exif_data : json) (field : string)
: M bool :=
if left then
  v <- lift_res (Py.get exif_data field JNull) ;; ret (Py.truthy v)
else ret false.

(** The three checks of [_verify_file_processing], in source order, with
  the local [metadata_restored] as their disjunction. *)
Definition check_restored (json_data exif_data : json) : M bool :=
(* Check date restoration *)
original_timestamp <- get2 json_data "photoTakenTime" "timestamp" JNull ;;
date_ok <- and_restored (Py.truthy original_timestamp) exif_data
                        "DateTimeOriginal" ;;
(if date_ok then modify_stats incr_date_restored else ret tt) ;;
(* Check GPS restoration *)
original_lat <- get2 json_data "geoData" "latitude" (JNum 0%Q) ;;
gps_ok <- and_restored (Py.ne_zero original_lat) exif_data
                       "GPSLatitude" ;;
(if gps_ok then modify_stats incr_gps_restored else ret tt) ;;
(* Check description restoration *)
original_desc <- lift_res (Py.get json_data "description" (JStr "")) ;;
desc_ok <- and_restored (Py.truthy original_desc) exif_data
                        "Description" ;;
ret (date_ok || gps_ok || desc_ok).

(** The [try] block of [_verify_file_processing]. *)
Definition verify_body (file_path : Path) : M bool :=
json_file <- find_json file_path ;;
match json_file with
| None => ret false
| Some json_file =>
    modify_stats incr_json_matched ;;
    json_data <- _load_json_safely json_file ;;
    if negb (Py.truthy json_data) then ret false else
    result <- run (verify_cmd file_path) (Some 10%Z) ;;
    let '(returncode, stdout, _) := result in
    if negb (returncode =? 0)%Z then ret false else
    parsed <- loads stdout ;;
    exif_data <- lift_res (Py.item0 parsed) ;;
    check_restored json_data exif_data
end.

(** [_verify_file_processing]: any exception gives [False]; the returned
  value is appended to the verdict history. *)
Definition _verify_file_processing (file_path : Path) : M bool :=
verdict <- try_except (verify_body file_path) any_exception
             (fun _ => log Debug ;; ret false) ;;
record_verdict file_path verdict ;;
ret verdict.

(** *** Embedding executor *)

(** The three results of a batch: success count, unmapped, processed. *)
Definition batch_result : Type := (nat * list Path * list Path)%type.

(** The body of the loop of [_process_files_individually]. *)
Definition process_one_individually (file_path : Path) (acc : batch_result)
: M batch_result :=
let '(individual_success, individual_unmapped, individual_processed) := acc in
try_except
  (json_file <- find_json file_path ;;
   match json_file with
   | None =>
       log Debug ;;
       ret (individual_success, individual_unmapped ++ [file_path],
            individual_processed)
   | Some json_file =>
       result <- run (single_cmd json_file file_path) (Some 30%Z) ;;
       let '(returncode, _, _) := result in
       if (returncode =? 0)%Z then
         ok <- _verify_file_processing file_path ;;
         if ok then
           ret (S individual_success, individual_unmapped,
                individual_processed ++ [file_path])
         else ret acc
       else log Warning ;; ret acc
   end)
  any_exception
  (fun _ => log Error ;; ret acc).

(** [_process_files_individually] *)
Definition _process_files_individually (batch : list Path) (batch_num : nat)
: M batch_result :=
r <- for_each batch (0, [], []) process_one_individually ;;
let '(individual_success, _, _) := r in
(if (0 <? individual_success)%nat then log Info
 else
   log Error ;;
   modify_stats
     (append_error ("Batch " +++ str_of_nat batch_num
                    +++ " completely failed: "
                    +++ str_of_nat (length batch) +++ " files"))) ;;
ret r.

(** The body of the verification loop after a successful batch. *)
Definition verify_one_in_batch (file_path : Path) (acc : batch_result)
: M batch_result :=
let '(batch_success, batch_unmapped, batch_processed) := acc in
ok <- _verify_file_processing file_path ;;
if ok then
  ret (S batch_success, batch_unmapped, batch_processed ++ [file_path])
else
  (* Check if it's unmapped (no JSON found) *)
  json_file <- find_json file_path ;;
  match json_file with
  | None => ret (batch_success, batch_unmapped ++ [file_path], batch_processed)
  | Some _ => ret acc
  end.

(** [_process_batch_with_verification] *)
Definition _process_batch_with_verification (batch : list Path)
(batch_num : nat) : M batch_result :=
try_except
  (result <- run (batch_cmd batch) (Some 300%Z) ;;
   let '(returncode, _, _) := result in
   if (returncode =? 0)%Z then
     r <- for_each batch (0, [], []) verify_one_in_batch ;;
     log Info ;;
     ret r
   else
     log Warning ;; log Warning ;;
     _process_files_individually batch batch_num)
  any_exception   (* subprocess.TimeoutExpired, then Exception *)
  (fun _ => log Error ;; _process_files_individually batch batch_num).

(** The dry-run branch of the batch loop for one file: the bookkeeping is
  simulated from the sidecar alone. *)
Definition simulate_one (file_path : Path) (acc : list Path * list Path)
: M (list Path * list Path) :=
let '(unmapped_files, successfully_processed_files) := acc in
json_file <- find_json file_path ;;
match json_file with
| Some json_file =>
    modify_stats incr_json_matched ;;
    json_data <- _load_json_safely json_file ;;
    ts <- get2 json_data "photoTakenTime" "timestamp" JNull ;;
    (if Py.truthy ts then modify_stats incr_date_restored else ret tt) ;;
    lat <- get2 json_data "geoData" "latitude" (JNum 0%Q) ;;
    (if Py.ne_zero lat then modify_stats incr_gps_restored else ret tt) ;;
    ret (unmapped_files, successfully_processed_files ++ [file_path])
| None => ret (unmapped_files ++ [file_path], successfully_processed_files)
end.

(** One iteration of [for batch_num in range(total_batches)]. *)
Definition process_batch_number (media_files : list Path) (batch_size : nat)
(batch_num : nat) (acc : batch_result) : M batch_result :=
let '(success_count, unmapped_files, successfully_processed_files) := acc in
let start_idx := batch_num * batch_size in
let end_idx := Nat.min (start_idx + batch_size) (length media_files) in
let batch := firstn (end_idx - start_idx) (skipn start_idx media_files) in
update_status ;;
if dry_run then
  log Info ;;
  lists <- for_each batch (unmapped_files, successfully_processed_files)
             simulate_one ;;
  ret (success_count + length batch, fst lists, snd lists)
else
  r <- _process_batch_with_verification batch (batch_num + 1) ;;
  let '(batch_success, batch_unmapped, batch_processed) := r in
  ret (success_count + batch_success,
       unmapped_files ++ batch_unmapped,
       successfully_processed_files ++ batch_processed).

(** The batch loop of [process_with_exiftool]; its result is the triple of
  locals [success_count], [unmapped_files],
  [successfully_processed_files] at the end of the loop. *)
Definition process_batches (media_files : list Path) (batch_size : nat)
: M batch_result :=
match batch_size with
| O => raise ZeroDivisionError
| S _ =>
    let total_batches := (length media_files + batch_size - 1) / batch_size in
    update_status ;;
    for_each (seq 0 total_batches) (0, [], [])
             (process_batch_number media_files batch_size)
end.

(** The body of the copy loops: re-root, create the directory, copy. *)
Definition copy_under (base : string) (file_path : Path) : M unit :=
w <- get_world ;;
rel_path <- lift_res (reroot os w file_path) ;;
let dest_path := under base rel_path in
perform (fun w => mkdir os w (parent dest_path))
        (EvMkdir (parent dest_path)) ;;
perform (fun w => shutil_copy2 os w (path_str file_path) (path_str dest_path))
        (EvCopy (path_str file_path) (path_str dest_path)) ;;
log Debug.

(** [_copy_processed_files_to_output] *)
Definition _copy_processed_files_to_output (processed_files : list Path)
: M unit :=
match processed_files with
| [] => ret tt
| _ =>
    log Info ;;
    _ <- for_each processed_files 0
           (fun file_path progress_counter =>
              try_except
                (copy_under output_dir file_path ;;
                 let progress_counter := progress_counter + 1 in
                 (if (progress_counter mod 50 =? 0)%nat
                  then update_status else ret tt) ;;
                 ret progress_counter)
                any_exception
                (fun _ => log Warning ;; ret progress_counter)) ;;
    log Info
end.

(** [_handle_unmapped_files] *)
Definition _handle_unmapped_files (unmapped_files : list Path) : M unit :=
match unmapped_files with
| [] => ret tt
| _ =>
    let unmapped_dir := output_dir +++ "/unmapped" in
    perform (fun w => mkdir os w unmapped_dir) (EvMkdir unmapped_dir) ;;
    log Info ;;
    _ <- for_each unmapped_files tt
           (fun file_path _ =>
              try_except (copy_under unmapped_dir file_path)
                         any_exception
                         (fun _ => log Warning)) ;;
    log Info
end.

(** [process_with_exiftool] *)
Definition process_with_exiftool (media_files : list Path) (batch_size : nat)
: M bool :=
r <- process_batches media_files batch_size ;;
let '(success_count, unmapped_files, successfully_processed_files) := r in
(match successfully_processed_files with
 | _ :: _ => if negb dry_run
             then _copy_processed_files_to_output successfully_processed_files
             else ret tt
 | [] => ret tt
 end) ;;
(match unmapped_files with
 | _ :: _ => if negb dry_run
             then _handle_unmapped_files unmapped_files
             else ret tt
 | [] => ret tt
 end) ;;
modify_stats (set_processed_files success_count) ;;
ret (0 <? success_count)%nat.

(** *** Extension fixing and Live Photos *)

(** [detect_file_type_mismatch] *)
Definition detect_file_type_mismatch (file_path : Path) : M (option string) :=
try_except
  (result <- run_checked (filetype_cmd file_path) None ;;
   let '(_, stdout, _) := result in
   parsed <- loads stdout ;;
   metadata <- lift_res (Py.item0 parsed) ;;
   file_type <- lift_res (Py.get metadata "FileType" (JStr "")) ;;
   actual_type <- lift_res (Py.upper file_type) ;;
   let extension := PyStr.lower (suffix file_path) in
   match assoc_str extension mismatches with
   | Some types =>
       if mem_str actual_type types
       then ret (Some (PyStr.lower actual_type))
       else ret None
   | None => ret None
   end)
  (fun e => match e with
            | CalledProcessError | JSONDecodeError | IndexError => true
            | _ => false
            end)
  (fun _ => ret None).

(** The body of the loop of [fix_file_extensions]. *)
Definition fix_one (item : nat * Path) (corrected_files : list Path)
: M (list Path) :=
let '(i, file_path) := item in
(if (i mod 100 =? 0)%nat then update_status else ret tt) ;;
correct_type <- detect_file_type_mismatch file_path ;;
match correct_type with
| Some (String _ _ as correct_type) =>
    let new_extension := "." +++ correct_type in
    let new_path := with_suffix file_path new_extension in
    (if negb dry_run
     then perform (fun w => shutil_move os w (path_str file_path)
                                        (path_str new_path))
                  (EvMove (path_str file_path) (path_str new_path))
     else ret tt) ;;
    log Info ;;
    modify_stats incr_extensions_fixed ;;
    ret (corrected_files ++ [new_path])
| _ => ret (corrected_files ++ [file_path])
end.

(** [enumerate(l)] *)
Definition enumerate {A} (l : list A) : list (nat * A) :=
combine (seq 0 (length l)) l.

(** [fix_file_extensions] *)
Definition fix_file_extensions (media_files : list Path) : M (list Path) :=
update_status ;;
for_each (enumerate media_files) [] fix_one.

(** [live_photos[base_name] = pair] *)
Fixpoint dict_set {A} (key : string) (v : A) (d : list (string * A))
: list (string * A) :=
match d with
| [] => [(key, v)]
| (k, x) :: rest =>
    if String.eqb k key then (k, v) :: rest else (k, x) :: dict_set key v rest
end.

(** The inner loop of [identify_live_photos]: the first candidate that
  exists. *)
Fixpoint first_existing_path (w : world) (video_patterns : list Path)
: res (option Path) :=
match video_patterns with
| [] => Ok None
| video_path :: rest =>
    match path_exists os w (path_str video_path) with
    | Ok true => Ok (Some video_path)
    | Ok false => first_existing_path w rest
    | Exc e => Exc e
    end
end.

(** The body of the loop of [identify_live_photos]. *)
Definition pair_live_photo (file_path : Path)
(live_photos : list (string * (Path * Path)))
: M (list (string * (Path * Path))) :=
if String.eqb (PyStr.lower (suffix file_path)) ".heic" then
  let base_name := stem file_path in
  let video_patterns :=
    [ sibling file_path (base_name +++ "(1).heic");
      sibling file_path (base_name +++ ".mov") ] in
  w <- get_world ;;
  found <- lift_res (first_existing_path w video_patterns) ;;
  match found with
  | Some video_path =>
      modify_stats incr_live_photos_paired ;;
      ret (dict_set base_name (file_path, video_path) live_photos)
  | None => ret live_photos
  end
else ret live_photos.

(** [identify_live_photos] *)
Definition identify_live_photos (media_files : list Path)
: M (list (string * (Path * Path))) :=
update_status ;;
live_photos <- for_each media_files [] pair_live_photo ;;
log Info ;;
ret live_photos.

(** *** Report and pipeline *)

(** [processed / max(1, total) * 100] *)
Definition success_rate (processed total : nat) : Q :=
(inject_Z (Z.of_nat processed) / inject_Z (Z.of_nat (Nat.max 1 total)) * 100)%Q.

(** [generate_report] *)
Definition generate_report : M Report :=
stats <- get_stats ;;
let report :=
  mkReport stats
           ("Processed " +++ str_of_nat (processed_files stats) +++ " of "
            +++ str_of_nat (total_files stats) +++ " files")
           (success_rate (processed_files stats) (total_files stats)) in
let report_path := output_dir +++ "/processing_report.json" in
(if negb dry_run
 then perform (fun w => write_report os w report_path report)
              (EvWriteReport report_path)
 else ret tt) ;;
ret report.

(** Phase 1 of [process]: the input is recognised and, when it is made of
  archives, extracted; the result is the working directory. *)
Definition prepare_input (source : input_source) : M string :=
input <- determine_input_type source ;;
match input with
| ZipFiles =>
    let zip_files :=
      match source with
      | InputList zip_files => zip_files
      | InputPath input_path => [input_path]
      end in
    extract_takeout_zips zip_files
| ZipDirectory working_dir =>
    w <- get_world ;;
    zip_files <- lift_res (glob_takeout_zips os w (path_str working_dir)) ;;
    extract_takeout_zips zip_files
| ExtractedDirectory working_dir => ret (path_str working_dir)
end.

(** Phase 2 of [process]: the media files of the Google Photos
  directories below the working directory. *)
Definition scan_google_photos (working_dir : string) : M (list Path) :=
update_status ;;
w <- get_world ;;
match find_google_photos_dirs w working_dir with
| [] => raise ValueError
| google_photos_dirs =>
    for_each google_photos_dirs []
      (fun photos_dir all_media_files =>
         w <- get_world ;;
         entries <- lift_res (rglob_is_file os w photos_dir) ;;
         ret (all_media_files ++ get_media_files_from_directory entries))
end.

(** Phases 3 to 6 of [process], on the list that the scan has produced. *)
Definition run_phases (all_media_files : list Path) : M bool :=
modify_stats (set_total_files (length all_media_files)) ;;
update_status ;;
corrected_files <- fix_file_extensions all_media_files ;;
_ <- identify_live_photos corrected_files ;;
_ <- process_with_exiftool corrected_files 50 ;;
update_status ;;
_ <- generate_report ;;
update_status ;;
ret true.

(** The handler of [process]. *)
Definition processing_failed : M bool :=
log Error ;; update_status ;; ret false.

(** [process], from the point where the scan of Phase 2 has produced
  [all_media_files]: Phases 3 to 6 under the method's [try]. *)
Definition process_scanned (all_media_files : list Path) : M bool :=
try_except (run_phases all_media_files)
           any_exception
           (fun _ => processing_failed).

(** [process] *)
Definition process (source : input_source) : M bool :=
update_status ;;
try_except
  (working_dir <- prepare_input source ;;
   all_media_files <- scan_google_photos working_dir ;;
   run_phases all_media_files)
  any_exception
  (fun _ => processing_failed).

End Processor.

Arguments find_json_metadata {world} os w media_file.
Arguments update_status {world} os _.
Arguments first_existing_path {world} os w video_patterns.
Arguments pair_live_photo {world} os file_path live_photos _.
Arguments determine_input_type {world} os source _.
Arguments extract_takeout_zips {world} os output_dir use_system_unzip zip_sources _.
Arguments prepare_input {world} os output_dir use_system_unzip source _.
Arguments scan_google_photos {world} os working_dir _.
Arguments processing_failed {world} os _.
Arguments run_phases {world} os dry_run output_dir all_media_files _.
Arguments process {world} os dry_run output_dir use_system_unzip source _.
Arguments first_existing {world} os w patterns.
Arguments _verify_file_processing {world} os file_path _.
Arguments verify_body {world} os file_path _.
Arguments check_restored {world} json_data exif_data _.
Arguments process_one_individually {world} os file_path acc _.
Arguments verify_one_in_batch {world} os file_path acc _.
Arguments _process_files_individually {world} os batch batch_num _.
Arguments _process_batch_with_verification {world} os batch batch_num _.
Arguments process_batches {world} os dry_run media_files batch_size _.
Arguments process_with_exiftool {world} os dry_run output_dir media_files batch_size _.
Arguments fix_file_extensions {world} os dry_run media_files _.
Arguments generate_report {world} os dry_run output_dir _.
Arguments process_scanned {world} os dry_run output_dir all_media_files _.

(* ================================================================== *)
(** ** ProcessingVerifier.verify_timestamp_accuracy *)

Module Verifier.

(** An entry of [verification_results['timestamp_accuracy_issues']];
  datetimes are seconds on the naive time line, differences are in
  seconds. *)
Record issue : Type := mkIssue {
file : string;
original_utc : Z;
original_local : Z;
embedded : Z;
utc_diff : Z;
local_diff : Z
}.

(** The attributes of the class [datetime.datetime].  The module
  [verify_processing] does [from datetime import datetime], so the name
  [datetime] in it is this class; [timezone] is an attribute of the
  module [datetime], not of the class. *)
Definition datetime_class_attrs : list string :=
[ "min"; "max"; "resolution";
  "year"; "month"; "day"; "hour"; "minute"; "second"; "microsecond";
  "tzinfo"; "fold";
  "today"; "now"; "utcnow"; "fromtimestamp"; "utcfromtimestamp";
  "fromordinal"; "combine"; "fromisoformat"; "fromisocalendar"; "strptime";
  "date"; "time"; "timetz"; "replace"; "astimezone"; "utcoffset"; "dst";
  "tzname"; "timetuple"; "utctimetuple"; "toordinal"; "timestamp";
  "weekday"; "isoweekday"; "isocalendar"; "isoformat"; "ctime";
  "strftime" ].

(** [datetime.<attr>] in that module. *)
Definition datetime_getattr (attr : string) : res string :=
if mem_str attr datetime_class_attrs then Ok attr else Exc AttributeError.

Section Runtime.

(** The library functions the method calls. *)
Variable int_of : json -> res Z.                 (* int(x) *)
Variable fromtimestamp : Z -> option string -> res Z.
(* datetime.fromtimestamp(t[, tz]), read as a naive datetime *)
Variable strptime : json -> res Z.
(* datetime.strptime(x, "%Y:%m:%d %H:%M:%S") *)
Variable split_dot_head : json -> res json.      (* x.split('.')[0] *)

Definition V (A : Type) : Type := SE (list issue) A.

(** The [try] block of [verify_timestamp_accuracy]. *)
Definition timestamp_body (json_data exif_data : json) (media_file : Path)
  : V bool :=
  photo_taken <- lift_res (Py.get json_data "photoTakenTime" (JObj [])) ;;
  original_timestamp <- lift_res (Py.get photo_taken "timestamp" JNull) ;;
  embedded_date <- lift_res (Py.get exif_data "DateTimeOriginal" JNull) ;;
  if negb (Py.truthy original_timestamp) || negb (Py.truthy embedded_date)
  then ret false else
  (* datetime.fromtimestamp(int(original_timestamp), datetime.timezone.utc) *)
  t <- lift_res (int_of original_timestamp) ;;
  timezone <- lift_res (datetime_getattr "timezone") ;;
  original_utc_dt <- lift_res (fromtimestamp t (Some (timezone +++ ".utc"))) ;;
  (* datetime.fromtimestamp(int(original_timestamp)) *)
  t' <- lift_res (int_of original_timestamp) ;;
  original_local_dt <- lift_res (fromtimestamp t' None) ;;
  embedded_dt <-
try_except (lift_res (strptime embedded_date))
  (fun e => match e with ValueError => true | _ => false end)
  (fun _ => head <- lift_res (split_dot_head embedded_date) ;;
            lift_res (strptime head)) ;;
  let utc_diff := Z.abs (original_utc_dt - embedded_dt) in
  let local_diff := Z.abs (original_local_dt - embedded_dt) in
  let time_diff := Z.min utc_diff local_diff in
  if (21600 <? time_diff)%Z then
(fun issues =>
   (Ok false,
    issues ++ [ mkIssue (name media_file) original_utc_dt
                        original_local_dt embedded_dt
                        utc_diff local_diff ]))
  else ret true.

(** [verify_timestamp_accuracy] *)
Definition verify_timestamp_accuracy (json_data exif_data : json)
  (media_file : Path) : V bool :=
  try_except (timestamp_body json_data exif_data media_file)
         any_exception (fun _ => ret false).

End Runtime.

End Verifier.

(* ================================================================== *)
(** ** A small concrete world

    A file tree given by the list of existing paths, the contents of the
    sidecars, and a scripted external tool: fixed exit statuses for the two
    kinds of write command and a fixed output per file for the two queries.
    Used to run the processor on concrete inputs. *)

Module Sim.

Record world : Type := mkWorld {
present : list string;                 (* the paths that exist *)
sidecars : list (string * json);       (* what json.load reads *)
batch_status : run_result;             (* the batch write command *)
single_status : run_result;            (* a single-file write command *)
fields_out : list (string * string);   (* stdout of the field query *)
filetype_out : list (string * string)  (* stdout of the FileType query *)
}.

(** The outputs the scripted tool can print, with their parse. *)
Definition codec : list (string * json) :=
[ ("[{}]", JArr [JObj []]);
  ("[{DateTimeOriginal}]",
   JArr [JObj [("DateTimeOriginal", JStr "2023:09:01 12:00:00")]]);
  ("[{DateTimeOriginal, GPSLatitude}]",
   JArr [JObj [("DateTimeOriginal", JStr "2023:09:01 12:00:00");
               ("GPSLatitude", JStr "37 deg 46 min N")]]);
  ("[{Description: }]", JArr [JObj [("Description", JStr "")]]);
  ("[{FileType: JPEG}]", JArr [JObj [("FileType", JStr "JPEG")]]);
  ("[{FileType: MP4}]", JArr [JObj [("FileType", JStr "MP4")]]) ].

Definition text_for (file : string) (table : list (string * string)) : string :=
match assoc_str file table with
| Some text => text
| None => "[{}]"
end.

(** The scripted [subprocess.run]: the command is recognised by its
  second and third arguments, the file of a query is its last one. *)
Definition run_tool (w : world) (argv : list string) (timeout : option Z)
: run_result * world :=
let file := last argv "" in
match nth 1 argv "" with
| "-json" =>
    match nth 2 argv "" with
    | "-FileType" => (Completed 0 (text_for file (filetype_out w)) "", w)
    | _ => (Completed 0 (text_for file (fields_out w)) "", w)
    end
| _ =>
    if PyStr.startswith "-tagsfromfile=" (nth 6 argv "")
    then (single_status w, w)
    else (batch_status w, w)
end.

(** The file system refuses a path whose last component is longer than 255
  bytes. *)
Definition name_too_long (p : string) : bool :=
(255 <? String.length (last_component p))%nat.

(** A rendered path as a [Path]. *)
Definition as_path (p : string) : Path :=
let file := last_component p in
mkPath (substring 0 (String.length p - String.length file - 1) p) file.

(** The existing paths below a directory. *)
Definition below (dir : string) (w : world) : list string :=
filter (PyStr.startswith (dir +++ "/")) (present w).

(** The scripted surroundings, for a given existence check: no callback
  is set, every existing path is a regular file, a directory is there when
  a file is below it, and an archive that exists holds the one member
  [p1.jpg]. *)
Definition make_os (exists_ : world -> string -> res bool) : OS world :=
mkOS world
  exists_
  (fun w p => assoc_str p (sidecars w))
  (fun text => assoc_str text codec)
  run_tool
  (fun w _ _ => (Ok tt, w))
  (fun w p => Ok (mkPath "" (name p)))
  (fun w _ => (Ok tt, w))
  (fun w _ _ => (Ok tt, w))
  (fun w _ _ => (Ok tt, w))
  (fun _ _ => Ok tt)
  (fun w p => Ok (mem_str p (present w)))
  (fun w p => Ok (match below p w with [] => false | _ => true end))
  (fun w p =>
     Ok (filter (fun f => String.eqb (parent f) p
                          && PyStr.startswith "takeout-" (name f)
                          && PyStr.endswith ".zip" (name f))
                (map as_path (below p w))))
  (fun w p => match below (p +++ "/Google Photos") w with
              | [] => []
              | _ => [p]
              end)
  (fun w d => Ok (map (fun f => (as_path f, true)) (below (path_str d) w)))
  (fun _ => false)
  (fun w p => if mem_str p (present w)
              then Ok [[112; 49; 46; 106; 112; 103]%N]
              else Exc OSError)
  (fun w _ _ _ => (Ok tt, w)).

(** A file system without a limit on names. *)
Definition os : OS world :=
make_os (fun w p => Ok (mem_str p (present w))).

(** A file system that refuses long names. *)
Definition os_name_max : OS world :=
make_os (fun w p => if name_too_long p then Exc OSError
                    else Ok (mem_str p (present w))).

Definition start (w : world) : state world := mkState w initial_stats [] [].

(** A file name of 244 bytes. *)
Definition long_name : string :=
String.concat "" (repeat "a" 240) +++ ".jpg".

(** The sidecar of the end-to-end example: a capture time, a position
  and a description. *)
Definition sample_sidecar : json :=
JObj [ ("title", JStr "Test Photo");
       ("description", JStr "Test description");
       ("photoTakenTime", JObj [("timestamp", JStr "1693584000")]);
       ("geoData", JObj [("latitude", JNum (377749 # 10000));
                         ("longitude", JNum (-1224194 # 10000))]) ].

Definition photo1 : Path := mkPath "Takeout/Google Photos/Album" "photo1.jpg".
Definition photo1_json : string :=
"Takeout/Google Photos/Album/photo1.jpg.supplemental-metadata.json".

(** An asset with a dated file name and no sidecar. *)
Definition dated : Path :=
mkPath "Takeout/Google Photos/Album" "IMG_20210619_125530.jpg".

(** [photo1] with its sidecar, next to [dated]; every write succeeds and
  the tool then reports a capture date and a position for [photo1]. *)
Definition w_ok : world :=
mkWorld [ path_str photo1; photo1_json; path_str dated ]
        [ (photo1_json, sample_sidecar) ]
        (Completed 0 "" "") (Completed 0 "" "")
        [ (path_str photo1, "[{DateTimeOriginal, GPSLatitude}]") ]
        [].

(** The same tree, but the tool reports success and leaves no field in
  [photo1]. *)
Definition w_mismatch : world :=
mkWorld [ path_str photo1; photo1_json; path_str dated ]
        [ (photo1_json, sample_sidecar) ]
        (Completed 0 "" "") (Completed 0 "" "")
        []
        [].

(** The same tree, with a batch command that exits with status 1. *)
Definition w_batch_fails : world :=
mkWorld [ path_str photo1; photo1_json; path_str dated ]
        [ (photo1_json, sample_sidecar) ]
        (Completed 1 "" "error") (Completed 0 "" "")
        [ (path_str photo1, "[{DateTimeOriginal, GPSLatitude}]") ]
        [].

End Sim.

(* ================================================================== *)
(** ** Vocabulary of the specification

    The conditions of the verification rule, read off a sidecar record and
    off the record of re-read fields, in the words of the specification
    (written independently of the code of [_verify_file_processing]). *)

Module Spec.

(** The sidecar schema: ["photoTakenTime"] is an object whose
  ["timestamp"] is a non-empty string, ["geoData"] an object whose
  ["latitude"] is a number, ["description"] a string; any key may be
  missing. *)
Definition sidecar_well_formed (sidecar : json) : bool :=
match sidecar with
| JObj fields =>
    match Py.lookup fields "photoTakenTime" with
    | None => true
    | Some (JObj taken) =>
        match Py.lookup taken "timestamp" with
        | None => true
        | Some (JStr t) => negb (String.eqb t "")
        | Some _ => false
        end
    | Some _ => false
    end
    &&
    match Py.lookup fields "geoData" with
    | None => true
    | Some (JObj geo) =>
        match Py.lookup geo "latitude" with
        | None | Some (JNum _) => true
        | Some _ => false
        end
    | Some _ => false
    end
    &&
    match Py.lookup fields "description" with
    | None | Some (JStr _) => true
    | Some _ => false
    end
| _ => false
end.

(** [photoTakenTime.timestamp] is present. *)
Definition has_timestamp (sidecar : json) : bool :=
match sidecar with
| JObj fields =>
    match Py.lookup fields "photoTakenTime" with
    | Some (JObj taken) =>
        match Py.lookup taken "timestamp" with
        | Some _ => true
        | None => false
        end
    | _ => false
    end
| _ => false
end.

(** [geoData.latitude] is present and is not zero. *)
Definition latitude_nonzero (sidecar : json) : bool :=
match sidecar with
| JObj fields =>
    match Py.lookup fields "geoData" with
    | Some (JObj geo) =>
        match Py.lookup geo "latitude" with
        | Some (JNum q) => negb (Qeq_bool q 0%Q)
        | _ => false
        end
    | _ => false
    end
| _ => false
end.

(** [description] is present and is not the empty string. *)
Definition description_nonempty (sidecar : json) : bool :=
match sidecar with
| JObj fields =>
    match Py.lookup fields "description" with
    | Some (JStr d) => negb (String.eqb d "")
    | _ => false
    end
| _ => false
end.

(** The record of embedded fields read back from an asset: the first
  element of the parsed output of a query that exited with status 0;
  nothing when the query times out, fails, or prints no such list. *)
Definition reread {world} (os : OS world) (w : world) (file_path : Path)
: option json :=
match fst (subprocess_run os w (verify_cmd file_path) (Some 10%Z)) with
| Completed rc out _ =>
    if (rc =? 0)%Z then
      match json_loads os out with
      | Some parsed =>
          match Py.item0 parsed with
          | Ok record => Some record
          | Exc _ => None
          end
      | None => None
      end
    else None
| _ => None
end.

(** A field is present in the asset: the record read back has the key,
  whatever the value. *)
Definition key_present (record : option json) (field : string) : bool :=
match record with
| Some (JObj fields) =>
    match Py.lookup fields field with
    | Some _ => true
    | None => false
    end
| _ => false
end.

(** A field is present in the asset with a value: the record read back
  has the key, and the value is not empty (not [""], [0], [null],
  [false], [[]] or [{}]).  This is stronger than [key_present]. *)
Definition embedded_present (record : option json) (field : string) : bool :=
match record with
| Some (JObj fields) =>
    match Py.lookup fields field with
    | Some v => Py.truthy v
    | None => false
    end
| _ => false
end.

(** The events a dry run may cause: log lines, status callbacks, and the
  read-only FileType query of the extension check (issued without a
  timeout).  A rename, a tool invocation that writes, a directory
  creation, an extraction, a copy and a report write are not among
  them. *)
Definition dry_event (e : event) : Prop :=
match e with
| EvLog _ | EvStatus => True
| EvRun argv None => exists file_path, argv = filetype_cmd file_path
| _ => False
end.

(** The assets with a positive verdict in a verdict history. *)
Definition tally (verdicts : list (Path * bool)) : list Path :=
map fst (filter snd verdicts).

(** The verification rule in the words of the claim, for any sidecar:
  "present" is the presence of the key. *)
Definition claimed_rule (sidecar : json) (record : option json) : bool :=
(has_timestamp sidecar && key_present record "DateTimeOriginal")
|| (latitude_nonzero sidecar && key_present record "GPSLatitude")
|| (description_nonempty sidecar && key_present record "Description").

(** The verification rule with "present" read as: present with a value. *)
Definition verified_rule (sidecar : json) (record : option json) : bool :=
(has_timestamp sidecar && embedded_present record "DateTimeOriginal")
|| (latitude_nonzero sidecar && embedded_present record "GPSLatitude")
|| (description_nonempty sidecar && embedded_present record "Description").

End Spec.

(* ================================================================== *)
(** * Properties *)

(** ** Substring search *)

Section SubstringFacts.

Lemma startswith_app (p post : string) :
PyStr.startswith p (p +++ post) = true.
Proof.
induction p as [|a p IH]; simpl; [reflexivity|].
now rewrite Ascii.eqb_refl, IH.
Qed.

Lemma startswith_inv (p s : string) :
PyStr.startswith p s = true -> exists post, s = p +++ post.
Proof.
revert s; induction p as [|a p IH]; intros s H.
- now exists s.
- destruct s as [|b s]; simpl in H; [discriminate|].
  apply andb_true_iff in H as [Hab Hps].
  apply Ascii.eqb_eq in Hab; subst b.
  destruct (IH _ Hps) as [post ->].
  now exists post.
Qed.

Lemma contains_complete (pre p post : string) :
PyStr.contains p (pre +++ p +++ post) = true.
Proof.
induction pre as [|c pre IH]; simpl.
- destruct (p +++ post) as [|c r] eqn:E.
  + destruct p; [reflexivity | discriminate].
  + simpl. rewrite <- E, startswith_app. reflexivity.
- rewrite IH. apply orb_true_r.
Qed.

Lemma contains_sound (p s : string) :
PyStr.contains p s = true -> PyStr.Contains p s.
Proof.
induction s as [|c s IH]; simpl; intros H.
- destruct (startswith_inv _ _ H) as [post Hpost].
  exists "", post. exact Hpost.
- apply orb_true_iff in H as [H|H].
  + destruct (startswith_inv _ _ H) as [post Hpost].
    exists "", post. exact Hpost.
  + destruct (IH H) as (pre & post & ->).
    exists (String c pre), post. reflexivity.
Qed.

(** [p in s] decides the substring relation. *)
Lemma contains_spec (p s : string) :
PyStr.contains p s = true <-> PyStr.Contains p s.
Proof.
split; [apply contains_sound|].
intros (pre & post & ->). apply contains_complete.
Qed.

Lemma append_assoc (a b c : string) : (a +++ b) +++ c = a +++ b +++ c.
Proof. induction a; simpl; congruence. Qed.

Lemma Contains_trans (a b c : string) :
PyStr.Contains a b -> PyStr.Contains b c -> PyStr.Contains a c.
Proof.
intros (p1 & q1 & ->) (p2 & q2 & ->).
exists (p2 +++ p1), (q1 +++ q2).
now rewrite !append_assoc.
Qed.

End SubstringFacts.

(** ** Pattern matcher *)

(** C7, as the claim states it, fails: an upper-case marker is recognised.
    The name "IMG_001-EDITED.jpg" contains none of the four markers, yet
    [_is_edited_photo] classifies it as an edited variant. *)
Lemma is_edited_photo_matches_upper_case :
  ~ (_is_edited_photo (mkPath "Album" "IMG_001-EDITED.jpg") = true <->
     exists m, In m edited_markers /\ PyStr.Contains m "IMG_001-EDITED.jpg").
Proof.
  intros [H _].
  destruct (H eq_refl) as (m & Hin & Hc).
  apply contains_spec in Hc.
  simpl in Hin.
  destruct Hin as [<-|[<-|[<-|[<-|[]]]]]; vm_compute in Hc; discriminate.
Qed.

(** C7 (amended): the edited-variant test is true exactly when the
    lower-cased name contains one of the markers "-edited",
    "-effects-edited", "_edited", "_1-edited"; the match ignores the case
    of the name's letters. *)
Theorem is_edited_photo_iff_lowercased_marker (media_file : Path) :
  _is_edited_photo media_file = true <->
  exists m, In m [ "-edited"; "-effects-edited"; "_edited"; "_1-edited" ] /\
            PyStr.Contains m (PyStr.lower (name media_file)).
Proof.
  unfold _is_edited_photo. rewrite existsb_exists.
  split; intros (m & Hin & Hc); exists m; (split; [exact Hin|]);
    now apply contains_spec.
Qed.

(** Every name with the marker "_1-edited" also has the marker "-edited",
    which comes earlier in [patterns_to_remove]: the third pattern of
    [_get_original_name] is never the one stripped. *)
Lemma get_original_name_third_pattern_dead (edited_file : Path) :
  PyStr.contains "_1-edited" (name edited_file) = true ->
  _get_original_name edited_file =
    Some (PyStr.remove_all
            (if PyStr.contains "-EFFECTS-edited" (name edited_file)
             then "-EFFECTS-edited" else "-edited")
            (name edited_file)).
Proof.
  intros H. unfold _get_original_name, patterns_to_remove, strip_first_match.
  destruct (PyStr.contains "-EFFECTS-edited" (name edited_file)); [reflexivity|].
  assert (Hc : PyStr.contains "-edited" (name edited_file) = true).
  { apply contains_spec.
    apply Contains_trans with (b := "_1-edited"); [|now apply contains_spec].
    exists "_1", "". reflexivity. }
  now rewrite Hc.
Qed.

(** C6: on the documented example the marker stripped is "-edited", not the
    longer "_1-edited": the recovered name keeps the "_1". *)
Theorem get_original_name_keeps_part_of_marker :
  forall dir,
    _get_original_name (mkPath dir "IMG_20180804_134812_1-edited.jpg")
      = Some "IMG_20180804_134812_1.jpg" /\
    _get_original_name (mkPath dir "IMG_20180804_134812_1-edited.jpg")
      <> Some "IMG_20180804_134812.jpg".
Proof.
  intros dir. split; [reflexivity|]. vm_compute. discriminate.
Qed.

(** ** Metadata locator *)

Lemma sibling_same (p : Path) : sibling p (name p) = p.
Proof. destruct p; reflexivity. Qed.

(** The direct candidates of an asset, in the order they are tried. *)
Lemma sidecar_patterns_order (p : Path) :
  sidecar_patterns p =
    [ path_str p +++ ".supplemental-metadata.json";
      path_str p +++ ".supplemental-metada.json";
      path_str p +++ ".s.json";
      path_str p +++ ".json" ].
Proof. reflexivity. Qed.

Section Locator.

Context {world : Type} (os : OS world).

Lemma first_existing_some w patterns found :
first_existing os w patterns = Ok (Some found) ->
exists before after,
  patterns = before ++ found :: after /\
  path_exists os w found = Ok true /\
  Forall (fun c => path_exists os w c = Ok false) before.
Proof.
induction patterns as [|c rest IH]; simpl; [discriminate|].
destruct (path_exists os w c) as [[|]|e] eqn:E; intros H.
- injection H as <-. exists [], rest. repeat split; auto.
- destruct (IH H) as (before & after & -> & Hf & Hb).
  exists (c :: before), after. repeat split; auto.
- discriminate.
Qed.

Lemma first_existing_none w patterns :
first_existing os w patterns = Ok None <->
Forall (fun c => path_exists os w c = Ok false) patterns.
Proof.
induction patterns as [|c rest IH]; simpl.
- split; auto.
- destruct (path_exists os w c) as [[|]|e] eqn:E; split; intros H.
  + discriminate.
  + inversion H; congruence.
  + constructor; [assumption | now apply IH].
  + inversion H; now apply IH.
  + discriminate.
  + inversion H; congruence.
Qed.

(** The search raises exactly when a probe raises before any candidate is
  found. *)
Lemma first_existing_raises w patterns e :
first_existing os w patterns = Exc e <->
exists before c after,
  patterns = before ++ c :: after /\
  path_exists os w c = Exc e /\
  Forall (fun c => path_exists os w c = Ok false) before.
Proof.
induction patterns as [|c rest IH]; simpl.
- split; [discriminate|]. intros (b & c & a & E & _). now destruct b.
- destruct (path_exists os w c) as [[|]|e'] eqn:E; split.
  + discriminate.
  + intros ([|c' b] & x & a & P & X & F); injection P as -> ->;
      [congruence | inversion F; congruence].
  + intros H. apply IH in H as (b & x & a & -> & X & F).
    exists (c :: b), x, a. repeat split; auto.
  + intros ([|c' b] & x & a & P & X & F); injection P as -> ->;
      [congruence|].
    apply IH. exists b, x, a. inversion F. repeat split; auto.
  + intros H. injection H as ->. exists [], c, rest. repeat split; auto.
  + intros ([|c' b] & x & a & P & X & F); injection P as -> ->;
      [congruence | inversion F; congruence].
Qed.

(** When no probe raises, the search returns. *)
Lemma first_existing_returns w patterns :
(forall c, In c patterns -> exists b, path_exists os w c = Ok b) ->
exists r, first_existing os w patterns = Ok r.
Proof.
induction patterns as [|c rest IH]; simpl; intros H; [eauto|].
destruct (H c (or_introl eq_refl)) as [[|] ->]; [eauto|].
apply IH. intros x Hx. apply H. now right.
Qed.

(** When no probe raises, the lookup returns. *)
Lemma find_json_metadata_returns w media_file :
(forall c, exists b, path_exists os w c = Ok b) ->
exists r, find_json_metadata os w media_file = Ok r.
Proof.
intros H. unfold find_json_metadata.
destruct (first_existing_returns w
            (sidecar_patterns (sibling media_file (name media_file)))
            (fun c _ => H c)) as [[j|] ->]; [eauto|].
destruct (_is_edited_photo media_file); [|eauto].
destruct (_get_original_name media_file) as [original|]; [|eauto].
destruct (negb (original =? "")%string); [|eauto].
apply first_existing_returns. intros c _. apply H.
Qed.

(** With a direct sidecar, the lookup is the search over the direct
  candidates alone. *)
Lemma find_json_direct w media_file found :
first_existing os w (sidecar_patterns media_file) = Ok (Some found) ->
find_json_metadata os w media_file = Ok (Some found).
Proof.
intros H. unfold find_json_metadata. rewrite sibling_same, H. reflexivity.
Qed.

(** Without a direct sidecar and without an edit marker in the name, the
  lookup finds nothing. *)
Lemma find_json_none w media_file :
first_existing os w (sidecar_patterns media_file) = Ok None ->
_is_edited_photo media_file = false ->
find_json_metadata os w media_file = Ok None.
Proof.
intros H He. unfold find_json_metadata. now rewrite sibling_same, H, He.
Qed.

End Locator.

(** C3, as the claim states it, fails: the lookup does not return for every
    asset.  For a name of 244 bytes the first candidate is longer than the
    255 bytes a file name may have, its existence check raises, and the
    lookup raises with it although the asset's ".json" sidecar exists. *)
Lemma find_json_metadata_raises_on_long_name :
  let media_file := mkPath "A" Sim.long_name in
  let w := Sim.mkWorld [ path_str media_file +++ ".json" ]
                       [] TimedOut TimedOut [] [] in
  path_exists Sim.os_name_max w (path_str media_file +++ ".json") = Ok true /\
  ~ (exists found, find_json_metadata Sim.os_name_max w media_file = Ok (Some found)) /\
  find_json_metadata Sim.os_name_max w media_file = Exc OSError.
Proof.
  intros media_file w.
  assert (E : find_json_metadata Sim.os_name_max w media_file = Exc OSError)
    by (vm_compute; reflexivity).
  split; [vm_compute; reflexivity|]. split; [|exact E].
  intros [found H]. rewrite E in H. discriminate.
Qed.

(** C3 (amended): the lookup tries ".supplemental-metadata.json",
    ".supplemental-metada.json", ".s.json" and ".json" on the asset's exact
    name, in that order.  When the existence checks up to the first
    candidate that exists return, the lookup returns that candidate,
    whatever the name says about edited variants; when a check raises
    before a candidate is found, the lookup raises what the check raised. *)
Theorem find_json_metadata_direct_precedence
  {world : Type} (os : OS world) (w : world) (media_file : Path) :
  let c1 := path_str media_file +++ ".supplemental-metadata.json" in
  let c2 := path_str media_file +++ ".supplemental-metada.json" in
  let c3 := path_str media_file +++ ".s.json" in
  let c4 := path_str media_file +++ ".json" in
  (path_exists os w c1 = Ok true ->
     find_json_metadata os w media_file = Ok (Some c1)) /\
  (path_exists os w c1 = Ok false -> path_exists os w c2 = Ok true ->
     find_json_metadata os w media_file = Ok (Some c2)) /\
  (path_exists os w c1 = Ok false -> path_exists os w c2 = Ok false ->
   path_exists os w c3 = Ok true ->
     find_json_metadata os w media_file = Ok (Some c3)) /\
  (path_exists os w c1 = Ok false -> path_exists os w c2 = Ok false ->
   path_exists os w c3 = Ok false -> path_exists os w c4 = Ok true ->
     find_json_metadata os w media_file = Ok (Some c4)) /\
  (forall e before c after,
     [c1; c2; c3; c4] = before ++ c :: after ->
     Forall (fun c => path_exists os w c = Ok false) before ->
     path_exists os w c = Exc e ->
     find_json_metadata os w media_file = Exc e).
Proof.
  intros c1 c2 c3 c4.
  repeat split; intros.
  1-4: apply find_json_direct;
    rewrite sidecar_patterns_order; simpl;
    fold c1 c2 c3 c4;
    repeat match goal with H : path_exists _ _ _ = _ |- _ => rewrite H; clear H end;
    reflexivity.
  unfold find_json_metadata. rewrite sibling_same.
  assert (R : first_existing os w (sidecar_patterns media_file) = Exc e).
  { apply first_existing_raises. exists before, c, after.
    rewrite sidecar_patterns_order. fold c1 c2 c3 c4. auto. }
  now rewrite R.
Qed.

(** The lookup at work: an edited variant that has a plain ".json" sidecar
    of its own gets that sidecar, not the original's. *)
Lemma find_json_metadata_direct_precedence_witness :
  let w := Sim.mkWorld [ "A/IMG_1-edited.jpg.json";
                         "A/IMG_1.jpg.supplemental-metadata.json" ]
                       [] TimedOut TimedOut [] [] in
  find_json_metadata Sim.os w (mkPath "A" "IMG_1-edited.jpg")
    = Ok (Some "A/IMG_1-edited.jpg.json").
Proof.
  intros w.
  apply (find_json_metadata_direct_precedence Sim.os w
           (mkPath "A" "IMG_1-edited.jpg")); reflexivity.
Defined.

(** ** Timestamp accuracy (verify_processing.py) *)

(** [datetime.timezone] raises: the class has no such attribute. *)
Lemma datetime_timezone_raises :
  Verifier.datetime_getattr "timezone" = Exc AttributeError.
Proof. reflexivity. Qed.

(** The [try] block never yields [True]: it returns [False] before the
    conversions or raises in them. *)
Lemma timestamp_check_constant
  (int_of : json -> res Z) (fromtimestamp : Z -> option string -> res Z)
  (strptime : json -> res Z) (split_dot_head : json -> res json)
  (json_data exif_data : json) (media_file : Path)
  (issues : list Verifier.issue) :
  Verifier.verify_timestamp_accuracy int_of fromtimestamp strptime
    split_dot_head json_data exif_data media_file issues
  = (Ok false, issues).
Proof.
  unfold Verifier.verify_timestamp_accuracy, Verifier.timestamp_body,
    try_except, bind, lift_res, ret, any_exception.
  destruct (Py.get json_data "photoTakenTime" (JObj [])) as [pt|]; [|reflexivity].
  destruct (Py.get pt "timestamp" JNull) as [ts|]; [|reflexivity].
  destruct (Py.get exif_data "DateTimeOriginal" JNull) as [ed|]; [|reflexivity].
  destruct (negb (Py.truthy ts) || negb (Py.truthy ed)); [reflexivity|].
  destruct (int_of ts); reflexivity.
Qed.

(** C9: the timestamp check answers [False] on every input and records no
    accuracy issue, whatever the two dates are: when both values are there,
    the evaluation of [datetime.timezone.utc] raises and the handler
    returns [False].  In particular the sidecar timestamp 1693584000
    (2023-09-01 16:00:00 UTC) against an asset that carries exactly that
    instant is rejected. *)
Theorem verify_timestamp_accuracy_always_false
  (int_of : json -> res Z) (fromtimestamp : Z -> option string -> res Z)
  (strptime : json -> res Z) (split_dot_head : json -> res json) :
  (forall json_data exif_data media_file issues,
     Verifier.verify_timestamp_accuracy int_of fromtimestamp strptime
       split_dot_head json_data exif_data media_file issues
     = (Ok false, issues)) /\
  fst (Verifier.verify_timestamp_accuracy int_of fromtimestamp strptime
         split_dot_head
         (JObj [("photoTakenTime", JObj [("timestamp", JStr "1693584000")])])
         (JObj [("DateTimeOriginal", JStr "2023:09:01 16:00:00")])
         (mkPath "Album" "photo1.jpg") [])
  = Ok false.
Proof.
  split; intros; now rewrite timestamp_check_constant.
Qed.
(** ** Verifier *)

(** On a well-formed sidecar the three checks compute the verification rule;
    a record of re-read fields that is not a dict makes a check raise, and
    the rule is false then. *)
Lemma check_restored_rule {world} (fields : list (string * json)) (exif_data : json)
  (s : state world) :
  Spec.sidecar_well_formed (JObj fields) = true ->
  match fst (check_restored (JObj fields) exif_data s) with
  | Ok b => b
  | Exc _ => false
  end = Spec.verified_rule (JObj fields) (Some exif_data).
Proof.
  unfold Spec.sidecar_well_formed, Spec.verified_rule, Spec.has_timestamp,
    Spec.latitude_nonzero, Spec.description_nonempty, Spec.embedded_present.
  unfold check_restored, get2, and_restored, modify_stats, lift_res, bind, ret.
  unfold Py.get.
  intros Hwf.
  destruct (Py.lookup fields "photoTakenTime") as [[| | | | |taken]|];
    try discriminate Hwf;
  [ destruct (Py.lookup taken "timestamp") as [[| | |t| |]|];
      try discriminate Hwf; [destruct t; [discriminate Hwf|]|] | ].
  all: destruct (Py.lookup fields "geoData") as [[| | | | |geo]|];
    try discriminate Hwf;
    [ destruct (Py.lookup geo "latitude") as [[| |q| | |]|];
      try discriminate Hwf | ].
  all: destruct (Py.lookup fields "description") as [[| | |d| |]|];
    try discriminate Hwf.
  all: clear Hwf; cbn [Py.truthy Py.ne_zero negb String.eqb].
  all: try destruct (negb (Qeq_bool q 0)).
  all: try destruct d.
  all: cbn [Py.truthy negb String.eqb andb orb fst].
  all: destruct exif_data as [| | | | |record]; try reflexivity.
  all: destruct (Py.lookup record "DateTimeOriginal") as [v1|];
       destruct (Py.lookup record "GPSLatitude") as [v2|];
       destruct (Py.lookup record "Description") as [v3|];
       try destruct (Py.truthy v1); try destruct (Py.truthy v2);
       try destruct (Py.truthy v3); reflexivity.
Qed.

(** The verdict carried by a result: an exception counts as [False]. *)
Definition verdict_of {A} (r : res bool * A) : bool :=
  match fst r with Ok b => b | Exc _ => false end.

(** [_verify_file_processing] always returns, with the verdict of its
    [try] block. *)
Lemma verify_file_processing_result {world} (os : OS world) (file_path : Path)
  (s : state world) :
  fst (_verify_file_processing os file_path s)
  = Ok (verdict_of (verify_body os file_path s)).
Proof.
  unfold _verify_file_processing, verdict_of, bind, try_except, any_exception,
    record_verdict, log, emit, ret.
  destruct (verify_body os file_path s) as [[b|e] s1]; reflexivity.
Qed.

Lemma verify_body_rule {world} (os : OS world) (s : state world)
  (file_path : Path) (json_file : string) (sidecar : json) :
  find_json_metadata os (st_world s) file_path = Ok (Some json_file) ->
  read_json os (st_world s) json_file = Some sidecar ->
  Spec.sidecar_well_formed sidecar = true ->
  verdict_of (verify_body os file_path s)
  = Spec.verified_rule sidecar (Spec.reread os (st_world s) file_path).
Proof.
  intros Hfind Hread Hwf.
  destruct sidecar as [| | | | |fields]; try discriminate Hwf.
  unfold verdict_of, verify_body, find_json, _load_json_safely, get_world,
    modify_stats, bind, ret.
  cbn [st_world fst snd]. rewrite Hfind. cbn [st_world]. rewrite Hread.
  unfold Spec.reread.
  destruct (Py.truthy (JObj fields)) eqn:Et; cbn [negb].
  2:{ destruct fields; [|discriminate Et].
      unfold Spec.verified_rule; cbn. reflexivity. }
  unfold run. cbn [st_world].
  destruct (subprocess_run os (st_world s) (verify_cmd file_path) (Some 10%Z))
    as [[rc out err| |] w']; cbn [fst completed_or_raise].
  2,3: unfold Spec.verified_rule, Spec.embedded_present;
       now rewrite !andb_false_r.
  destruct (rc =? 0)%Z; cbn [negb].
  2: unfold Spec.verified_rule, Spec.embedded_present; now rewrite !andb_false_r.
  unfold loads, lift_res, raise, ret.
  destruct (json_loads os out) as [parsed|].
  2: unfold Spec.verified_rule, Spec.embedded_present; now rewrite !andb_false_r.
  destruct (Py.item0 parsed) as [record|].
  2: unfold Spec.verified_rule, Spec.embedded_present; now rewrite !andb_false_r.
  now apply check_restored_rule.
Qed.


(** A field that is read back with an empty value does not count as
    restored: a description in the sidecar and an empty [Description] in
    the asset give [False]. *)
Lemma empty_field_is_not_restored :
  let sidecar := JObj [ ("description", JStr "At the lake") ] in
  let w := Sim.mkWorld [ path_str Sim.photo1; Sim.photo1_json ]
                       [ (Sim.photo1_json, sidecar) ]
                       (Completed 0 "" "") (Completed 0 "" "")
                       [ (path_str Sim.photo1, "[{Description: }]") ]
                       [] in
  let record := Spec.reread Sim.os w Sim.photo1 in
  Spec.sidecar_well_formed sidecar = true /\
  Spec.key_present record "Description" = true /\
  Spec.claimed_rule sidecar record = true /\
  fst (_verify_file_processing Sim.os Sim.photo1 (Sim.start w)) = Ok false.
Proof. vm_compute. repeat split. Qed.



(** A missing latitude is not a restorable value. *)
Lemma missing_latitude_is_absent (fields geo : list (string * json)) :
  Py.lookup fields "geoData" = Some (JObj geo) ->
  Py.lookup geo "latitude" = None ->
  Spec.latitude_nonzero (JObj fields) = false.
Proof. intros H1 H2. unfold Spec.latitude_nonzero. now rewrite H1, H2. Qed.

(** ** Frame reasoning for the state-and-error monad *)

Section Frames.

Context {S : Type} (R : S -> S -> Prop) `{!PreOrder R}.

(** Every run of [m] takes a state to an [R]-related one, whether it
  returns or raises. *)
Definition Respects {A} (m : SE S A) : Prop :=
forall s, R s (snd (m s)).

Lemma respects_ret {A} (a : A) : Respects (ret a).
Proof. intros s. reflexivity. Qed.

Lemma respects_raise {A} (e : exn) : Respects (@raise S A e).
Proof. intros s. reflexivity. Qed.

Lemma respects_lift_res {A} (r : res A) : Respects (lift_res r).
Proof. intros s. reflexivity. Qed.

Lemma respects_bind {A B} (m : SE S A) (k : A -> SE S B) :
Respects m -> (forall a, Respects (k a)) -> Respects (bind m k).
Proof.
intros Hm Hk s. unfold bind.
specialize (Hm s). destruct (m s) as [[a|e] s1]; cbn in *.
- etransitivity; [exact Hm | apply Hk].
- exact Hm.
Qed.

Lemma respects_try_except {A} (m : SE S A) handled (h : exn -> SE S A) :
Respects m -> (forall e, Respects (h e)) -> Respects (try_except m handled h).
Proof.
intros Hm Hh s. unfold try_except.
specialize (Hm s). destruct (m s) as [[a|e] s1]; cbn in *.
- exact Hm.
- destruct (handled e); [|exact Hm].
  etransitivity; [exact Hm | apply Hh].
Qed.

Lemma respects_for_each {A B} (l : list A) (acc : B) (body : A -> B -> SE S B) :
(forall x a, Respects (body x a)) -> Respects (for_each l acc body).
Proof.
intros Hb. revert acc.
induction l as [|x l IH]; intros acc; simpl.
- apply respects_ret.
- apply respects_bind; [apply Hb | intros a; apply IH].
Qed.

End Frames.

(** [f] has the same value after as before. *)
Definition Keeps {S X} (f : S -> X) : S -> S -> Prop :=
  fun s s' => f s' = f s.

#[local] Instance Keeps_PreOrder {S X} (f : S -> X) : PreOrder (Keeps f).
Proof.
  split.
  - intros s. reflexivity.
  - intros a b c Hab Hbc. unfold Keeps in *. congruence.
Qed.

(** The trace grows by events that all satisfy [ok]. *)
Definition Grows {world} (ok : event -> Prop) : state world -> state world -> Prop :=
  fun s s' => exists new, st_trace s' = st_trace s ++ new /\ Forall ok new.

#[local] Instance Grows_PreOrder {world} (ok : event -> Prop) :
  PreOrder (@Grows world ok).
Proof.
  split.
  - intros s. exists []. split; [now rewrite app_nil_r | constructor].
  - intros a b c (n1 & H1 & F1) (n2 & H2 & F2).
    exists (n1 ++ n2). split.
    + now rewrite H2, H1, app_assoc.
    + apply Forall_app. now split.
Qed.

(** Both relations at once. *)
Definition Both {S} (R1 R2 : S -> S -> Prop) : S -> S -> Prop :=
  fun s s' => R1 s s' /\ R2 s s'.

#[local] Instance Both_PreOrder {S} (R1 R2 : S -> S -> Prop)
  `{!PreOrder R1} `{!PreOrder R2} : PreOrder (Both R1 R2).
Proof.
  split.
  - intros s. split; reflexivity.
  - intros a b c [H1 H2] [H3 H4]. split; etransitivity; eassumption.
Qed.

(** The composite computations of the processor, opened on demand. *)
Create HintDb procs.
#[local] Hint Unfold update_status log _load_json_safely loads get2 and_restored
  run_checked check_restored verify_body _verify_file_processing
  process_one_individually _process_files_individually verify_one_in_batch
  _process_batch_with_verification simulate_one process_batch_number
  process_batches copy_under _copy_processed_files_to_output
  _handle_unmapped_files process_with_exiftool detect_file_type_mismatch
  fix_one fix_file_extensions pair_live_photo identify_live_photos
  generate_report scan_google_photos run_phases processing_failed
  process_scanned : procs.

(** Case analysis on an innermost scrutinee of the goal. *)
Ltac break_match :=
  match goal with
  | |- context [match ?x with _ => _ end] =>
      lazymatch x with
      | context [match _ with _ => _ end] => fail
      | _ => destruct x
      end
  end.

(** Descends through the structure of a computation; [prim] closes the
    primitive operations, composite ones are opened. *)
Ltac frame prim :=
  cbn beta iota delta [negb];
  lazymatch goal with
  | |- Respects _ (bind _ _) =>
      refine (respects_bind _ _ _ _ _); [frame prim | intro; frame prim]
  | |- Respects _ (try_except _ _ _) =>
      refine (respects_try_except _ _ _ _ _ _); [frame prim | intro; frame prim]
  | |- Respects _ (for_each _ _ _) =>
      refine (respects_for_each _ _ _ _ _); intros; frame prim
  | |- Respects _ (ret _) => refine (respects_ret _ _)
  | |- Respects _ (raise _) => refine (respects_raise _ _)
  | |- Respects _ (lift_res _) => refine (respects_lift_res _ _)
  | |- Respects _ (match ?x with _ => _ end) => destruct x; frame prim
  | |- _ => first [ prim | progress autounfold with procs; frame prim ]
  end.

(** A primitive that leaves the observed part of the state alone. *)
Ltac untouched :=
  first
    [ solve [intros ?; reflexivity]
    | solve [intros ?; cbv [Keeps run perform callbacks find_json snd];
             repeat break_match; reflexivity] ].

Section VerdictFrame.

Context {world : Type} (os : OS world).

Local Abbreviation KV := (Keeps (@st_verdicts world)).

Lemma kv_fix_file_extensions dry_run media_files :
Respects KV (fix_file_extensions os dry_run media_files).
Proof. frame untouched. Qed.

Lemma kv_identify_live_photos media_files :
Respects KV (identify_live_photos world os media_files).
Proof. frame untouched. Qed.

Lemma kv_generate_report dry_run output_dir :
Respects KV (generate_report os dry_run output_dir).
Proof. frame untouched. Qed.

Lemma kv_copy output_dir files :
Respects KV (_copy_processed_files_to_output world os output_dir files).
Proof. frame untouched. Qed.

Lemma kv_unmapped output_dir files :
Respects KV (_handle_unmapped_files world os output_dir files).
Proof. frame untouched. Qed.

Lemma kv_verify_body file_path :
Respects KV (verify_body os file_path).
Proof. frame untouched. Qed.

End VerdictFrame.

Section DryRun.

Context {world : Type} (os : OS world).

Hypothesis filetype_query_reads_only :
forall w p, snd (subprocess_run os w (filetype_cmd p) None) = w.

Local Abbreviation Dry := (Both (Grows Spec.dry_event) (Keeps (@st_world world))).

Ltac dry_prim :=
intros ?;
cbv [Both Grows Keeps emit callbacks modify_stats find_json get_world
     get_stats run snd];
first
  [ solve [split; [exists []; split; [now rewrite app_nil_r | constructor]
                  | reflexivity]]
  | solve [split; [eexists [_]; split; [reflexivity | repeat constructor]
                  | reflexivity]]
  | match goal with
    | |- context [subprocess_run os ?w (filetype_cmd ?p) None] =>
        pose proof (filetype_query_reads_only w p);
        destruct (subprocess_run os w (filetype_cmd p) None); cbn in *;
        split; [eexists [_]; split; [reflexivity|];
                repeat constructor; now exists p
               | assumption]
    end ].

Lemma dry_process_scanned output_dir all_media_files :
Respects Dry (process_scanned os true output_dir all_media_files).
Proof. frame dry_prim. Qed.

Lemma dry_generate_report output_dir :
Respects Dry (generate_report os true output_dir).
Proof. frame dry_prim. Qed.

Lemma dry_update_status : Respects Dry (update_status os).
Proof. frame dry_prim. Qed.

(** Phases 2 to 6 under the [try] of [process]. *)
Lemma dry_after_prepare output_dir working_dir :
Respects Dry
  (try_except
     (all_media_files <- scan_google_photos os working_dir ;;
      run_phases os true output_dir all_media_files)
     any_exception
     (fun _ => processing_failed os)).
Proof. frame dry_prim. Qed.

(** [determine_input_type] reads the world and nothing else. *)
Lemma determine_input_type_reads source (s s' : state world) :
st_world s' = st_world s ->
determine_input_type os source s'
= (fst (determine_input_type os source s), s').
Proof.
intros W.
unfold determine_input_type, bind, get_world, lift_res, ret, raise.
destruct source as [zips|input_path]; [reflexivity|].
cbn [fst snd]. rewrite W.
repeat break_match; reflexivity.
Qed.

(** A dry run of [process] on a directory that is recognised as already
  extracted. *)
Lemma dry_process_extracted output_dir use_system_unzip source input_path
(s : state world) :
fst (determine_input_type os source s) = Ok (ExtractedDirectory input_path) ->
Dry s (snd (process os true output_dir use_system_unzip source s)).
Proof.
intros Hd. unfold process. unfold bind at 1.
pose proof (dry_update_status s) as D0.
destruct (update_status os s) as [[[]|e] s0]; cbn [snd] in D0; [|exact D0].
etransitivity; [exact D0|].
assert (W : st_world s0 = st_world s) by apply D0.
pose proof (determine_input_type_reads source s s0 W) as E. rewrite Hd in E.
assert (Eq :
  try_except
    (working_dir <- prepare_input os output_dir use_system_unzip source ;;
     all_media_files <- scan_google_photos os working_dir ;;
     run_phases os true output_dir all_media_files)
    any_exception (fun _ => processing_failed os) s0
  = try_except
      (all_media_files <- scan_google_photos os (path_str input_path) ;;
       run_phases os true output_dir all_media_files)
      any_exception (fun _ => processing_failed os) s0).
{ unfold try_except, prepare_input. unfold bind at 1 2 6. rewrite E.
  reflexivity. }
rewrite Eq. apply dry_after_prepare.
Qed.

End DryRun.




(** ** Counting of processed assets *)

Lemma bind_ok_inv {S A B} (m : SE S A) (k : A -> SE S B) s b s' :
  bind m k s = (Ok b, s') ->
  exists a s1, m s = (Ok a, s1) /\ k a s1 = (Ok b, s').
Proof.
  unfold bind. destruct (m s) as [[a|e] s1]; intros H.
  - now exists a, s1.
  - discriminate.
Qed.

Lemma tally_app (v1 v2 : list (Path * bool)) :
  Spec.tally (v1 ++ v2) = Spec.tally v1 ++ Spec.tally v2.
Proof. unfold Spec.tally. now rewrite filter_app, map_app. Qed.

Lemma tally_length (vs : list (Path * bool)) :
  length (Spec.tally vs) = length (filter snd vs).
Proof. unfold Spec.tally. apply length_map. Qed.

(** [r] is [acc] with the positive verdicts of [vs] counted and appended
    to the processed list. *)
Definition Extends (acc : batch_result) (vs : list (Path * bool))
  (r : batch_result) : Prop :=
  fst (fst r) = fst (fst acc) + length (Spec.tally vs) /\
  snd r = snd acc ++ Spec.tally vs.

(** [m] returns from every state, having recorded verdicts [vs] that
    account for the change from [acc] to its result. *)
Definition Tallies {world} (acc : batch_result) (m : M world batch_result) : Prop :=
  forall s, exists r s' vs,
    m s = (Ok r, s') /\
    st_verdicts s' = st_verdicts s ++ vs /\
    Extends acc vs r.

(** The same of the runs of [m] that return. *)
Definition TalliesIf {world} (acc : batch_result) (m : M world batch_result)
  : Prop :=
  forall s r s',
    m s = (Ok r, s') ->
    exists vs, st_verdicts s' = st_verdicts s ++ vs /\ Extends acc vs r.

Lemma Extends_nil acc : Extends acc [] acc.
Proof.
  split; cbn; [now rewrite Nat.add_0_r | now rewrite app_nil_r].
Qed.

Lemma Extends_trans a b c v1 v2 :
  Extends a v1 b -> Extends b v2 c -> Extends a (v1 ++ v2) c.
Proof.
  intros [H1 H2] [H3 H4]. split.
  - rewrite H3, H1, tally_app, length_app. lia.
  - rewrite H4, H2, tally_app. now rewrite app_assoc.
Qed.

(** Closes the side goals of a [Tallies] step. *)
Ltac tally_done :=
  repeat split; cbn in *;
  first [ assumption | reflexivity | lia
        | now rewrite ?app_nil_r | now rewrite <- ?app_assoc ].

Section Accounting.

Context {world : Type} (os : OS world).

Lemma tallies_for_each {A} (body : A -> batch_result -> M world batch_result) :
(forall x acc, Tallies acc (body x acc)) ->
forall l acc, Tallies acc (for_each l acc body).
Proof.
intros Hb l. induction l as [|x l IH]; intros acc s; simpl.
- exists acc, s, []. split; [reflexivity|]. split;
    [now rewrite app_nil_r | apply Extends_nil].
- unfold bind.
  destruct (Hb x acc s) as (r1 & s1 & v1 & E1 & V1 & X1). rewrite E1.
  destruct (IH r1 s1) as (r2 & s2 & v2 & E2 & V2 & X2).
  exists r2, s2, (v1 ++ v2). split; [exact E2|]. split.
  + now rewrite V2, V1, app_assoc.
  + eapply Extends_trans; eassumption.
Qed.

(** Verification always returns and records its verdict. *)
Lemma verify_records file_path (s : state world) :
exists b s',
  _verify_file_processing os file_path s = (Ok b, s') /\
  st_verdicts s' = st_verdicts s ++ [(file_path, b)].
Proof.
pose proof (kv_verify_body os file_path s) as K. unfold Keeps in K.
unfold _verify_file_processing, bind, try_except, any_exception,
  record_verdict, log, emit, ret.
destruct (verify_body os file_path s) as [[b|e] s1]; cbn in *.
- eexists _, _. split; [reflexivity|]. cbn. now rewrite K.
- eexists _, _. split; [reflexivity|]. cbn. now rewrite K.
Qed.

(** The lookups of the verification loop return. *)
Hypothesis lookups_return :
forall w p, exists r, find_json_metadata os w p = Ok r.

Lemma tallies_verify_one file_path acc :
Tallies acc (verify_one_in_batch os file_path acc).
Proof.
intros s. destruct acc as [[n unm] proc].
unfold verify_one_in_batch, bind.
destruct (verify_records file_path s) as (b & s1 & E & V). rewrite E.
destruct (lookups_return (st_world s1) file_path) as [j Ej].
exists (if b then (S n, unm, proc ++ [file_path])
        else match j with
             | None => (n, unm ++ [file_path], proc)
             | Some _ => (n, unm, proc)
             end), s1, [(file_path, b)].
destruct b; unfold find_json, ret; cbn.
- tally_done.
- rewrite Ej. destruct j; tally_done.
Qed.

Lemma tallies_one_individually file_path acc :
Tallies acc (process_one_individually os file_path acc).
Proof.
intros s. destruct acc as [[n unm] proc].
unfold process_one_individually, try_except, any_exception, bind, find_json.
destruct (find_json_metadata os (st_world s) file_path) as [[json_file|]|e].
2,3: unfold log, emit, ret; cbn;
     eexists _, _, []; (split; [reflexivity|]); tally_done.
unfold run.
destruct (subprocess_run os (st_world s) (single_cmd json_file file_path)
            (Some 30%Z)) as [[rc out err| |] w']; cbn.
2,3: unfold log, emit, ret; cbn;
     eexists _, _, []; (split; [reflexivity|]); tally_done.
destruct (rc =? 0)%Z.
- match goal with
  | |- context [_verify_file_processing os file_path ?st] =>
      destruct (verify_records file_path st) as (b & s1 & E & V)
  end.
  rewrite E. cbn in V.
  destruct b; unfold ret; cbn.
  + eexists _, _, [(file_path, true)]. (split; [reflexivity|]). tally_done.
  + eexists _, _, [(file_path, false)]. (split; [reflexivity|]). tally_done.
- unfold log, emit, ret; cbn.
  eexists _, _, []. (split; [reflexivity|]). tally_done.
Qed.

Lemma tallies_individually batch batch_num :
Tallies (0, [], []) (_process_files_individually os batch batch_num).
Proof.
intros s. unfold _process_files_individually, bind.
destruct (tallies_for_each _ tallies_one_individually batch (0, [], []) s)
  as (r & s1 & vs & E & V & X).
unfold batch_result in *; rewrite E. destruct r as [[n unm] proc].
unfold log, emit, modify_stats, ret, bind.
destruct (0 <? n)%nat; cbn;
  eexists _, _, vs; (split; [reflexivity|]); cbn; split; assumption.
Qed.

Lemma tallies_batch batch batch_num :
Tallies (0, [], []) (_process_batch_with_verification os batch batch_num).
Proof.
intros s.
unfold _process_batch_with_verification, try_except, any_exception, bind, run.
destruct (subprocess_run os (st_world s) (batch_cmd batch) (Some 300%Z))
  as [[rc out err| |] w']; cbn.
- destruct (rc =? 0)%Z.
  + match goal with
    | |- context [for_each batch ?a ?f ?st] =>
        destruct (tallies_for_each _ tallies_verify_one batch a st)
          as (r & s1 & vs & E & V & X)
    end.
    unfold batch_result in *; rewrite E. unfold log, emit, ret; cbn.
    eexists _, _, vs. (split; [reflexivity|]); cbn; split; assumption.
  + unfold log, emit; cbn.
    match goal with
    | |- context [_process_files_individually os batch batch_num ?st] =>
        destruct (tallies_individually batch batch_num st)
          as (r & s1 & vs & E & V & X)
    end.
    unfold batch_result in *; rewrite E. eexists _, _, vs. (split; [reflexivity|]); split; assumption.
- unfold log, emit; cbn.
  match goal with
  | |- context [_process_files_individually os batch batch_num ?st] =>
      destruct (tallies_individually batch batch_num st)
        as (r & s1 & vs & E & V & X)
  end.
  unfold batch_result in *; rewrite E. eexists _, _, vs. (split; [reflexivity|]); split; assumption.
- unfold log, emit; cbn.
  match goal with
  | |- context [_process_files_individually os batch batch_num ?st] =>
      destruct (tallies_individually batch batch_num st)
        as (r & s1 & vs & E & V & X)
  end.
  unfold batch_result in *; rewrite E. eexists _, _, vs. (split; [reflexivity|]); split; assumption.
Qed.

End Accounting.

Section RunAccounting.

Context {world : Type} (os : OS world).

Local Abbreviation KV := (Keeps (@st_verdicts world)).
Local Abbreviation KS := (Keeps (@st_stats world)).
Local Abbreviation KT := (Keeps (fun s : state world => total_files (st_stats s))).

Lemma kv_update_status : Respects KV (update_status os).
Proof. frame untouched. Qed.

Lemma ks_update_status : Respects KS (update_status os).
Proof. frame untouched. Qed.

Lemma ks_generate_report dry_run output_dir :
  Respects KS (generate_report os dry_run output_dir).
Proof. frame untouched. Qed.

Lemma kt_fix_file_extensions dry_run media_files :
  Respects KT (fix_file_extensions os dry_run media_files).
Proof. frame untouched. Qed.

Lemma kt_identify_live_photos media_files :
  Respects KT (identify_live_photos world os media_files).
Proof. frame untouched. Qed.

Lemma kt_process_with_exiftool dry_run output_dir media_files batch_size :
  Respects KT (process_with_exiftool os dry_run output_dir media_files batch_size).
Proof. frame untouched. Qed.

Lemma tallies_if_for_each {A}
  (body : A -> batch_result -> M world batch_result) :
  (forall x acc, TalliesIf acc (body x acc)) ->
  forall l acc, TalliesIf acc (for_each l acc body).
Proof.
  intros Hb l. induction l as [|x l IH]; intros acc s r s' H; simpl in H.
  - unfold ret in H. injection H as <- <-. exists [].
    split; [now rewrite app_nil_r | apply Extends_nil].
  - apply bind_ok_inv in H as (r1 & s1 & E1 & H).
    destruct (Hb _ _ _ _ _ E1) as (v1 & V1 & X1).
    destruct (IH _ _ _ _ H) as (v2 & V2 & X2).
    exists (v1 ++ v2). split.
    + now rewrite V2, V1, app_assoc.
    + eapply Extends_trans; eassumption.
Qed.

(** The lookups of the verification loops return. *)
Hypothesis lookups_return :
  forall w p, exists r, find_json_metadata os w p = Ok r.

Lemma tallies_batch_number media_files batch_size batch_num acc :
  TalliesIf acc (process_batch_number world os false media_files batch_size
                   batch_num acc).
Proof.
  intros s r s' H. destruct acc as [[n unm] proc].
  unfold process_batch_number in H.
  apply bind_ok_inv in H as ([] & s0 & Eu & H).
  pose proof (kv_update_status s) as K. rewrite Eu in K. unfold Keeps in K.
  cbn in K.
  apply bind_ok_inv in H as (rb & s1 & Eb & H).
  match type of Eb with
  | _process_batch_with_verification os ?b ?k s0 = _ =>
      destruct (tallies_batch os lookups_return b k s0)
        as (r' & s1' & vs & E & V & [X1 X2])
  end.
  rewrite E in Eb. injection Eb as <- <-.
  destruct r' as [[bs bu] bp]. cbn in X1, X2. subst bs bp.
  unfold ret in H. injection H as <- <-.
  exists vs. split; [now rewrite V, K|]. split; reflexivity.
Qed.

(** The batch loop of a run that is not a dry run: the success count is
    the number of positive verdicts recorded in the loop, and the
    processed list is the list of the assets that got them. *)
Lemma process_batches_tallied media_files batch_size s r s' :
  process_batches os false media_files batch_size s = (Ok r, s') ->
  exists vs,
    st_verdicts s' = st_verdicts s ++ vs /\
    fst (fst r) = length (Spec.tally vs) /\
    snd r = Spec.tally vs.
Proof.
  unfold process_batches. destruct batch_size as [|k]; [discriminate|].
  intros H. apply bind_ok_inv in H as ([] & s0 & Eu & H).
  pose proof (kv_update_status s) as K. rewrite Eu in K. unfold Keeps in K.
  cbn in K.
  match type of H with
  | for_each ?l ?a ?f s0 = _ =>
      destruct (tallies_if_for_each f
                  (tallies_batch_number media_files (S k)) l a s0 _ _ H)
        as (vs & V & [X1 X2])
  end.
  exists vs. split; [now rewrite V, K|]. split; assumption.
Qed.

(** [process_with_exiftool], when it returns in a run that is not a dry
    run, has set the processed-files counter to the number of positive
    verdicts of the run. *)
Lemma process_with_exiftool_tallied output_dir media_files batch_size s b s' :
  process_with_exiftool os false output_dir media_files batch_size s
    = (Ok b, s') ->
  exists vs,
    st_verdicts s' = st_verdicts s ++ vs /\
    processed_files (st_stats s') = length (Spec.tally vs).
Proof.
  unfold process_with_exiftool. intros H.
  apply bind_ok_inv in H as ([[n unm] proc] & s1 & Eb & H).
  apply process_batches_tallied in Eb as (vs & V & X1 & X2). cbn in X1, X2.
  apply bind_ok_inv in H as ([] & s2 & E2 & H).
  apply bind_ok_inv in H as ([] & s3 & E3 & H).
  apply bind_ok_inv in H as ([] & s4 & E4 & H).
  unfold ret in H. injection H as _ <-.
  unfold modify_stats in E4. injection E4 as <-. cbn.
  exists vs. split; [|exact X1].
  assert (K2 : st_verdicts s2 = st_verdicts s1).
  { cbn [negb] in E2. destruct proc.
    - unfold ret in E2. now injection E2 as <-.
    - pose proof (kv_copy os output_dir (p :: proc) s1) as K.
      rewrite E2 in K. exact K. }
  assert (K3 : st_verdicts s3 = st_verdicts s2).
  { cbn [negb] in E3. destruct unm.
    - unfold ret in E3. now injection E3 as <-.
    - pose proof (kv_unmapped os output_dir (p :: unm) s2) as K.
      rewrite E3 in K. exact K. }
  now rewrite K3, K2.
Qed.

End RunAccounting.

(** In a dry run the counter does not count verified assets: with one
    discovered asset that has no sidecar, the run verifies nothing (the
    verdict history stays empty), yet the processed-files counter is 1 and
    the report gives a rate of 100 percent. *)
Lemma dry_run_counts_unverified_assets :
  let r := process_scanned Sim.os true "out" [Sim.dated] (Sim.start Sim.w_ok) in
  let report := fst (generate_report Sim.os true "out" (snd r)) in
  fst r = Ok true /\
  st_verdicts (snd r) = [] /\
  processed_files (st_stats (snd r)) = 1 /\
  processed_files (st_stats (snd r))
    <> length (filter snd (st_verdicts (snd r))) /\
  exists rep, report = Ok rep /\ Qeq (success_rate_percent rep) 100.
Proof.
  vm_compute. repeat split; try discriminate.
  eexists. split; reflexivity.
Qed.

(** In a run that is not a dry run, that completes, and on a file system
    whose existence checks do not raise, the processed-files counter is the
    number of assets that passed per-asset verification (the positive
    verdicts recorded during the run, so an asset whose batch succeeded but
    which failed verification is not counted), the total is the number of
    discovered media files, and the report's success rate is that count
    divided by the total, with 1 in place of a zero total, as a
    percentage.  (An existence check that raises in the verification loop
    of a batch makes the batch run again in individual mode, and its assets
    are then verified twice.) *)
Theorem processed_counter_counts_verified {world} (os : OS world)
  (output_dir : string) (all_media_files : list Path) (s s' : state world) :
  (forall w c, exists b, path_exists os w c = Ok b) ->
  process_scanned os false output_dir all_media_files s = (Ok true, s') ->
  exists vs,
    st_verdicts s' = st_verdicts s ++ vs /\
    processed_files (st_stats s') = length (filter snd vs) /\
    total_files (st_stats s') = length all_media_files /\
    forall report s'',
      generate_report os false output_dir s' = (Ok report, s'') ->
      processing_stats report = st_stats s' /\
      success_rate_percent report
        = (inject_Z (Z.of_nat (length (filter snd vs)))
           / inject_Z (Z.of_nat (Nat.max 1 (length all_media_files))) * 100)%Q.
Proof.
  intros Hp.
  assert (L : forall w p, exists r, find_json_metadata os w p = Ok r)
    by (intros w p; apply find_json_metadata_returns, Hp).
  unfold process_scanned, try_except, any_exception. intros H.
  match type of H with
  | (match ?body s with _ => _ end) = _ => destruct (body s) as [[b|e] s1] eqn:E
  end.
  2:{ unfold processing_failed, update_status, callbacks, bind, log, emit,
        ret in H. cbn in H.
      destruct (status_callbacks os _ _); discriminate H. }
  injection H as -> ->. unfold run_phases in E.
  apply bind_ok_inv in E as ([] & s1 & E1 & E).
  unfold modify_stats in E1. injection E1 as E1.
  assert (V1 : st_verdicts s1 = st_verdicts s) by now subst s1.
  assert (T1 : total_files (st_stats s1) = length all_media_files)
    by now subst s1.
  clear E1.
  apply bind_ok_inv in E as ([] & s2 & E2 & E).
  apply bind_ok_inv in E as (corrected & s3 & E3 & E).
  apply bind_ok_inv in E as (live & s4 & E4 & E).
  apply bind_ok_inv in E as (ok & s5 & E5 & E).
  apply bind_ok_inv in E as ([] & s6 & E6 & E).
  apply bind_ok_inv in E as (rep & s7 & E7 & E).
  apply bind_ok_inv in E as ([] & s8 & E8 & E).
  unfold ret in E. injection E as <-.
  (* verdicts *)
  pose proof (kv_update_status os s1) as V2. rewrite E2 in V2.
  pose proof (kv_fix_file_extensions os false all_media_files s2) as V3.
  rewrite E3 in V3.
  pose proof (kv_identify_live_photos os corrected s3) as V4. rewrite E4 in V4.
  destruct (process_with_exiftool_tallied os L _ _ _ _ _ _ E5)
    as (vs & V5 & P5).
  pose proof (kv_update_status os s5) as V6. rewrite E6 in V6.
  pose proof (kv_generate_report os false output_dir s6) as V7. rewrite E7 in V7.
  pose proof (kv_update_status os s7) as V8. rewrite E8 in V8.
  (* stats *)
  pose proof (ks_update_status os s1) as S2. rewrite E2 in S2.
  pose proof (kt_fix_file_extensions os false all_media_files s2) as T3.
  rewrite E3 in T3.
  pose proof (kt_identify_live_photos os corrected s3) as T4. rewrite E4 in T4.
  pose proof (kt_process_with_exiftool os false output_dir corrected 50 s4) as T5.
  rewrite E5 in T5.
  pose proof (ks_update_status os s5) as S6. rewrite E6 in S6.
  pose proof (ks_generate_report os false output_dir s6) as S7. rewrite E7 in S7.
  pose proof (ks_update_status os s7) as S8. rewrite E8 in S8.
  unfold Keeps in *. cbn [snd st_verdicts st_stats] in *.
  assert (Hstats : st_stats s8 = st_stats s5) by congruence.
  assert (Hproc : processed_files (st_stats s8) = length (filter snd vs)).
  { rewrite Hstats, P5. apply tally_length. }
  assert (Htotal : total_files (st_stats s8) = length all_media_files).
  { rewrite Hstats, T5, T4, T3, S2. exact T1. }
  exists vs. split; [congruence|]. split; [exact Hproc|]. split; [exact Htotal|].
  intros report s'' Hr.
  unfold generate_report, bind, get_stats in Hr. cbn [negb] in Hr.
  unfold perform in Hr.
  destruct (write_report os (st_world s8) _ _) as [[[]|e] w'];
    cbn in Hr; [|discriminate Hr].
  injection Hr as <- <-. cbn.
  split; [reflexivity|].
  unfold success_rate. now rewrite Hproc, Htotal.
Qed.

(** A complete run over the example tree: one asset verified out of two
    discovered. *)
Lemma processed_counter_counts_verified_witness :
  exists s' vs,
    process_scanned Sim.os false "out" [Sim.photo1; Sim.dated]
      (Sim.start Sim.w_ok) = (Ok true, s') /\
    st_verdicts s' = vs /\
    processed_files (st_stats s') = length (filter snd vs) /\
    total_files (st_stats s') = 2.
Proof.
  pose (r := process_scanned Sim.os false "out" [Sim.photo1; Sim.dated]
               (Sim.start Sim.w_ok)).
  assert (H : r = (Ok true, snd r)) by (vm_compute; reflexivity).
  assert (Hp : forall w c, exists b, path_exists Sim.os w c = Ok b)
    by (intros w c; eexists; reflexivity).
  destruct (processed_counter_counts_verified Sim.os "out"
              [Sim.photo1; Sim.dated] (Sim.start Sim.w_ok) (snd r) Hp H)
    as (vs & V & P & T & _).
  exists (snd r), vs.
  split; [exact H|]. split; [exact V|]. split; [exact P | exact T].
Defined.

(** ** The verification loop of a successful batch *)

(** The verdict on an asset as a function of the world alone. *)
Definition verified {world} (os : OS world) (w : world) (file_path : Path) : bool :=
  verdict_of (verify_body os file_path (mkState w initial_stats [] [])).

(** The lookup returns, and finds no sidecar for the asset. *)
Definition no_sidecar {world} (os : OS world) (w : world) (file_path : Path) : bool :=
  match find_json_metadata os w file_path with
  | Ok None => true
  | _ => false
  end.

Lemma check_restored_state_free {world} json_data exif_data (s1 s2 : state world) :
  fst (check_restored json_data exif_data s1)
  = fst (check_restored json_data exif_data s2).
Proof.
  unfold check_restored, get2, and_restored, modify_stats, lift_res, bind, ret.
  repeat break_match; reflexivity.
Qed.

Section SuccessfulBatch.

Context {world : Type} (os : OS world).

(** The verdict depends on the state through the world only. *)
Lemma verify_body_world_only file_path (s : state world) :
  verdict_of (verify_body os file_path s) = verified os (st_world s) file_path.
Proof.
  unfold verified, verdict_of, verify_body, find_json, _load_json_safely,
    get_world, modify_stats, run, loads, log, emit, lift_res, raise, bind, ret.
  repeat first
    [ progress cbn [st_world st_stats st_trace st_verdicts fst snd
                    completed_or_raise]
    | reflexivity
    | match goal with
      | |- match fst (check_restored ?j ?e ?a) with _ => _ end
           = match fst (check_restored ?j ?e ?b) with _ => _ end =>
          rewrite (check_restored_state_free j e a b); reflexivity
      | |- context [match ?x with _ => _ end] =>
          lazymatch x with
          | context [match _ with _ => _ end] => fail
          | context [check_restored] => fail
          | _ => destruct x
          end
      end ].
Qed.

Hypothesis field_query_reads_only :
  forall w p, snd (subprocess_run os w (verify_cmd p) (Some 10%Z)) = w.

Ltac world_prim :=
  first
    [ solve [intros ?; reflexivity]
    | solve [intros ?; cbv [Keeps run snd];
             match goal with
             | |- context [subprocess_run os ?w (verify_cmd ?p) (Some 10%Z)] =>
                 pose proof (field_query_reads_only w p);
                 destruct (subprocess_run os w (verify_cmd p) (Some 10%Z));
                 cbn in *; assumption
             end] ].

Lemma verify_keeps_world file_path :
  Respects (Keeps (@st_world world)) (_verify_file_processing os file_path).
Proof. frame world_prim. Qed.

(** One verification: the verdict of the current world, and the same world
    afterwards. *)
Lemma verify_step file_path (s : state world) :
  exists s',
    _verify_file_processing os file_path s
      = (Ok (verified os (st_world s) file_path), s') /\
    st_world s' = st_world s.
Proof.
  pose proof (verify_file_processing_result os file_path s) as R.
  pose proof (verify_keeps_world file_path s) as K. unfold Keeps in K.
  destruct (_verify_file_processing os file_path s) as [r s'].
  cbn [fst snd] in R, K. subst r. rewrite verify_body_world_only.
  now exists s'.
Qed.

(** One iteration of the loop, for an asset whose lookup returns. *)
Lemma verify_one_step file_path n unm proc (s : state world) :
  (exists r, find_json_metadata os (st_world s) file_path = Ok r) ->
  exists s',
    verify_one_in_batch os file_path (n, unm, proc) s
    = (Ok (if verified os (st_world s) file_path
           then (S n, unm, proc ++ [file_path])
           else if no_sidecar os (st_world s) file_path
                then (n, unm ++ [file_path], proc)
                else (n, unm, proc)), s') /\
    st_world s' = st_world s.
Proof.
  intros [r Hr]. unfold verify_one_in_batch, bind.
  destruct (verify_step file_path s) as (s1 & E & W). rewrite E.
  exists s1. split; [|exact W].
  destruct (verified os (st_world s) file_path); [reflexivity|].
  unfold find_json, no_sidecar, ret. rewrite W, Hr.
  destruct r; reflexivity.
Qed.

Lemma verify_loop batch :
  forall n unm proc (s : state world),
  (forall p, In p batch ->
             exists r, find_json_metadata os (st_world s) p = Ok r) ->
  exists s',
    for_each batch (n, unm, proc) (verify_one_in_batch os) s
    = (Ok (n + length (filter (verified os (st_world s)) batch),
           unm ++ filter (fun p => negb (verified os (st_world s) p)
                                   && no_sidecar os (st_world s) p) batch,
           proc ++ filter (verified os (st_world s)) batch), s') /\
    st_world s' = st_world s.
Proof.
  induction batch as [|p batch IH]; intros n unm proc s L.
  - exists s. cbn. unfold ret. now rewrite Nat.add_0_r, !app_nil_r.
  - cbn [for_each filter]. unfold bind.
    destruct (verify_one_step p n unm proc s (L p (or_introl eq_refl)))
      as (s1 & E & W).
    rewrite E.
    assert (L1 : forall q, In q batch ->
                   exists r, find_json_metadata os (st_world s1) q = Ok r)
      by (intros q Hq; rewrite W; apply L; now right).
    destruct (verified os (st_world s) p); cbn [negb andb].
    + destruct (IH (S n) unm (proc ++ [p]) s1 L1) as (s' & E' & W').
      rewrite E', W. exists s'. split; [|congruence].
      cbn [length]. rewrite <- app_assoc, Nat.add_succ_r. reflexivity.
    + destruct (no_sidecar os (st_world s) p).
      * destruct (IH n (unm ++ [p]) proc s1 L1) as (s' & E' & W').
        rewrite E', W. exists s'. split; [|congruence].
        now rewrite <- app_assoc.
      * destruct (IH n unm proc s1 L1) as (s' & E' & W').
        rewrite E', W. exists s'. split; [reflexivity | congruence].
Qed.


End SuccessfulBatch.


(** ** Fallback to individual processing *)

(** A tool invocation that writes: both write commands have [-api] as their
    first argument, the two queries have [-json]. *)
Definition is_write (e : event) : bool :=
  match e with
  | EvRun argv _ => String.eqb (nth 1 argv "") "-api"
  | _ => false
  end.

(** The write invocations of a trace, in order. *)
Definition write_runs (trace : list event) : list event :=
  filter is_write trace.

(** The log lines that follow a failed batch command: two warnings after a
    non-zero exit, one error after a timeout or a failure to run. *)
Definition fallback_logs (r : run_result) : list event :=
  match r with
  | Completed _ _ _ => [EvLog Warning; EvLog Warning]
  | _ => [EvLog Error]
  end.

(** The single-file invocation an asset gets in individual mode, if any. *)
Definition individual_run {world} (os : OS world) (w : world) (file_path : Path)
  : list event :=
  match find_json_metadata os w file_path with
  | Ok (Some json_file) => [EvRun (single_cmd json_file file_path) (Some 30%Z)]
  | _ => []
  end.

Lemma write_runs_app (t1 t2 : list event) :
  write_runs (t1 ++ t2) = write_runs t1 ++ write_runs t2.
Proof. apply filter_app. Qed.

Section Fallback.

Context {world : Type} (os : OS world).

(** When the batch command does not exit with status 0 (a
    non-zero status, a timeout, or a failure to run), the result of the
    batch is the result of individual processing, started in the state the
    failed command left. *)
Theorem failed_batch_falls_back batch batch_num (s : state world) r w1 :
  subprocess_run os (st_world s) (batch_cmd batch) (Some 300%Z) = (r, w1) ->
  (forall out err, r <> Completed 0 out err) ->
  _process_batch_with_verification os batch batch_num s
  = _process_files_individually os batch batch_num
      (mkState w1 (st_stats s)
         ((st_trace s ++ [EvRun (batch_cmd batch) (Some 300%Z)])
            ++ fallback_logs r)
         (st_verdicts s)).
Proof.
  intros Hrun Hfail.
  unfold _process_batch_with_verification, try_except, any_exception, bind, run.
  rewrite Hrun.
  destruct r as [rc out err| |]; cbn [completed_or_raise fallback_logs].
  - destruct (rc =? 0)%Z eqn:Erc.
    { apply Z.eqb_eq in Erc. subst rc. now destruct (Hfail out err). }
    unfold log, emit. cbn [st_world st_stats st_trace st_verdicts].
    rewrite <- app_assoc. cbn [app].
    match goal with
    | |- context [_process_files_individually os batch batch_num ?st] =>
        destruct (tallies_individually os batch batch_num st)
          as (r & s' & vs & E & _)
    end.
    rewrite <- !app_assoc in *. cbn [app] in *.
    unfold batch_result in *. now rewrite E.
  - unfold log, emit. cbn [st_world st_stats st_trace st_verdicts].
    reflexivity.
  - unfold log, emit. cbn [st_world st_stats st_trace st_verdicts].
    reflexivity.
Qed.

Hypothesis lookup_stable :
  forall w argv timeout p,
    find_json_metadata os (snd (subprocess_run os w argv timeout)) p
    = find_json_metadata os w p.

(** No write invocation is added and every sidecar lookup answers as
    before. *)
Definition Quiet (s s' : state world) : Prop :=
  write_runs (st_trace s') = write_runs (st_trace s) /\
  forall q, find_json_metadata os (st_world s') q
            = find_json_metadata os (st_world s) q.

#[local] Instance Quiet_PreOrder : PreOrder Quiet.
Proof.
  split.
  - intros s. split; reflexivity.
  - intros a b c [T1 L1] [T2 L2]. split; [congruence|].
    intros q. now rewrite L2, L1.
Qed.

Ltac quiet_prim :=
  intros ?; unfold Quiet;
  cbv [emit modify_stats record_verdict find_json get_world run snd];
  repeat match goal with
         | |- context [subprocess_run os ?w ?a ?t] =>
             pose proof (lookup_stable w a t);
             destruct (subprocess_run os w a t)
         end;
  cbn in *; rewrite ?write_runs_app; cbn; rewrite ?app_nil_r;
  split; [reflexivity | first [assumption | reflexivity]].

Lemma verify_is_quiet file_path :
  Respects Quiet (_verify_file_processing os file_path).
Proof. frame quiet_prim. Qed.

(** One asset in individual mode. *)
Lemma individual_step file_path n unm proc (s : state world) :
  exists r s',
    process_one_individually os file_path (n, unm, proc) s = (Ok r, s') /\
    snd (fst r) = unm ++ (if no_sidecar os (st_world s) file_path
                          then [file_path] else []) /\
    write_runs (st_trace s')
      = write_runs (st_trace s) ++ individual_run os (st_world s) file_path /\
    forall q, find_json_metadata os (st_world s') q
              = find_json_metadata os (st_world s) q.
Proof.
  unfold process_one_individually, try_except, any_exception, bind, find_json,
    individual_run, no_sidecar.
  destruct (find_json_metadata os (st_world s) file_path) as [[json_file|]|e].
  2,3: unfold log, emit, ret; cbn; eexists _, _; (split; [reflexivity|]);
       cbn; rewrite write_runs_app; cbn; repeat split;
       now rewrite ?app_nil_r.
  unfold run.
  pose proof (lookup_stable (st_world s) (single_cmd json_file file_path)
                (Some 30%Z)) as L.
  destruct (subprocess_run os (st_world s) (single_cmd json_file file_path)
              (Some 30%Z)) as [[rc out err| |] w']; cbn in L;
    cbn [completed_or_raise].
  2,3: unfold log, emit, ret; cbn; eexists _, _; (split; [reflexivity|]);
       cbn; rewrite !write_runs_app; cbn; rewrite ?app_nil_r;
       repeat split; assumption.
  destruct (rc =? 0)%Z.
  - match goal with
    | |- context [_verify_file_processing os file_path ?st] =>
        destruct (verify_records os file_path st) as (b & s1 & E & _);
        destruct (verify_is_quiet file_path st) as [Q1 Q2]
    end.
    rewrite E in *. cbn [snd st_trace st_world] in Q1, Q2.
    rewrite write_runs_app in Q1. cbn in Q1.
    destruct b; unfold ret; eexists _, _; (split; [reflexivity|]); cbn;
      rewrite ?app_nil_r; (split; [reflexivity|]);
      (split; [exact Q1 | intros q; now rewrite Q2, L]).
  - unfold log, emit, ret; cbn. eexists _, _. split; [reflexivity|].
    cbn. rewrite !write_runs_app. cbn. rewrite ?app_nil_r.
    repeat split; assumption.
Qed.

Lemma individual_loop batch :
  forall n unm proc (s : state world),
  exists r s',
    for_each batch (n, unm, proc) (process_one_individually os) s = (Ok r, s') /\
    snd (fst r) = unm ++ filter (no_sidecar os (st_world s)) batch /\
    write_runs (st_trace s')
      = write_runs (st_trace s)
        ++ flat_map (individual_run os (st_world s)) batch /\
    forall q, find_json_metadata os (st_world s') q
              = find_json_metadata os (st_world s) q.
Proof.
  induction batch as [|p batch IH]; intros n unm proc s.
  - exists (n, unm, proc), s. cbn. now rewrite !app_nil_r.
  - cbn [for_each filter flat_map]. unfold bind.
    destruct (individual_step p n unm proc s) as (r1 & s1 & E1 & U1 & T1 & L1).
    unfold batch_result in *. rewrite E1.
    destruct r1 as [[n1 unm1] proc1]. cbn in U1. subst unm1.
    destruct (IH n1 (unm ++ (if no_sidecar os (st_world s) p then [p] else []))
                 proc1 s1) as (r & s' & E & U & T & L).
    exists r, s'. split; [exact E|].
    assert (Hn : forall q, no_sidecar os (st_world s1) q
                           = no_sidecar os (st_world s) q).
    { intros q. unfold no_sidecar. now rewrite L1. }
    assert (Hi : forall q, individual_run os (st_world s1) q
                           = individual_run os (st_world s) q).
    { intros q. unfold individual_run. now rewrite L1. }
    split; [|split].
    + rewrite U, <- app_assoc. f_equal.
      rewrite (filter_ext _ _ Hn).
      now destruct (no_sidecar os (st_world s) p).
    + rewrite T, T1, <- app_assoc. f_equal. f_equal.
      now rewrite (flat_map_ext _ _ Hi).
    + intros q. now rewrite L, L1.
Qed.

(** In individual mode, with a tool that leaves the answers of
    the sidecar lookups as they are, the write invocations issued are
    exactly one single-file command with a 30 second timeout per asset of
    the batch whose lookup finds a sidecar, in batch order; an asset whose
    lookup finds none gets no invocation and is listed as unmapped; an
    asset whose lookup raises gets no invocation either and is not
    unmapped.  The call always returns. *)
Theorem individual_mode_invocations batch batch_num (s : state world) :
  exists count unmapped processed s',
    _process_files_individually os batch batch_num s
      = (Ok (count, unmapped, processed), s') /\
    unmapped = filter (no_sidecar os (st_world s)) batch /\
    write_runs (st_trace s')
      = write_runs (st_trace s)
        ++ flat_map (individual_run os (st_world s)) batch /\
    forall p,
      match find_json_metadata os (st_world s) p with
      | Ok (Some json_file) =>
          individual_run os (st_world s) p
            = [EvRun (single_cmd json_file p) (Some 30%Z)] /\
          ~ In p unmapped
      | Ok None =>
          individual_run os (st_world s) p = [] /\
          (In p batch -> In p unmapped)
      | Exc _ =>
          individual_run os (st_world s) p = [] /\ ~ In p unmapped
      end.
Proof.
  unfold _process_files_individually, bind.
  destruct (individual_loop batch 0 [] [] s)
    as ([[n unm] proc] & s1 & E & U & T & _).
  unfold batch_result in *. rewrite E. cbn in U.
  assert (C : forall p,
             match find_json_metadata os (st_world s) p with
             | Ok (Some json_file) =>
                 individual_run os (st_world s) p
                   = [EvRun (single_cmd json_file p) (Some 30%Z)] /\
                 ~ In p unm
             | Ok None =>
                 individual_run os (st_world s) p = [] /\
                 (In p batch -> In p unm)
             | Exc _ =>
                 individual_run os (st_world s) p = [] /\ ~ In p unm
             end).
  { intros p. subst unm. unfold individual_run.
    destruct (find_json_metadata os (st_world s) p) as [[j|]|e] eqn:F;
      (split; [reflexivity|]); rewrite filter_In; unfold no_sidecar;
      rewrite F; try (intros [_ H]; discriminate H).
    intros H. now split. }
  unfold log, emit, modify_stats, bind, ret.
  destruct (0 <? n)%nat; cbn;
    eexists _, _, _, _; (split; [reflexivity|]); cbn;
    rewrite ?write_runs_app; cbn; rewrite ?app_nil_r;
    (split; [assumption|]); split; assumption.
Qed.

End Fallback.

(** The fallback on the example tree: the batch command exits with status
    1 and the individual pass gives the batch result. *)
Lemma failed_batch_falls_back_witness :
  fst (_process_batch_with_verification Sim.os [Sim.photo1; Sim.dated] 1
         (Sim.start Sim.w_batch_fails))
  = Ok (1, [Sim.dated], [Sim.photo1]).
Proof.
  rewrite (failed_batch_falls_back Sim.os [Sim.photo1; Sim.dated] 1
             (Sim.start Sim.w_batch_fails) (Completed 1 "" "error")
             Sim.w_batch_fails eq_refl);
    [vm_compute; reflexivity | intros out err; discriminate].
Defined.

(** Individual mode on the example tree: one invocation, for [photo1];
    [dated] has no sidecar and is unmapped. *)
Lemma individual_mode_invocations_witness :
  exists count unmapped processed s',
    _process_files_individually Sim.os [Sim.photo1; Sim.dated] 1
      (Sim.start Sim.w_ok) = (Ok (count, unmapped, processed), s') /\
    unmapped = [Sim.dated] /\
    write_runs (st_trace s')
      = [EvRun (single_cmd Sim.photo1_json Sim.photo1) (Some 30%Z)].
Proof.
  assert (Hs : forall w argv timeout p,
             find_json_metadata Sim.os
               (snd (subprocess_run Sim.os w argv timeout)) p
             = find_json_metadata Sim.os w p).
  { intros w argv timeout p.
    unfold Sim.os, Sim.make_os, subprocess_run, Sim.run_tool.
    repeat break_match; reflexivity. }
  destruct (individual_mode_invocations Sim.os Hs [Sim.photo1; Sim.dated] 1
              (Sim.start Sim.w_ok))
    as (count & unmapped & processed & s' & E & U & T & _).
  exists count, unmapped, processed, s'.
  split; [exact E|]. split; [exact U | exact T].
Defined.

(** ** What a computation returns *)

Section Returns.

Context {S : Type}.

(** Every value [m] returns satisfies [P]. *)
Definition Returns {A} (P : A -> Prop) (m : SE S A) : Prop :=
  forall s a s', m s = (Ok a, s') -> P a.

Lemma returns_ret {A} (P : A -> Prop) a : P a -> Returns P (ret a).
Proof. intros H s a' s' E. unfold ret in E. now injection E as <- _. Qed.

Lemma returns_raise {A} (P : A -> Prop) e : Returns P (@raise S A e).
Proof. intros s a s' E. discriminate E. Qed.

Lemma returns_weaken {A} (P Q : A -> Prop) m :
  Returns P m -> (forall a, P a -> Q a) -> Returns Q m.
Proof. intros H HPQ s a s' E. eauto. Qed.

Lemma returns_any {A} (m : SE S A) : Returns (fun _ => True) m.
Proof. intros s a s' E. exact I. Qed.

Lemma returns_bind {A B} (Q : A -> Prop) (P : B -> Prop) m (k : A -> SE S B) :
  Returns Q m -> (forall a, Q a -> Returns P (k a)) -> Returns P (bind m k).
Proof.
  intros Hm Hk s b s' E.
  apply bind_ok_inv in E as (a & s1 & E1 & E2).
  eapply Hk; eauto.
Qed.

Lemma returns_try_except {A} (P : A -> Prop) m handled (h : exn -> SE S A) :
  Returns P m -> (forall e, Returns P (h e)) ->
  Returns P (try_except m handled h).
Proof.
  intros Hm Hh s a s' E. unfold try_except in E.
  destruct (m s) as [[a1|e] s1] eqn:Em.
  - injection E as <- <-. eauto.
  - destruct (handled e); [eapply Hh; eauto | discriminate E].
Qed.

(** A loop keeps an invariant indexed by the items seen so far. *)
Lemma returns_for_each {A B} (Inv : list A -> B -> Prop)
  (body : A -> B -> SE S B) :
  (forall seen x acc, Inv seen acc -> Returns (Inv (seen ++ [x])) (body x acc)) ->
  forall l seen acc,
    Inv seen acc -> Returns (Inv (seen ++ l)) (for_each l acc body).
Proof.
  intros Hb l. induction l as [|x l IH]; intros seen acc Hi; simpl.
  - rewrite app_nil_r. now apply returns_ret.
  - apply returns_bind with (Q := Inv (seen ++ [x])); [now apply Hb|].
    intros a Ha. specialize (IH (seen ++ [x]) a Ha).
    rewrite <- app_assoc in IH. exact IH.
Qed.

End Returns.

(** ** Bounds on a batch result *)

(** [r] is [acc] with [du] appended to the unmapped list, [dp] appended to
    the processed list and counted, both taken from [items], at most one
    list entry per item. *)
Definition Adds (items : list Path) (acc r : batch_result) : Prop :=
  exists du dp,
    r = (fst (fst acc) + length dp, snd (fst acc) ++ du, snd acc ++ dp) /\
    length du + length dp <= length items /\
    incl du items /\ incl dp items.

Lemma Adds_refl acc : Adds [] acc acc.
Proof.
  destruct acc as [[n unm] proc]. exists [], []. cbn.
  rewrite Nat.add_0_r, !app_nil_r. repeat split; auto using incl_nil_l.
Qed.

Lemma Adds_trans i1 i2 a b c :
  Adds i1 a b -> Adds i2 b c -> Adds (i1 ++ i2) a c.
Proof.
  intros (du1 & dp1 & -> & L1 & U1 & P1) (du2 & dp2 & -> & L2 & U2 & P2).
  exists (du1 ++ du2), (dp1 ++ dp2). cbn.
  rewrite !length_app, <- !app_assoc.
  repeat split.
  - f_equal. f_equal. lia.
  - lia.
  - apply incl_app; [apply incl_appl | apply incl_appr]; assumption.
  - apply incl_app; [apply incl_appl | apply incl_appr]; assumption.
Qed.

Lemma Adds_none x acc : Adds [x] acc acc.
Proof.
  destruct acc as [[n unm] proc]. exists [], []. cbn.
  rewrite Nat.add_0_r, !app_nil_r. repeat split; auto using incl_nil_l.
Qed.

Lemma Adds_unmapped x n unm proc : Adds [x] (n, unm, proc) (n, unm ++ [x], proc).
Proof.
  exists [x], []. cbn. rewrite Nat.add_0_r, app_nil_r.
  repeat split; auto using incl_nil_l, incl_refl.
Qed.

Lemma Adds_processed x n unm proc :
  Adds [x] (n, unm, proc) (S n, unm, proc ++ [x]).
Proof.
  exists [], [x]. cbn. rewrite app_nil_r, Nat.add_1_r.
  repeat split; auto using incl_nil_l, incl_refl.
Qed.

Lemma Adds_loop {S} (body : Path -> batch_result -> SE S batch_result) :
  (forall x acc, Returns (Adds [x] acc) (body x acc)) ->
  forall l acc, Returns (Adds l acc) (for_each l acc body).
Proof.
  intros Hb l acc.
  apply (returns_for_each (fun seen r => Adds seen acc r) body) with (seen := []).
  - intros seen x a Ha. eapply returns_weaken; [apply Hb|].
    intros r Hr. eapply Adds_trans; eassumption.
  - apply Adds_refl.
Qed.

Section BatchBounds.

Context {world : Type} (os : OS world).

Lemma adds_verify_one file_path acc :
  Returns (Adds [file_path] acc) (verify_one_in_batch os file_path acc).
Proof.
  destruct acc as [[n unm] proc]. unfold verify_one_in_batch.
  eapply returns_bind; [apply returns_any|]. intros ok _.
  destruct ok; [apply returns_ret, Adds_processed|].
  eapply returns_bind; [apply returns_any|]. intros [j|] _;
    apply returns_ret; [apply Adds_none | apply Adds_unmapped].
Qed.

Lemma adds_one_individually file_path acc :
  Returns (Adds [file_path] acc) (process_one_individually os file_path acc).
Proof.
  destruct acc as [[n unm] proc]. unfold process_one_individually.
  apply returns_try_except.
  - eapply returns_bind; [apply returns_any|]. intros [j|] _.
    + eapply returns_bind; [apply returns_any|]. intros [[rc out] err] _.
      destruct (rc =? 0)%Z.
      * eapply returns_bind; [apply returns_any|]. intros ok _.
        destruct ok; apply returns_ret; [apply Adds_processed | apply Adds_none].
      * eapply returns_bind; [apply returns_any|]. intros _ _.
        apply returns_ret, Adds_none.
    + eapply returns_bind; [apply returns_any|]. intros _ _.
      apply returns_ret, Adds_unmapped.
  - intros e. eapply returns_bind; [apply returns_any|]. intros _ _.
    apply returns_ret, Adds_none.
Qed.

Lemma adds_individually batch batch_num :
  Returns (Adds batch (0, [], []))
          (_process_files_individually os batch batch_num).
Proof.
  unfold _process_files_individually.
  eapply returns_bind; [apply Adds_loop, adds_one_individually|].
  intros [[n unm] proc] Hr.
  eapply returns_bind; [apply returns_any|]. intros _ _.
  now apply returns_ret.
Qed.

Lemma adds_batch batch batch_num :
  Returns (Adds batch (0, [], []))
          (_process_batch_with_verification os batch batch_num).
Proof.
  unfold _process_batch_with_verification.
  apply returns_try_except.
  - eapply returns_bind; [apply returns_any|]. intros [[rc out] err] _.
    destruct (rc =? 0)%Z.
    + eapply returns_bind; [apply Adds_loop, adds_verify_one|].
      intros r Hr. eapply returns_bind; [apply returns_any|]. intros _ _.
      now apply returns_ret.
    + eapply returns_bind; [apply returns_any|]. intros _ _.
      eapply returns_bind; [apply returns_any|]. intros _ _.
      apply adds_individually.
  - intros e. eapply returns_bind; [apply returns_any|]. intros _ _.
    apply adds_individually.
Qed.

(** Whatever the tool does, a batch call returns, and in its result the
    count is the length of the processed list, both lists hold assets of
    the batch only, and together they have no more entries than the batch
    has assets. *)
Theorem batch_result_within_batch batch batch_num (s : state world) :
  exists count unmapped processed s',
    _process_batch_with_verification os batch batch_num s
      = (Ok (count, unmapped, processed), s') /\
    count = length processed /\
    length unmapped + length processed <= length batch /\
    incl unmapped batch /\ incl processed batch.
Proof.
  assert (T : exists r s',
             _process_batch_with_verification os batch batch_num s
             = (Ok r, s')).
  { unfold _process_batch_with_verification, try_except, any_exception.
    match goal with
    | |- context [match ?m s with _ => _ end] =>
        destruct (m s) as [[r|e] s1]
    end; [eauto|].
    unfold bind, log, emit. cbn.
    match goal with
    | |- context [_process_files_individually os batch batch_num ?st] =>
        destruct (tallies_individually os batch batch_num st)
          as (r & s' & _ & E & _)
    end.
    unfold batch_result in *. eauto. }
  destruct T as ([[n unm] proc] & s' & E).
  destruct (adds_batch batch batch_num s _ _ E) as (du & dp & R & L & U & P).
  cbn in R. injection R as -> -> ->.
  exists (length dp), du, dp, s'. repeat split; assumption.
Qed.

End BatchBounds.

(** ** Batches *)

(** The slice [media_files[start_idx:end_idx]] of batch number [k]. *)
Definition batch_slice (media_files : list Path) (batch_size k : nat) : list Path :=
  let start_idx := k * batch_size in
  let end_idx := Nat.min (start_idx + batch_size) (length media_files) in
  firstn (end_idx - start_idx) (skipn start_idx media_files).

(** The number of batches. *)
Definition total_batches (media_files : list Path) (batch_size : nat) : nat :=
  (length media_files + batch_size - 1) / batch_size.

Lemma firstn_add_skipn {A} (a b : nat) (l : list A) :
  firstn (a + b) l = firstn a l ++ firstn b (skipn a l).
Proof.
  revert l. induction a as [|a IH]; intros l; [reflexivity|].
  destruct l as [|x l]; cbn.
  - now destruct b.
  - now rewrite IH.
Qed.

Lemma batch_slice_firstn media_files batch_size k :
  batch_slice media_files batch_size k
  = firstn batch_size (skipn (k * batch_size) media_files).
Proof.
  unfold batch_slice. cbv zeta.
  set (rest := skipn (k * batch_size) media_files).
  assert (Hlen : length rest = length media_files - k * batch_size)
    by apply length_skipn.
  destruct (Nat.le_gt_cases batch_size (length rest)) as [H|H].
  - f_equal. lia.
  - rewrite (firstn_all2 (n := batch_size)) by lia.
    apply firstn_all2. lia.
Qed.

Lemma batches_prefix media_files batch_size t :
  concat (map (batch_slice media_files batch_size) (seq 0 t))
  = firstn (t * batch_size) media_files.
Proof.
  induction t as [|t IH]; [reflexivity|].
  rewrite seq_S, map_app, concat_app, IH. cbn [map concat Nat.add].
  rewrite app_nil_r, batch_slice_firstn.
  replace (S t * batch_size) with (t * batch_size + batch_size) by lia.
  now rewrite firstn_add_skipn.
Qed.

Lemma batches_concat media_files batch_size :
  0 < batch_size ->
  concat (map (batch_slice media_files batch_size)
              (seq 0 (total_batches media_files batch_size)))
  = media_files.
Proof.
  intros Hpos. rewrite batches_prefix. apply firstn_all2.
  unfold total_batches.
  pose proof (Nat.div_mod_eq (length media_files + batch_size - 1) batch_size).
  pose proof (Nat.mod_upper_bound (length media_files + batch_size - 1)
                batch_size).
  nia.
Qed.

(** No batch is longer than the batch size. *)
Lemma batch_slice_length media_files batch_size k :
  length (batch_slice media_files batch_size k) <= batch_size.
Proof. rewrite batch_slice_firstn. apply firstn_le_length. Qed.

(** The batches of [process_with_exiftool], taken in order, are the list of
    media files: every file is in exactly one batch; and no batch is longer
    than the batch size. *)
Theorem batches_cover_media_files media_files batch_size :
  0 < batch_size ->
  concat (map (batch_slice media_files batch_size)
              (seq 0 (total_batches media_files batch_size)))
  = media_files /\
  forall k, length (batch_slice media_files batch_size k) <= batch_size.
Proof.
  intros Hpos. split.
  - now apply batches_concat.
  - intros k. apply batch_slice_length.
Qed.

(** Seven files in batches of three. *)
Lemma batches_cover_media_files_witness :
  let files := map (fun n => mkPath "A" n) ["a"; "b"; "c"; "d"; "e"; "f"; "g"] in
  concat (map (batch_slice files 3) (seq 0 (total_batches files 3))) = files.
Proof.
  intros files. apply (batches_cover_media_files files 3). lia.
Defined.

Section DryPrediction.

Context {world : Type} (os : OS world).

Lemma simulate_keeps_world file_path acc :
  Respects (Keeps (@st_world world)) (simulate_one world os file_path acc).
Proof. frame untouched. Qed.

Lemma update_status_keeps_world :
  Respects (Keeps (@st_world world)) (update_status os).
Proof. frame untouched. Qed.

(** One file of a dry run: it goes to the processed list when a sidecar is
    found and to the unmapped list otherwise. *)
Lemma simulate_step file_path unm proc (s : state world) r s' :
  simulate_one world os file_path (unm, proc) s = (Ok r, s') ->
  r = (unm ++ (if no_sidecar os (st_world s) file_path then [file_path] else []),
       proc ++ (if no_sidecar os (st_world s) file_path then [] else [file_path]))
  /\ st_world s' = st_world s.
Proof.
  intros E.
  pose proof (simulate_keeps_world file_path (unm, proc) s) as K.
  rewrite E in K. split; [|exact K]. clear K.
  revert E. unfold simulate_one, no_sidecar, find_json, bind.
  destruct (find_json_metadata os (st_world s) file_path) as [[j|]|e].
  - intros E. rewrite app_nil_r.
    repeat match type of E with
           | (let (_, _) := ?m ?st in _) = _ =>
               destruct (m st) as [[?|?] ?]; [|discriminate E]
           end.
    unfold ret in E. now injection E as <- _.
  - unfold ret. intros E. injection E as <- _. now rewrite app_nil_r.
  - discriminate.
Qed.

Lemma simulate_loop batch :
  forall unm proc (s : state world) r s',
    for_each batch (unm, proc) (simulate_one world os) s = (Ok r, s') ->
    r = (unm ++ filter (no_sidecar os (st_world s)) batch,
         proc ++ filter (fun p => negb (no_sidecar os (st_world s) p)) batch)
    /\ st_world s' = st_world s.
Proof.
  induction batch as [|p batch IH]; intros unm proc s r s' E.
  - cbn in E. unfold ret in E. injection E as <- <-.
    cbn. now rewrite !app_nil_r.
  - cbn [for_each] in E. apply bind_ok_inv in E as ([u1 p1] & s1 & E1 & E).
    apply simulate_step in E1 as [R1 W1]. injection R1 as -> ->.
    apply IH in E as [-> W]. rewrite W1 in *. split; [|exact W].
    cbn [filter]. destruct (no_sidecar os (st_world s) p); cbn [negb];
      now rewrite <- !app_assoc.
Qed.

(** One batch of a dry run. *)
Lemma dry_batch_number media_files batch_size k n unm proc (s : state world) r s' :
  process_batch_number world os true media_files batch_size k (n, unm, proc) s
    = (Ok r, s') ->
  let batch := batch_slice media_files batch_size k in
  r = (n + length batch,
       unm ++ filter (no_sidecar os (st_world s)) batch,
       proc ++ filter (fun p => negb (no_sidecar os (st_world s) p)) batch)
  /\ st_world s' = st_world s.
Proof.
  intros E. cbv zeta. unfold process_batch_number in E. cbv zeta in E.
  change (firstn (Nat.min (k * batch_size + batch_size) (length media_files)
                  - k * batch_size) (skipn (k * batch_size) media_files))
    with (batch_slice media_files batch_size k) in E.
  apply bind_ok_inv in E as ([] & s0 & E0 & E).
  assert (W0 : st_world s0 = st_world s).
  { pose proof (update_status_keeps_world s) as K. now rewrite E0 in K. }
  apply bind_ok_inv in E as ([] & s1 & E1 & E).
  assert (W1 : st_world s1 = st_world s0).
  { unfold log, emit in E1. injection E1 as <-. reflexivity. }
  apply bind_ok_inv in E as ([u p] & s2 & E2 & E).
  apply simulate_loop in E2 as [R W]. injection R as -> ->.
  unfold ret in E. injection E as <- <-.
  rewrite W1, W0 in *. now split.
Qed.

Lemma dry_batch_loop media_files batch_size ks :
  forall n unm proc (s : state world) r s',
    for_each ks (n, unm, proc)
      (process_batch_number world os true media_files batch_size) s = (Ok r, s') ->
    let seen := concat (map (batch_slice media_files batch_size) ks) in
    r = (n + length seen,
         unm ++ filter (no_sidecar os (st_world s)) seen,
         proc ++ filter (fun p => negb (no_sidecar os (st_world s) p)) seen)
    /\ st_world s' = st_world s.
Proof.
  induction ks as [|k ks IH]; intros n unm proc s r s' E seen; subst seen.
  - cbn in E. unfold ret in E. injection E as <- <-.
    cbn. now rewrite Nat.add_0_r, !app_nil_r.
  - cbn [for_each] in E. apply bind_ok_inv in E as ([[n1 u1] p1] & s1 & E1 & E).
    apply dry_batch_number in E1 as [R1 W1]. injection R1 as -> -> ->.
    apply IH in E as [-> W]. rewrite W1 in *. split; [|exact W].
    cbn [map concat]. rewrite !filter_app, length_app, <- !app_assoc.
    f_equal. f_equal. lia.
Qed.

(** The batch loop of a dry run. *)
Lemma dry_batches_result media_files batch_size (s : state world)
  count unmapped processed s' :
  process_batches os true media_files batch_size s
    = (Ok (count, unmapped, processed), s') ->
  count = length media_files /\
  unmapped = filter (no_sidecar os (st_world s)) media_files /\
  processed = filter (fun p => negb (no_sidecar os (st_world s) p)) media_files /\
  st_world s' = st_world s.
Proof.
  unfold process_batches. destruct batch_size as [|b]; [discriminate|].
  intros E. apply bind_ok_inv in E as ([] & s0 & E0 & E).
  assert (W0 : st_world s0 = st_world s).
  { pose proof (update_status_keeps_world s) as K. now rewrite E0 in K. }
  apply dry_batch_loop in E as [R W].
  fold (total_batches media_files (S b)) in R.
  rewrite batches_concat in R by lia.
  injection R as -> -> ->. rewrite W0 in *. repeat split. exact W.
Qed.

(** A dry run that completes predicts the outcome from the sidecars alone:
    the processed list is the files for which a sidecar is found, the
    unmapped list the files for which none is, and the success count is
    the number of all files, found or not. *)
Theorem dry_run_prediction media_files batch_size (s : state world)
  count unmapped processed s' :
  process_batches os true media_files batch_size s
    = (Ok (count, unmapped, processed), s') ->
  count = length media_files /\
  unmapped = filter (no_sidecar os (st_world s)) media_files /\
  processed = filter (fun p => negb (no_sidecar os (st_world s) p)) media_files /\
  st_world s' = st_world s.
Proof. apply dry_batches_result. Qed.

End DryPrediction.

(** The prediction on the example tree. *)
Lemma dry_run_prediction_witness :
  fst (process_batches Sim.os true [Sim.photo1; Sim.dated] 50
         (Sim.start Sim.w_ok))
  = Ok (2, [Sim.dated], [Sim.photo1]).
Proof.
  pose (r := process_batches Sim.os true [Sim.photo1; Sim.dated] 50
               (Sim.start Sim.w_ok)).
  assert (H : r = (Ok (2, [Sim.dated], [Sim.photo1]), snd r))
    by (vm_compute; reflexivity).
  destruct (dry_run_prediction Sim.os _ _ _ _ _ _ _ H) as (C & U & P & _).
  change (fst r = Ok (2, [Sim.dated], [Sim.photo1])).
  now rewrite H.
Defined.

(** ** The counter against the total *)

Section CounterBound.

Context {world : Type} (os : OS world).

Lemma adds_batch_number media_files batch_size k acc :
  Returns (Adds (batch_slice media_files batch_size k) acc)
          (process_batch_number world os false media_files batch_size k acc).
Proof.
  destruct acc as [[n unm] proc]. unfold process_batch_number. cbv zeta.
  change (firstn (Nat.min (k * batch_size + batch_size) (length media_files)
                  - k * batch_size) (skipn (k * batch_size) media_files))
    with (batch_slice media_files batch_size k).
  eapply returns_bind; [apply returns_any|]. intros _ _.
  eapply returns_bind; [apply adds_batch|].
  intros [[bn bu] bp] (du & dp & R & L & U & P).
  cbn in R. injection R as -> -> ->.
  apply returns_ret. exists du, dp. repeat split; assumption.
Qed.

Lemma adds_batches media_files batch_size :
  Returns (Adds media_files (0, [], []))
          (process_batches os false media_files batch_size).
Proof.
  unfold process_batches. destruct batch_size as [|b]; [apply returns_raise|].
  eapply returns_bind; [apply returns_any|]. intros _ _.
  fold (total_batches media_files (S b)).
  rewrite <- (batches_concat media_files (S b)) at 1 by lia.
  apply (returns_for_each
           (fun seen r =>
              Adds (concat (map (batch_slice media_files (S b)) seen))
                   (0, [], []) r)
           (process_batch_number world os false media_files (S b)))
    with (seen := []).
  - intros seen k acc Ha.
    eapply returns_weaken; [apply adds_batch_number|].
    intros r Hr. rewrite map_app, concat_app. cbn [map concat].
    rewrite app_nil_r. eapply Adds_trans; eassumption.
  - apply Adds_refl.
Qed.

(** [fix_file_extensions] returns one path per media file. *)
Lemma fix_file_extensions_length dry_run media_files :
  Returns (fun corrected => length corrected = length media_files)
          (fix_file_extensions os dry_run media_files).
Proof.
  unfold fix_file_extensions.
  eapply returns_bind; [apply returns_any|]. intros _ _.
  eapply returns_weaken.
  - apply (returns_for_each
             (fun (seen : list (nat * Path)) (acc : list Path) =>
                length acc = length seen)
             (fix_one world os dry_run)) with (seen := []); [|reflexivity].
    intros seen [i file_path] acc Ha. unfold fix_one.
    eapply returns_bind; [apply returns_any|]. intros _ _.
    eapply returns_bind; [apply returns_any|]. intros correct_type _.
    assert (Hlen : forall x, length (acc ++ [x]) = length (seen ++ [(i, file_path)])).
    { intros x. rewrite !length_app. cbn. lia. }
    destruct correct_type as [[|c t]|]; try (apply returns_ret, Hlen).
    eapply returns_bind; [apply returns_any|]. intros _ _.
    eapply returns_bind; [apply returns_any|]. intros _ _.
    eapply returns_bind; [apply returns_any|]. intros _ _.
    apply returns_ret, Hlen.
  - intros corrected H. cbn in H. rewrite H. unfold enumerate.
    rewrite length_combine, length_seq. apply Nat.min_id.
Qed.

(** What [process_with_exiftool] leaves in the counter when it returns. *)
Lemma process_with_exiftool_counter dry_run output_dir media_files batch_size
  (s : state world) b s' :
  process_with_exiftool os dry_run output_dir media_files batch_size s
    = (Ok b, s') ->
  processed_files (st_stats s') <= length media_files /\
  (dry_run = true -> processed_files (st_stats s') = length media_files).
Proof.
  unfold process_with_exiftool. intros H.
  apply bind_ok_inv in H as ([[n unm] proc] & s1 & Eb & H).
  apply bind_ok_inv in H as ([] & s2 & _ & H).
  apply bind_ok_inv in H as ([] & s3 & _ & H).
  apply bind_ok_inv in H as ([] & s4 & E4 & H).
  unfold ret in H. injection H as _ <-.
  unfold modify_stats in E4. injection E4 as <-. cbn.
  destruct dry_run.
  - apply dry_batches_result in Eb as (-> & _). split; [lia | reflexivity].
  - apply adds_batches in Eb as (du & dp & R & L & _). cbn in R.
    injection R as -> _ _. split; [lia | discriminate].
Qed.

(** In a run that completes, the processed-files counter never exceeds the
    total of discovered files, so the success rate of the report is at
    most 100 percent; in a dry run the two are equal, whatever the
    sidecars say. *)
Theorem processed_never_exceeds_total dry_run output_dir all_media_files
  (s s' : state world) :
  process_scanned os dry_run output_dir all_media_files s = (Ok true, s') ->
  total_files (st_stats s') = length all_media_files /\
  processed_files (st_stats s') <= total_files (st_stats s') /\
  (dry_run = true ->
   processed_files (st_stats s') = total_files (st_stats s')).
Proof.
  unfold process_scanned, try_except, any_exception. intros H.
  match type of H with
  | (match ?body s with _ => _ end) = _ => destruct (body s) as [[b|e] s9] eqn:E
  end.
  2:{ unfold processing_failed, update_status, callbacks, bind, log, emit,
        ret in H. cbn in H.
      destruct (status_callbacks os _ _); discriminate H. }
  injection H as -> ->. unfold run_phases in E.
  apply bind_ok_inv in E as ([] & s1 & E1 & E).
  unfold modify_stats in E1. injection E1 as E1.
  assert (T1 : total_files (st_stats s1) = length all_media_files)
    by now subst s1.
  clear E1.
  apply bind_ok_inv in E as ([] & s2 & E2 & E).
  apply bind_ok_inv in E as (corrected & s3 & E3 & E).
  apply bind_ok_inv in E as (live & s4 & E4 & E).
  apply bind_ok_inv in E as (ok & s5 & E5 & E).
  apply bind_ok_inv in E as ([] & s6 & E6 & E).
  apply bind_ok_inv in E as (rep & s7 & E7 & E).
  apply bind_ok_inv in E as ([] & s8 & E8 & E).
  unfold ret in E. injection E as <-.
  pose proof (fix_file_extensions_length _ _ _ _ _ E3) as Hlen. cbn in Hlen.
  pose proof (ks_update_status os s1) as S2. rewrite E2 in S2.
  pose proof (kt_fix_file_extensions os dry_run all_media_files s2) as T3.
  rewrite E3 in T3.
  pose proof (kt_identify_live_photos os corrected s3) as T4. rewrite E4 in T4.
  pose proof (kt_process_with_exiftool os dry_run output_dir corrected 50 s4) as T5.
  rewrite E5 in T5.
  pose proof (ks_update_status os s5) as S6. rewrite E6 in S6.
  pose proof (ks_generate_report os dry_run output_dir s6) as S7. rewrite E7 in S7.
  pose proof (ks_update_status os s7) as S8. rewrite E8 in S8.
  unfold Keeps in *. cbn [snd] in *.
  assert (Hstats : st_stats s8 = st_stats s5) by congruence.
  assert (Htotal : total_files (st_stats s8) = length all_media_files).
  { rewrite Hstats, T5, T4, T3, S2. exact T1. }
  apply process_with_exiftool_counter in E5 as [Hle Heq].
  rewrite Htotal, Hstats, <- Hlen.
  split; [reflexivity | split; assumption].
Qed.

End CounterBound.

(** A dry run over the example tree reports both files as processed. *)
Lemma processed_never_exceeds_total_witness :
  exists s',
    process_scanned Sim.os true "out" [Sim.photo1; Sim.dated]
      (Sim.start Sim.w_ok) = (Ok true, s') /\
    processed_files (st_stats s') = 2 /\ total_files (st_stats s') = 2.
Proof.
  pose (r := process_scanned Sim.os true "out" [Sim.photo1; Sim.dated]
               (Sim.start Sim.w_ok)).
  assert (H : r = (Ok true, snd r)) by (vm_compute; reflexivity).
  destruct (processed_never_exceeds_total Sim.os true "out"
              [Sim.photo1; Sim.dated] (Sim.start Sim.w_ok) (snd r) H)
    as (T & L & D).
  exists (snd r). split; [exact H|]. split; [|exact T].
  rewrite (D eq_refl). exact T.
Defined.

(** ** More on the pattern matcher *)

Lemma lower_app (a b : string) :
  PyStr.lower (a +++ b) = PyStr.lower a +++ PyStr.lower b.
Proof. induction a as [|c a IH]; cbn; congruence. Qed.

Lemma Contains_lower (p s : string) :
  PyStr.Contains p s -> PyStr.Contains (PyStr.lower p) (PyStr.lower s).
Proof.
  intros (pre & post & ->). exists (PyStr.lower pre), (PyStr.lower post).
  now rewrite !lower_app.
Qed.

Lemma strip_first_match_some patterns filename original :
  strip_first_match patterns filename = Some original ->
  exists pattern,
    In pattern patterns /\
    PyStr.contains pattern filename = true /\
    original = PyStr.remove_all pattern filename.
Proof.
  induction patterns as [|p rest IH]; cbn; [discriminate|].
  destruct (PyStr.contains p filename) eqn:E.
  - intros H. injection H as <-. exists p. auto.
  - intros H. destruct (IH H) as (q & Hin & Hc & Ho). exists q. auto.
Qed.

(** Each pattern stripped by [_get_original_name] is, in lower case, a
    marker of [_is_edited_photo]. *)
Lemma stripped_pattern_is_marker (media_file : Path) (original : string) :
  _get_original_name media_file = Some original ->
  _is_edited_photo media_file = true.
Proof.
  unfold _get_original_name. intros H.
  apply strip_first_match_some in H as (p & Hin & Hc & _).
  apply contains_spec, Contains_lower in Hc.
  unfold _is_edited_photo. apply existsb_exists.
  exists (PyStr.lower p). split; [|now apply contains_spec].
  cbn in Hin. destruct Hin as [<-|[<-|[<-|[<-|[]]]]]; cbn; auto.
Qed.

(** Whenever an original name is recovered, the file is classified as an
    edited variant: each pattern that [_get_original_name] strips is, in
    lower case, one of the markers of [_is_edited_photo]. *)
Theorem original_name_implies_edited (media_file : Path) (original : string) :
  _get_original_name media_file = Some original ->
  _is_edited_photo media_file = true.
Proof. apply stripped_pattern_is_marker. Qed.

Lemma original_name_implies_edited_witness :
  _is_edited_photo (mkPath "Album" "IMG_20180917_135645-EFFECTS-edited.jpg")
  = true.
Proof.
  apply (original_name_implies_edited
           (mkPath "Album" "IMG_20180917_135645-EFFECTS-edited.jpg")
           "IMG_20180917_135645.jpg").
  reflexivity.
Defined.

(** The converse fails: the test ignores case and the stripping does not,
    so an edited variant can have no recoverable original name. *)
Lemma edited_without_original_name :
  _is_edited_photo (mkPath "Album" "IMG_001-EDITED.jpg") = true /\
  _get_original_name (mkPath "Album" "IMG_001-EDITED.jpg") = None.
Proof. split; reflexivity. Qed.

Lemma remove_from_no_match (old s : string) :
  PyStr.contains old s = false -> PyStr.remove_from old 0 s = s.
Proof.
  induction s as [|c s IH]; [reflexivity|].
  cbn [PyStr.contains PyStr.remove_from]. intros H.
  apply orb_false_iff in H as [H1 H2].
  cbn [PyStr.startswith] in *. rewrite H1. now rewrite IH.
Qed.

(** [replace] leaves a string without the pattern as it is. *)
Lemma remove_all_no_match (old s : string) :
  PyStr.contains old s = false -> PyStr.remove_all old s = s.
Proof.
  destruct old as [|c old]; [reflexivity|]. apply remove_from_no_match.
Qed.

(** No character of [s] is [c]. *)
Fixpoint lacks (c : ascii) (s : string) : bool :=
  match s with
  | EmptyString => true
  | String d r => negb (Ascii.eqb d c) && lacks c r
  end.

Lemma contains_skip_prefix (c : ascii) (p base rest : string) :
  lacks c base = true ->
  PyStr.contains (String c p) (base +++ rest) = PyStr.contains (String c p) rest.
Proof.
  induction base as [|d base IH]; [reflexivity|].
  cbn [lacks String.append]. intros H. apply andb_true_iff in H as [Hd Hb].
  cbn [PyStr.contains PyStr.startswith].
  rewrite Ascii.eqb_sym. apply negb_true_iff in Hd. rewrite Hd. cbn.
  now apply IH.
Qed.

Lemma remove_from_skip_prefix (c : ascii) (p base rest : string) :
  lacks c base = true ->
  PyStr.remove_from (String c p) 0 (base +++ rest)
  = base +++ PyStr.remove_from (String c p) 0 rest.
Proof.
  induction base as [|d base IH]; [reflexivity|].
  cbn [lacks String.append]. intros H. apply andb_true_iff in H as [Hd Hb].
  cbn [PyStr.remove_from PyStr.startswith].
  rewrite Ascii.eqb_sym. apply negb_true_iff in Hd. rewrite Hd. cbn.
  now rewrite IH.
Qed.

Lemma remove_from_skipping (old t rest : string) :
  PyStr.remove_from old (String.length t) (t +++ rest)
  = PyStr.remove_from old 0 rest.
Proof.
  induction t as [|d t IH]; [reflexivity|]. cbn. exact IH.
Qed.

Lemma remove_from_leading (c : ascii) (p rest : string) :
  PyStr.remove_from (String c p) 0 (String c p +++ rest)
  = PyStr.remove_from (String c p) 0 rest.
Proof.
  cbn [String.append PyStr.remove_from].
  change (String c (p +++ rest)) with (String c p +++ rest).
  rewrite startswith_app. cbn [String.length Nat.pred].
  apply remove_from_skipping.
Qed.

(** Round trip for the plain edited name: when the part before the marker
    has no hyphen and the part after it does not contain "-edited", the
    name recovered from [base-edited.ext] is [base.ext]. *)
Theorem original_name_of_plain_edited (dir base rest : string) :
  lacks "-"%char base = true ->
  PyStr.contains "-edited" rest = false ->
  _get_original_name (mkPath dir (base +++ "-edited" +++ rest))
  = Some (base +++ rest).
Proof.
  intros Hbase Hrest.
  unfold _get_original_name, patterns_to_remove, strip_first_match. cbn [name].
  assert (H1 : PyStr.contains "-EFFECTS-edited" (base +++ "-edited" +++ rest)
               = false).
  { rewrite contains_skip_prefix by exact Hbase.
    cbn. destruct (PyStr.contains "-EFFECTS-edited" rest) eqn:E; [|reflexivity].
    exfalso. apply contains_spec in E.
    assert (C : PyStr.Contains "-edited" rest).
    { eapply Contains_trans; [|exact E]. exists "-EFFECTS", "". reflexivity. }
    apply contains_spec in C. congruence. }
  rewrite H1.
  assert (H2 : PyStr.contains "-edited" (base +++ "-edited" +++ rest) = true).
  { apply contains_complete. }
  rewrite H2. f_equal. unfold PyStr.remove_all.
  rewrite remove_from_skip_prefix by exact Hbase.
  rewrite remove_from_leading, remove_from_no_match by exact Hrest.
  reflexivity.
Qed.

Lemma original_name_of_plain_edited_witness :
  _get_original_name (mkPath "Album" "IMG_20180120_160121-edited.jpg")
  = Some "IMG_20180120_160121.jpg".
Proof.
  apply (original_name_of_plain_edited "Album" "IMG_20180120_160121" ".jpg");
    reflexivity.
Defined.

(** ** More on the metadata locator *)

Section LocatorFacts.

Context {world : Type} (os : OS world).

(** A sidecar returned by the lookup exists, and it is a candidate either
    of the asset's own name or of the original name recovered from it. *)
Theorem find_json_metadata_sound w media_file json_path :
  find_json_metadata os w media_file = Ok (Some json_path) ->
  path_exists os w json_path = Ok true /\
  (In json_path (sidecar_patterns media_file) \/
   exists original,
     _get_original_name media_file = Some original /\
     In json_path (sidecar_patterns (sibling media_file original))).
Proof.
  unfold find_json_metadata. rewrite sibling_same.
  destruct (first_existing os w (sidecar_patterns media_file))
    as [[j|]|e] eqn:E; [| |discriminate].
  - intros H. injection H as <-.
    apply first_existing_some in E as (before & after & Hp & He & _).
    split; [exact He|]. left. rewrite Hp. apply in_elt.
  - destruct (_is_edited_photo media_file); [|discriminate].
    destruct (_get_original_name media_file) as [original|]; [|discriminate].
    destruct (negb (original =? "")%string); [|discriminate].
    intros H. apply first_existing_some in H as (before & after & Hp & He & _).
    split; [exact He|]. right. exists original. split; [reflexivity|].
    rewrite Hp. apply in_elt.
Qed.

(** The inherited lookup: an asset without a sidecar of its own, whose name
    yields a non-empty original name, gets the first existing candidate of
    that original name in the same directory. *)
Theorem find_json_metadata_inherited w media_file original :
  first_existing os w (sidecar_patterns media_file) = Ok None ->
  _get_original_name media_file = Some original ->
  original <> "" ->
  find_json_metadata os w media_file
  = first_existing os w (sidecar_patterns (sibling media_file original)).
Proof.
  intros Hd Ho Hne. unfold find_json_metadata.
  rewrite sibling_same, Hd, (stripped_pattern_is_marker _ _ Ho), Ho.
  destruct (original =? "")%string eqn:E; [|reflexivity].
  apply String.eqb_eq in E. contradiction.
Qed.

(** Without a sidecar of its own and without a recoverable original name,
    an asset has no metadata source. *)
Lemma find_json_metadata_none w media_file :
  first_existing os w (sidecar_patterns media_file) = Ok None ->
  _get_original_name media_file = None ->
  find_json_metadata os w media_file = Ok None.
Proof.
  intros Hd Ho. unfold find_json_metadata. rewrite sibling_same, Hd, Ho.
  now destruct (_is_edited_photo media_file).
Qed.

End LocatorFacts.

(** The edited photo of the test suite inherits the sidecar of its
    original. *)
Lemma find_json_metadata_inherited_witness :
  let w := Sim.mkWorld [ "A/IMG_001.jpg.supplemental-metadata.json";
                         "A/IMG_001-edited.jpg" ]
                       [] TimedOut TimedOut [] [] in
  find_json_metadata Sim.os w (mkPath "A" "IMG_001-edited.jpg")
  = Ok (Some "A/IMG_001.jpg.supplemental-metadata.json").
Proof.
  intros w.
  rewrite (find_json_metadata_inherited Sim.os w
             (mkPath "A" "IMG_001-edited.jpg") "IMG_001.jpg");
    [reflexivity | reflexivity | reflexivity | discriminate].
Defined.

Lemma find_json_metadata_sound_witness :
  path_exists Sim.os Sim.w_ok Sim.photo1_json = Ok true.
Proof.
  apply (find_json_metadata_sound Sim.os Sim.w_ok Sim.photo1 Sim.photo1_json).
  reflexivity.
Defined.

(** ** Verification without a usable sidecar *)

Section VerifyEdges.

Context {world : Type} (os : OS world).

(** No sidecar: the verdict is [False], nothing is counted and the tool is
    not queried. *)
Theorem verify_without_sidecar file_path (s : state world) :
  find_json_metadata os (st_world s) file_path = Ok None ->
  _verify_file_processing os file_path s
  = (Ok false,
     mkState (st_world s) (st_stats s) (st_trace s)
             (st_verdicts s ++ [(file_path, false)])).
Proof.
  intros H.
  unfold _verify_file_processing, verify_body, try_except, bind, find_json,
    record_verdict, ret.
  now rewrite H.
Qed.

(** An unreadable or malformed sidecar, or one that loads as an empty
    value: the match is counted, the verdict is [False] and the tool is
    not queried (a warning is logged when the file does not load). *)
Theorem verify_with_empty_sidecar file_path json_file (s : state world) :
  find_json_metadata os (st_world s) file_path = Ok (Some json_file) ->
  match read_json os (st_world s) json_file with
  | Some json_data => Py.truthy json_data = false
  | None => True
  end ->
  _verify_file_processing os file_path s
  = (Ok false,
     mkState (st_world s) (incr_json_matched (st_stats s))
             (st_trace s ++ match read_json os (st_world s) json_file with
                            | Some _ => []
                            | None => [EvLog Warning]
                            end)
             (st_verdicts s ++ [(file_path, false)])).
Proof.
  intros Hf Hr.
  unfold _verify_file_processing, verify_body, find_json, _load_json_safely,
    get_world, modify_stats, log, emit, record_verdict, try_except, bind, ret.
  rewrite Hf. cbn [st_world].
  destruct (read_json os (st_world s) json_file) as [json_data|].
  - rewrite Hr. cbn. now rewrite app_nil_r.
  - reflexivity.
Qed.

(** A query that fails (non-zero status, timeout, or the tool not running)
    gives the verdict [False]. *)
Theorem verify_when_query_fails file_path (s : state world) r w' :
  subprocess_run os (st_world s) (verify_cmd file_path) (Some 10%Z) = (r, w') ->
  (forall out err, r <> Completed 0 out err) ->
  fst (_verify_file_processing os file_path s) = Ok false.
Proof.
  intros Hrun Hfail. rewrite verify_file_processing_result. f_equal.
  unfold verdict_of, verify_body, find_json, _load_json_safely, get_world,
    modify_stats, log, emit, run, bind, ret.
  destruct (find_json_metadata os (st_world s) file_path) as [[j|]|e];
    [|reflexivity..].
  cbn [st_world].
  destruct (read_json os (st_world s) j) as [d|]; cbn [st_world fst snd].
  - destruct (negb (Py.truthy d)); [reflexivity|].
    cbn [st_world st_stats st_trace st_verdicts fst snd].
    rewrite Hrun. destruct r as [rc out err| |]; cbn; try reflexivity.
    destruct (rc =? 0)%Z eqn:E; [|reflexivity].
    apply Z.eqb_eq in E. subst rc. now destruct (Hfail out err).
  - reflexivity.
Qed.

End VerifyEdges.

Lemma verify_without_sidecar_witness :
  fst (_verify_file_processing Sim.os Sim.dated (Sim.start Sim.w_ok)) = Ok false.
Proof.
  now rewrite (verify_without_sidecar Sim.os Sim.dated (Sim.start Sim.w_ok)
                 eq_refl).
Defined.

Lemma verify_with_empty_sidecar_witness :
  let w := Sim.mkWorld [ Sim.photo1_json ] [] TimedOut TimedOut [] [] in
  fst (_verify_file_processing Sim.os Sim.photo1 (Sim.start w)) = Ok false.
Proof.
  intros w.
  now rewrite (verify_with_empty_sidecar Sim.os Sim.photo1 Sim.photo1_json
                 (Sim.start w) eq_refl I).
Defined.

Lemma verify_when_query_fails_witness :
  let os := mkOS Sim.world (path_exists Sim.os) (read_json Sim.os)
                 (json_loads Sim.os) (fun w _ _ => (TimedOut, w))
                 (shutil_move Sim.os) (reroot Sim.os) (mkdir Sim.os)
                 (shutil_copy2 Sim.os) (write_report Sim.os)
                 (status_callbacks Sim.os) (is_file Sim.os) (is_dir Sim.os)
                 (glob_takeout_zips Sim.os) (walk_google_photos Sim.os)
                 (rglob_is_file Sim.os) (which_unzip Sim.os)
                 (zip_infolist Sim.os) (zip_extract Sim.os) in
  fst (_verify_file_processing os Sim.photo1 (Sim.start Sim.w_ok)) = Ok false.
Proof.
  intros os.
  apply (verify_when_query_fails os Sim.photo1 (Sim.start Sim.w_ok)
           TimedOut Sim.w_ok eq_refl).
  intros out err. discriminate.
Defined.

(** ** Extension fixing *)

(** The (extension, real type) pairs for which an extension is corrected. *)
Definition correctable (extension new_type : string) : Prop :=
  (extension = ".jpg" /\ (new_type = "mp4" \/ new_type = "png")) \/
  (extension = ".png" /\ new_type = "jpeg") \/
  (extension = ".heic" /\ new_type = "mov").

Lemma mem_str_in (x : string) (l : list string) :
  mem_str x l = true -> In x l.
Proof.
  unfold mem_str. rewrite existsb_exists. intros (y & Hin & E).
  apply String.eqb_eq in E. now subst.
Qed.

Lemma assoc_str_in {A} (key : string) (table : list (string * A)) (v : A) :
  assoc_str key table = Some v -> In (key, v) table.
Proof.
  induction table as [|[k x] rest IH]; cbn; [discriminate|].
  destruct (String.eqb k key) eqn:E.
  - intros H. injection H as <-. apply String.eqb_eq in E. subst. now left.
  - intros H. right. now apply IH.
Qed.

Section Extensions.

Context {world : Type} (os : OS world).

Lemma detect_answer_in_table file_path :
  Returns (fun answer =>
             match answer with
             | None => True
             | Some new_type =>
                 correctable (PyStr.lower (suffix file_path)) new_type
             end)
          (detect_file_type_mismatch world os file_path).
Proof.
  unfold detect_file_type_mismatch.
  apply returns_try_except; [|intros e; now apply returns_ret].
  eapply returns_bind; [apply returns_any|]. intros [[rc out] err] _.
  eapply returns_bind; [apply returns_any|]. intros parsed _.
  eapply returns_bind; [apply returns_any|]. intros metadata _.
  eapply returns_bind; [apply returns_any|]. intros file_type _.
  eapply returns_bind; [apply returns_any|]. intros actual_type _.
  destruct (assoc_str (PyStr.lower (suffix file_path)) mismatches)
    as [types|] eqn:Et; [|now apply returns_ret].
  destruct (mem_str actual_type types) eqn:Em; [|now apply returns_ret].
  apply returns_ret.
  apply assoc_str_in in Et. apply mem_str_in in Em.
  unfold correctable. cbn in Et.
  destruct Et as [Et|[Et|[Et|[]]]]; injection Et as <- <-; cbn in Em;
    intuition (subst; cbn; auto).
Qed.

(** [detect_file_type_mismatch] only ever answers with a type from the
    mismatch table, in lower case, and only for a file whose lower-cased
    extension is the table's key for it: [.jpg] that is really MP4 or PNG,
    [.png] that is really JPEG, [.heic] that is really MOV. *)
Theorem detect_file_type_mismatch_table file_path (s s' : state world) new_type :
  detect_file_type_mismatch world os file_path s = (Ok (Some new_type), s') ->
  correctable (PyStr.lower (suffix file_path)) new_type.
Proof.
  intros E. exact (detect_answer_in_table file_path s (Some new_type) s' E).
Qed.

(** The relation between a media file and its entry in the corrected list:
    the same path, or the same path with its suffix replaced by the
    detected type. *)
Definition corrected_from (file_path corrected : Path) : Prop :=
  corrected = file_path \/
  exists new_type,
    correctable (PyStr.lower (suffix file_path)) new_type /\
    corrected = with_suffix file_path ("." +++ new_type).

Lemma Forall2_snoc {A B} (R : A -> B -> Prop) l1 l2 a b :
  Forall2 R l1 l2 -> R a b -> Forall2 R (l1 ++ [a]) (l2 ++ [b]).
Proof. intros H1 H2. apply Forall2_app; auto. Qed.

Lemma map_snd_enumerate {A} (l : list A) : map snd (enumerate l) = l.
Proof.
  unfold enumerate. generalize 0.
  induction l as [|x l IH]; intros n; cbn; [reflexivity|].
  now rewrite IH.
Qed.

Lemma fix_entries dry_run media_files :
  Returns (fun corrected_files =>
             Forall2 corrected_from media_files corrected_files)
          (fix_file_extensions os dry_run media_files).
Proof.
  unfold fix_file_extensions.
  eapply returns_bind; [apply returns_any|]. intros _ _.
  eapply returns_weaken.
  - apply (returns_for_each
             (fun (seen : list (nat * Path)) (acc : list Path) =>
                Forall2 corrected_from (map snd seen) acc)
             (fix_one world os dry_run)) with (seen := []); [|constructor].
    intros seen [i file_path] acc Ha. unfold fix_one.
    eapply returns_bind; [apply returns_any|]. intros _ _.
    eapply returns_bind; [apply detect_answer_in_table|].
    intros correct_type Hc. rewrite map_app. cbn [map snd].
    destruct correct_type as [[|c t]|].
    + apply returns_ret, Forall2_snoc; [exact Ha | now left].
    + eapply returns_bind; [apply returns_any|]. intros _ _.
      eapply returns_bind; [apply returns_any|]. intros _ _.
      eapply returns_bind; [apply returns_any|]. intros _ _.
      apply returns_ret, Forall2_snoc; [exact Ha|].
      right. exists (String c t). now split.
    + apply returns_ret, Forall2_snoc; [exact Ha | now left].
  - intros corrected H. cbn [app] in H. now rewrite map_snd_enumerate in H.
Qed.

(** [fix_file_extensions] returns, entry by entry, the media files it was
    given: each entry is its file unchanged, or its file with the suffix
    replaced according to the mismatch table; in particular the list keeps
    its length and order.  This holds in a dry run too, where the renamed
    path is returned although no file was renamed. *)
Theorem fix_file_extensions_entries dry_run media_files (s s' : state world)
  corrected_files :
  fix_file_extensions os dry_run media_files s = (Ok corrected_files, s') ->
  Forall2 corrected_from media_files corrected_files /\
  length corrected_files = length media_files.
Proof.
  intros E.
  pose proof (fix_entries dry_run media_files s corrected_files s' E) as H.
  split; [exact H|]. symmetry. eapply Forall2_length; eassumption.
Qed.

End Extensions.

(** A [.jpg] that the tool reports as MP4 becomes [.mp4]; the other file is
    kept. *)
Lemma fix_file_extensions_entries_witness :
  let w := Sim.mkWorld [] [] TimedOut TimedOut []
             [ ("A/clip.jpg", "[{FileType: MP4}]");
               ("A/photo.jpg", "[{FileType: JPEG}]") ] in
  fst (fix_file_extensions Sim.os false
         [mkPath "A" "clip.jpg"; mkPath "A" "photo.jpg"] (Sim.start w))
  = Ok [mkPath "A" "clip.mp4"; mkPath "A" "photo.jpg"] /\
  Forall2 corrected_from [mkPath "A" "clip.jpg"; mkPath "A" "photo.jpg"]
                         [mkPath "A" "clip.mp4"; mkPath "A" "photo.jpg"].
Proof.
  intros w. split; [vm_compute; reflexivity|].
  apply (fix_file_extensions_entries Sim.os false
           [mkPath "A" "clip.jpg"; mkPath "A" "photo.jpg"] (Sim.start w)
           (snd (fix_file_extensions Sim.os false
                   [mkPath "A" "clip.jpg"; mkPath "A" "photo.jpg"]
                   (Sim.start w)))).
  vm_compute. reflexivity.
Defined.

Lemma detect_file_type_mismatch_table_witness :
  let w := Sim.mkWorld [] [] TimedOut TimedOut []
             [ ("A/clip.jpg", "[{FileType: MP4}]") ] in
  correctable ".jpg" "mp4".
Proof.
  intros w.
  apply (detect_file_type_mismatch_table Sim.os (mkPath "A" "clip.jpg")
           (Sim.start w)
           (snd (detect_file_type_mismatch Sim.world Sim.os
                   (mkPath "A" "clip.jpg") (Sim.start w)))).
  vm_compute. reflexivity.
Defined.

(** ** Failures that stay local *)

Section Totality.

Context {S : Type}.

(** [m] returns from every state. *)
Definition Total {A} (m : SE S A) : Prop :=
  forall s, exists a s', m s = (Ok a, s').

Lemma total_ret {A} (a : A) : Total (@ret S A a).
Proof. intros s. now exists a, s. Qed.

Lemma total_bind {A B} (m : SE S A) (k : A -> SE S B) :
  Total m -> (forall a, Total (k a)) -> Total (bind m k).
Proof.
  intros Hm Hk s. unfold bind.
  destruct (Hm s) as (a & s1 & E). rewrite E. apply Hk.
Qed.

Lemma total_try_any {A} (m : SE S A) (h : exn -> SE S A) :
  (forall e, Total (h e)) -> Total (try_except m any_exception h).
Proof.
  intros Hh s. unfold try_except, any_exception.
  destruct (m s) as [[a|e] s1]; [now exists a, s1 | apply Hh].
Qed.

Lemma total_for_each {A B} (l : list A) (body : A -> B -> SE S B) :
  (forall x acc, Total (body x acc)) -> forall acc, Total (for_each l acc body).
Proof.
  intros Hb. induction l as [|x l IH]; intros acc; cbn.
  - apply total_ret.
  - apply total_bind; [apply Hb | intros a; apply IH].
Qed.

End Totality.

Section LocalFailures.

Context {world : Type} (os : OS world).

Lemma total_emit e : Total (@emit world e).
Proof. intros s. unfold emit. now eexists _, _. Qed.

(** Copying the processed files never raises: a file whose destination
    cannot be computed, whose directory cannot be created or whose copy
    fails is logged and skipped, and the loop goes on to the next file. *)
Theorem copy_processed_never_raises output_dir processed_files (s : state world) :
  exists s',
    _copy_processed_files_to_output world os output_dir processed_files s
    = (Ok tt, s').
Proof.
  cut (Total (_copy_processed_files_to_output world os output_dir
                processed_files)).
  { intros T. destruct (T s) as ([] & s' & E). now exists s'. }
  unfold _copy_processed_files_to_output.
  destruct processed_files as [|p rest]; [apply total_ret|].
  apply total_bind; [apply total_emit|]. intros _.
  apply total_bind.
  - apply total_for_each. intros file_path counter.
    apply total_try_any. intros e.
    apply total_bind; [apply total_emit|]. intros _. apply total_ret.
  - intros _. apply total_emit.
Qed.

(** Copying the unmapped files raises only when the [unmapped] directory
    itself cannot be created: once it is there, every per-file failure is
    logged and skipped. *)
Theorem handle_unmapped_raises_only_on_mkdir output_dir unmapped_files
  (s : state world) w' :
  mkdir os (st_world s) (output_dir +++ "/unmapped") = (Ok tt, w') ->
  exists s', _handle_unmapped_files world os output_dir unmapped_files s
             = (Ok tt, s').
Proof.
  intros Hmk. unfold _handle_unmapped_files.
  destruct unmapped_files as [|p rest]; [now exists s|].
  unfold bind at 1. unfold perform at 1. rewrite Hmk.
  match goal with
  | |- exists s', ?m ?st = _ =>
      assert (T : Total m); [|destruct (T st) as ([] & s' & E); now exists s']
  end.
  apply total_bind; [apply total_emit|]. intros _.
  apply total_bind.
  - apply total_for_each. intros file_path [].
    apply total_try_any. intros e. apply total_emit.
  - intros _. apply total_emit.
Qed.

Local Abbreviation KE := (Keeps (fun s : state world => errors (st_stats s))).

Lemma ke_one_individually file_path acc :
  Respects KE (process_one_individually os file_path acc).
Proof. frame untouched. Qed.

(** Individual mode records one error message, and only one, exactly when
    no asset of the batch was processed successfully; that includes an
    empty batch and a batch whose assets all lack a sidecar. *)
Theorem individual_mode_error_entry batch batch_num (s : state world) :
  exists count unmapped processed s',
    _process_files_individually os batch batch_num s
      = (Ok (count, unmapped, processed), s') /\
    errors (st_stats s')
    = errors (st_stats s)
      ++ (if (0 <? count)%nat then []
          else ["Batch " +++ str_of_nat batch_num +++ " completely failed: "
                +++ str_of_nat (length batch) +++ " files"]).
Proof.
  unfold _process_files_individually, bind.
  pose proof (respects_for_each KE batch (0, [], [])
                (process_one_individually os) ke_one_individually s) as K.
  destruct (tallies_for_each _ (tallies_one_individually os) batch
              (0, [], []) s) as ([[n unm] proc] & s1 & vs & E & _).
  unfold batch_result in *. rewrite E in *. unfold Keeps in K. cbn in K.
  unfold log, emit, modify_stats, bind, ret.
  destruct n as [|n]; cbn; eexists _, _, _, _;
    (split; [reflexivity|]); cbn; rewrite K; now rewrite ?app_nil_r.
Qed.

End LocalFailures.

(** An empty batch is reported as completely failed. *)
Lemma individual_mode_error_on_empty_batch :
  errors (st_stats (snd (_process_files_individually Sim.os [] 3
                           (Sim.start Sim.w_ok))))
  = ["Batch 3 completely failed: 0 files"].
Proof. reflexivity. Qed.

Lemma handle_unmapped_raises_only_on_mkdir_witness :
  exists s', _handle_unmapped_files Sim.world Sim.os "out" [Sim.dated]
               (Sim.start Sim.w_ok) = (Ok tt, s').
Proof.
  apply (handle_unmapped_raises_only_on_mkdir Sim.os "out" [Sim.dated]
           (Sim.start Sim.w_ok) Sim.w_ok).
  reflexivity.
Defined.

(* ================================================================== *)
(** * ProcessingVerifier (verify_processing.py): the per-file checks *)

Module Report.

(** The dict that [detailed_file_verification] returns for a file it could
    examine. *)
Record sample : Type := mkSample {
  filename : string;
  album : string;
  original_timestamp : json;
  embedded_date : json;
  date_match : bool;
  has_gps_original : bool;
  has_gps_embedded : bool;
  has_description_original : bool;
  has_description_embedded : bool;
  processing_success : bool
}.

(** An entry of [sample_verifications]: the dict above, or the dict with
    the keys [filename] and [error]. *)
Inductive detail : Type :=
| Detail (d : sample)
| DetailError (filename : string) (e : exn).

(** The entries of [verification_results] that [verify_media_files]
    touches; an error entry keeps the file name and the exception of the
    message. *)
Record results : Type := mkResults {
  files_with_json : nat;
  files_with_dates : nat;
  files_with_correct_dates : nat;
  files_with_gps : nat;
  files_with_descriptions : nat;
  processing_errors : list (string * exn);
  timestamp_accuracy_issues : list Verifier.issue;
  sample_verifications : list detail
}.

Definition initial : results := mkResults 0 0 0 0 0 [] [] [].

(** The verifier's state: the world and its results. *)
Record vstate (world : Type) : Type := mkV {
  v_world : world;
  v_results : results
}.
Arguments mkV {world} _ _.
Arguments v_world {world} _.
Arguments v_results {world} _.

Definition incr_json (r : results) : results :=
  mkResults (S (files_with_json r)) (files_with_dates r)
            (files_with_correct_dates r) (files_with_gps r)
            (files_with_descriptions r) (processing_errors r)
            (timestamp_accuracy_issues r) (sample_verifications r).
Definition incr_dates (r : results) : results :=
  mkResults (files_with_json r) (S (files_with_dates r))
            (files_with_correct_dates r) (files_with_gps r)
            (files_with_descriptions r) (processing_errors r)
            (timestamp_accuracy_issues r) (sample_verifications r).
Definition incr_correct_dates (r : results) : results :=
  mkResults (files_with_json r) (files_with_dates r)
            (S (files_with_correct_dates r)) (files_with_gps r)
            (files_with_descriptions r) (processing_errors r)
            (timestamp_accuracy_issues r) (sample_verifications r).
Definition incr_gps (r : results) : results :=
  mkResults (files_with_json r) (files_with_dates r)
            (files_with_correct_dates r) (S (files_with_gps r))
            (files_with_descriptions r) (processing_errors r)
            (timestamp_accuracy_issues r) (sample_verifications r).
Definition incr_descriptions (r : results) : results :=
  mkResults (files_with_json r) (files_with_dates r)
            (files_with_correct_dates r) (files_with_gps r)
            (S (files_with_descriptions r)) (processing_errors r)
            (timestamp_accuracy_issues r) (sample_verifications r).
Definition add_error (file : string) (e : exn) (r : results) : results :=
  mkResults (files_with_json r) (files_with_dates r)
            (files_with_correct_dates r) (files_with_gps r)
            (files_with_descriptions r) (processing_errors r ++ [(file, e)])
            (timestamp_accuracy_issues r) (sample_verifications r).
Definition set_issues (issues : list Verifier.issue) (r : results) : results :=
  mkResults (files_with_json r) (files_with_dates r)
            (files_with_correct_dates r) (files_with_gps r)
            (files_with_descriptions r) (processing_errors r) issues
            (sample_verifications r).
Definition add_sample (d : detail) (r : results) : results :=
  mkResults (files_with_json r) (files_with_dates r)
            (files_with_correct_dates r) (files_with_gps r)
            (files_with_descriptions r) (processing_errors r)
            (timestamp_accuracy_issues r) (sample_verifications r ++ [d]).

(** The query of [get_exif_metadata]. *)
Definition exif_cmd (media_file : Path) : list string :=
  [ "exiftool"; "-json"; "-DateTimeOriginal"; "-CreateDate"; "-ModifyDate";
    "-GPSLatitude"; "-GPSLongitude"; "-Description"; "-ImageDescription";
    "-Title"; "-Keywords"; path_str media_file ].

(** [path.parent.name] *)
Definition parent_name (p : Path) : string :=
  if (parent p =? ".")%string then EmptyString else last_component (parent p).

(** [x is None] *)
Definition is_none (v : json) : bool :=
  match v with
  | JNull => true
  | _ => false
  end.

Section Checks.

Variable world : Type.
Variable os : OS world.

(** The library functions of [verify_timestamp_accuracy]. *)
Variable int_of : json -> res Z.
Variable fromtimestamp : Z -> option string -> res Z.
Variable strptime : json -> res Z.
Variable split_dot_head : json -> res json.

(** [print]: writing to the standard output may raise, on a stream that is
    closed or cannot encode the line. *)
Variable print : world -> res unit * world.

Local Abbreviation VM := (SE (vstate world)).

Definition modify (f : results -> results) : VM unit :=
  fun s => (Ok tt, mkV (v_world s) (f (v_results s))).

Definition get_w : VM world :=
  fun s => (Ok (v_world s), s).

(** [ProcessingVerifier.find_json_metadata]: the four suffix candidates of
    the file's own name, nothing else. *)
Definition find_json_metadata (w : world) (media_file : Path)
  : res (option string) :=
  let base_path := sibling media_file (name media_file) in
  first_existing os w (sidecar_patterns base_path).

Definition print_line : VM unit :=
  fun s => let '(r, w') := print (v_world s) in (r, mkV w' (v_results s)).

(** [load_json_safely] *)
Definition load_json_safely (w : world) (json_path : string) : json :=
  match read_json os w json_path with
  | Some v => v
  | None => JObj []
  end.

(** [get_exif_metadata]: the first record of the output of a query that
    exited with status 0, and [{}] in every other case. *)
Definition get_exif_metadata (media_file : Path) : VM json :=
  fun s =>
    let '(r, w') := subprocess_run os (v_world s) (exif_cmd media_file)
                                   (Some 10%Z) in
    let s' := mkV w' (v_results s) in
    match r with
    | Completed rc out _ =>
        if (rc =? 0)%Z then
          match json_loads os out with
          | Some parsed =>
              match Py.item0 parsed with
              | Ok record => (Ok record, s')
              | Exc _ => (Ok (JObj []), s')
              end
          | None => (Ok (JObj []), s')
          end
        else (Ok (JObj []), s')
    | _ => (Ok (JObj []), s')
    end.

(** [verify_timestamp_accuracy] on the verifier's state. *)
Definition timestamp_ok (json_data exif_data : json) (media_file : Path)
  : VM bool :=
  fun s =>
    let '(r, issues) :=
      Verifier.verify_timestamp_accuracy int_of fromtimestamp strptime
        split_dot_head json_data exif_data media_file
        (timestamp_accuracy_issues (v_results s)) in
    (r, mkV (v_world s) (set_issues issues (v_results s))).

(** [d.get(key)] *)
Definition get (d : json) (key : string) : VM json :=
  lift_res (Py.get d key JNull).

(** [verify_single_file] *)
Definition verify_single_file (media_file : Path) : VM unit :=
  try_except
    (w <- get_w ;;
     json_file <- lift_res (find_json_metadata w media_file) ;;
     match json_file with
     | None => ret tt
     | Some json_file =>
         modify incr_json ;;
         let json_data := load_json_safely w json_file in
         exif_data <- get_exif_metadata media_file ;;
         if Py.truthy exif_data then
           dated <- get exif_data "DateTimeOriginal" ;;
           (if Py.truthy dated then
              modify incr_dates ;;
              accurate <- timestamp_ok json_data exif_data media_file ;;
              if accurate then modify incr_correct_dates else ret tt
            else ret tt) ;;
           gps <- get exif_data "GPSLatitude" ;;
           (if Py.truthy gps then modify incr_gps else ret tt) ;;
           description <- get exif_data "Description" ;;
           described <- (if Py.truthy description then ret description
                         else get exif_data "ImageDescription") ;;
           if Py.truthy described then modify incr_descriptions else ret tt
         else ret tt
     end)
    any_exception
    (fun e => modify (add_error (name media_file) e)).

(** [detailed_file_verification] *)
Definition detailed_file_verification (media_file : Path)
  : VM (option detail) :=
  try_except
    (w <- get_w ;;
     json_file <- lift_res (find_json_metadata w media_file) ;;
     match json_file with
     | None => ret None
     | Some json_file =>
         let json_data := load_json_safely w json_file in
         exif_data <- get_exif_metadata media_file ;;
         if negb (Py.truthy exif_data) then ret None else
         photo_taken <- lift_res (Py.get json_data "photoTakenTime" (JObj [])) ;;
         original_timestamp <- get photo_taken "timestamp" ;;
         geo_data <- lift_res (Py.get json_data "geoData" (JObj [])) ;;
         original_lat <- lift_res (Py.get geo_data "latitude" (JNum 0%Q)) ;;
         original_desc <- lift_res (Py.get json_data "description" (JStr "")) ;;
         embedded_date <- get exif_data "DateTimeOriginal" ;;
         embedded_gps <- get exif_data "GPSLatitude" ;;
         description <- get exif_data "Description" ;;
         embedded_desc <- (if Py.truthy description then ret description
                           else get exif_data "ImageDescription") ;;
         date_match <- timestamp_ok json_data exif_data media_file ;;
         ret (Some (Detail
           (mkSample (name media_file) (parent_name media_file)
                     original_timestamp embedded_date date_match
                     (Py.ne_zero original_lat)
                     (negb (is_none embedded_gps))
                     (Py.truthy original_desc)
                     (Py.truthy embedded_desc)
                     (Py.truthy embedded_date || Py.truthy embedded_gps
                      || Py.truthy embedded_desc))))
     end)
    any_exception
    (fun e => ret (Some (DetailError (name media_file) e))).

(** One round of the loop of [verify_media_files]: a progress line every
    fifty files, the check, and a sample for the first ten files. *)
Definition verify_one (item : nat * Path) (_ : unit) : VM unit :=
  let '(i, media_file) := item in
  (if (i mod 50 =? 0)%nat then print_line else ret tt) ;;
  verify_single_file media_file ;;
  if (i <? 10)%nat then
    detailed_result <- detailed_file_verification media_file ;;
    match detailed_result with
    | Some d => modify (add_sample d)
    | None => ret tt
    end
  else ret tt.

(** [verify_media_files] *)
Definition verify_media_files (media_files : list Path) : VM unit :=
  print_line ;;
  for_each (enumerate media_files) tt verify_one.

End Checks.

End Report.

(** The list [f] of the state grows by entries that all satisfy [ok]. *)
Definition Appends {S X} (f : S -> list X) (ok : X -> Prop) : S -> S -> Prop :=
  fun s s' => exists new, f s' = f s ++ new /\ Forall ok new.

#[local] Instance Appends_PreOrder {S X} (f : S -> list X) (ok : X -> Prop) :
  PreOrder (Appends f ok).
Proof.
  split.
  - intros s. exists []. split; [now rewrite app_nil_r | constructor].
  - intros a b c (n1 & H1 & F1) (n2 & H2 & F2).
    exists (n1 ++ n2). split.
    + now rewrite H2, H1, app_assoc.
    + apply Forall_app. now split.
Qed.

(** A sample entry that does not report a date match. *)
Definition no_date_match (d : Report.detail) : Prop :=
  match d with
  | Report.Detail x => Report.date_match x = false
  | Report.DetailError _ _ => True
  end.

(** The counters of the second state exceed those of the first by at most
    [n] files with JSON, of which the files with dates, with GPS and with
    descriptions are each a part, and by at most [n] error entries. *)
Definition Within {world} (n : nat) (s s' : Report.vstate world) : Prop :=
  let r := Report.v_results s in
  let r' := Report.v_results s' in
  Report.files_with_json r <= Report.files_with_json r' <=
    Report.files_with_json r + n /\
  Report.files_with_dates r <= Report.files_with_dates r' /\
  Report.files_with_dates r' + Report.files_with_json r
    <= Report.files_with_dates r + Report.files_with_json r' /\
  Report.files_with_gps r <= Report.files_with_gps r' /\
  Report.files_with_gps r' + Report.files_with_json r
    <= Report.files_with_gps r + Report.files_with_json r' /\
  Report.files_with_descriptions r <= Report.files_with_descriptions r' /\
  Report.files_with_descriptions r' + Report.files_with_json r
    <= Report.files_with_descriptions r + Report.files_with_json r' /\
  length (Report.processing_errors r) <= length (Report.processing_errors r')
    <= length (Report.processing_errors r) + n.

Section ReportFacts.

Context {world : Type} (os : OS world).
Variable int_of : json -> res Z.
Variable fromtimestamp : Z -> option string -> res Z.
Variable strptime : json -> res Z.
Variable split_dot_head : json -> res json.
Variable print : world -> res unit * world.

Local Abbreviation verify_single_file :=
  (Report.verify_single_file world os int_of fromtimestamp strptime
     split_dot_head).
Local Abbreviation detailed_file_verification :=
  (Report.detailed_file_verification world os int_of fromtimestamp strptime
     split_dot_head).
Local Abbreviation verify_one :=
  (Report.verify_one world os int_of fromtimestamp strptime split_dot_head
     print).
Local Abbreviation verify_media_files :=
  (Report.verify_media_files world os int_of fromtimestamp strptime
     split_dot_head print).
Local Abbreviation timestamp_ok :=
  (Report.timestamp_ok world int_of fromtimestamp strptime split_dot_head).

Lemma set_issues_same (r : Report.results) :
  Report.set_issues (Report.timestamp_accuracy_issues r) r = r.
Proof. now destruct r. Qed.

(** The date check answers [False] and leaves the state as it is. *)
Lemma timestamp_ok_constant json_data exif_data media_file
  (s : Report.vstate world) :
  timestamp_ok json_data exif_data media_file s = (Ok false, s).
Proof.
  unfold Report.timestamp_ok. rewrite timestamp_check_constant.
  rewrite set_issues_same. now destruct s.
Qed.

(** Runs a per-file check on a symbolic state, branch by branch. *)
Ltac run_check :=
  unfold Report.verify_single_file, Report.detailed_file_verification,
    Report.get, Report.get_w, Report.modify, Report.get_exif_metadata,
    try_except, any_exception, bind, ret, lift_res;
  repeat first
    [ rewrite timestamp_ok_constant
    | progress cbn [fst snd Report.v_world Report.v_results negb]
    | break_match ].

(** The results a sampled examination leaves are those it started from. *)
Lemma detailed_keeps_results media_file :
  Respects (Keeps Report.v_results) (detailed_file_verification media_file).
Proof. intros s. unfold Keeps. run_check; reflexivity. Qed.

Lemma detailed_no_date_match media_file :
  Returns (fun r => match r with
                    | Some d => no_date_match d
                    | None => True
                    end)
          (detailed_file_verification media_file).
Proof.
  intros s r s' E.
  assert (G : match fst (detailed_file_verification media_file s) with
              | Ok (Some d) => no_date_match d
              | _ => True
              end) by (run_check; exact I || reflexivity).
  rewrite E in G. exact G.
Qed.

Lemma detailed_total media_file : Total (detailed_file_verification media_file).
Proof. apply total_try_any. intros e. apply total_ret. Qed.

Lemma single_total media_file : Total (verify_single_file media_file).
Proof. apply total_try_any. intros e s. now eexists _, _. Qed.

Local Abbreviation kept :=
  (fun s : Report.vstate world =>
     (Report.files_with_correct_dates (Report.v_results s),
      Report.timestamp_accuracy_issues (Report.v_results s),
      Report.sample_verifications (Report.v_results s))).

Lemma single_keeps media_file :
  Respects (Keeps kept) (verify_single_file media_file).
Proof. intros s. unfold Keeps. run_check; reflexivity. Qed.

Lemma single_within media_file (s : Report.vstate world) :
  Within 1 s (snd (verify_single_file media_file s)).
Proof.
  unfold Within. run_check;
    cbn [Report.files_with_json Report.files_with_dates Report.files_with_gps
         Report.files_with_descriptions Report.processing_errors
         Report.incr_json Report.incr_dates Report.incr_gps
         Report.incr_descriptions Report.add_error];
    rewrite ?length_app; cbn [length]; lia.
Qed.

Lemma print_keeps_results :
  Respects (Keeps Report.v_results) (Report.print_line world print).
Proof.
  intros s. unfold Keeps, Report.print_line. now destruct (print _).
Qed.

(** What one round of the loop, for the file of index [i], does to the
    results, whether it returns or raises. *)
Definition Round (i : nat) (s s' : Report.vstate world) : Prop :=
  Within 1 s s' /\
  Report.files_with_correct_dates (Report.v_results s')
    = Report.files_with_correct_dates (Report.v_results s) /\
  Report.timestamp_accuracy_issues (Report.v_results s')
    = Report.timestamp_accuracy_issues (Report.v_results s) /\
  exists new,
    Report.sample_verifications (Report.v_results s')
      = Report.sample_verifications (Report.v_results s) ++ new /\
    Forall no_date_match new /\
    length new <= (if (i <? 10)%nat then 1 else 0).

Lemma round_same_results i (s s' : Report.vstate world) :
  Report.v_results s' = Report.v_results s -> Round i s s'.
Proof.
  intros E. unfold Round, Within. rewrite E.
  split; [lia|]. split; [reflexivity|]. split; [reflexivity|].
  exists []. rewrite app_nil_r.
  split; [reflexivity|]. split; [constructor | cbn; lia].
Qed.

Lemma round_from i (s0 s s' : Report.vstate world) :
  Report.v_results s = Report.v_results s0 -> Round i s s' -> Round i s0 s'.
Proof. unfold Round, Within. now intros ->. Qed.

(** The check and the sample of one round. *)
Lemma check_and_sample i media_file (s : Report.vstate world) :
  exists s',
    (verify_single_file media_file ;;
     if (i <? 10)%nat then
       detailed_result <- detailed_file_verification media_file ;;
       match detailed_result with
       | Some d => Report.modify world (Report.add_sample d)
       | None => ret tt
       end
     else ret tt) s = (Ok tt, s') /\
    Round i s s'.
Proof.
  unfold bind, Round.
  pose proof (single_within media_file s) as W.
  pose proof (single_keeps media_file s) as K. unfold Keeps in K.
  destruct (single_total media_file s) as ([] & s1 & E1).
  rewrite E1 in *. cbn [snd] in W, K. injection K as Kc Ki Ks.
  destruct (i <? 10)%nat.
  - pose proof (detailed_keeps_results media_file s1) as D. unfold Keeps in D.
    pose proof (detailed_no_date_match media_file s1) as N.
    destruct (detailed_file_verification media_file s1) as [[[d|]|e] s2] eqn:E2;
      cbn [snd] in D.
    + specialize (N _ _ eq_refl). exists (Report.mkV (Report.v_world s2)
        (Report.add_sample d (Report.v_results s2))).
      split; [reflexivity|].
      unfold Within in *.
      cbn [Report.v_results Report.add_sample Report.files_with_json
           Report.files_with_dates Report.files_with_correct_dates
           Report.files_with_gps Report.files_with_descriptions
           Report.processing_errors Report.timestamp_accuracy_issues
           Report.sample_verifications length].
      rewrite D, Kc, Ki, Ks.
      split; [lia|]. split; [reflexivity|]. split; [reflexivity|].
      exists [d]. split; [reflexivity|]. split; [now constructor | cbn; lia].
    + exists s2. split; [reflexivity|].
      unfold Within in *. rewrite D.
      split; [exact W|]. split; [exact Kc|]. split; [exact Ki|].
      exists []. rewrite app_nil_r.
      split; [exact Ks|]. split; [constructor | cbn; lia].
    + destruct (detailed_total media_file s1) as (a & s3 & E3). congruence.
  - exists s1. split; [reflexivity|].
    split; [exact W|]. split; [exact Kc|]. split; [exact Ki|].
    exists []. rewrite app_nil_r.
    split; [exact Ks|]. split; [constructor | cbn; lia].
Qed.

(** One round of the loop: it raises only when its progress line does. *)
Lemma verify_round i media_file (s : Report.vstate world) :
  exists r s',
    verify_one (i, media_file) tt s = (r, s') /\
    Round i s s' /\
    ((forall w, exists w', print w = (Ok tt, w')) -> r = Ok tt).
Proof.
  unfold Report.verify_one. unfold bind at 1.
  set (progress := if (i mod 50 =? 0)%nat
                   then Report.print_line world print else ret tt).
  assert (P : Report.v_results (snd (progress s)) = Report.v_results s).
  { subst progress. destruct (i mod 50 =? 0)%nat; [|reflexivity].
    apply print_keeps_results. }
  assert (T : (forall w, exists w', print w = (Ok tt, w')) ->
              exists s0, progress s = (Ok tt, s0)).
  { intros Hp. subst progress. destruct (i mod 50 =? 0)%nat.
    - unfold Report.print_line.
      destruct (Hp (Report.v_world s)) as [w' ->]. eauto.
    - unfold ret. eauto. }
  destruct (progress s) as [[[]|e] s0]; cbn [snd] in P.
  - destruct (check_and_sample i media_file s0) as (s' & E & R).
    exists (Ok tt), s'. split; [exact E|]. split; [|reflexivity].
    eapply round_from; eassumption.
  - exists (Exc e), s0. split; [reflexivity|].
    split; [now apply round_same_results|].
    intros Hp. destruct (T Hp) as [s1 E]. discriminate E.
Qed.

(** The loop from index [k] on. *)
Lemma verify_rounds_from media_files :
  forall k (s : Report.vstate world),
  let out := for_each (combine (seq k (length media_files)) media_files) tt
               verify_one s in
  (Within (length media_files) s (snd out) /\
   Report.files_with_correct_dates (Report.v_results (snd out))
     = Report.files_with_correct_dates (Report.v_results s) /\
   Report.timestamp_accuracy_issues (Report.v_results (snd out))
     = Report.timestamp_accuracy_issues (Report.v_results s) /\
   exists new,
     Report.sample_verifications (Report.v_results (snd out))
       = Report.sample_verifications (Report.v_results s) ++ new /\
     Forall no_date_match new /\
     length new <= Nat.min (10 - k) (length media_files)) /\
  ((forall w, exists w', print w = (Ok tt, w')) -> fst out = Ok tt).
Proof.
  induction media_files as [|p l IH]; intros k s; cbv zeta.
  - cbn [length seq combine for_each]. unfold ret, Within. cbn [fst snd].
    split; [|reflexivity].
    split; [lia|]. split; [reflexivity|]. split; [reflexivity|].
    exists []. rewrite app_nil_r.
    split; [reflexivity|]. split; [constructor | cbn; lia].
  - cbn [length seq combine for_each]. unfold bind.
    destruct (verify_round k p s)
      as (r1 & s1 & E1 & (W1 & C1 & I1 & n1 & S1 & F1 & L1) & T1).
    rewrite E1. destruct r1 as [[]|e]; cbn [fst snd] in *.
    + destruct (IH (S k) s1) as [(W2 & C2 & I2 & n2 & S2 & F2 & L2) T2].
      split; [|exact T2].
      split; [unfold Within in *; lia|].
      split; [congruence|]. split; [congruence|].
      exists (n1 ++ n2).
      split; [now rewrite S2, S1, app_assoc|].
      split; [apply Forall_app; now split|].
      rewrite length_app. destruct (Nat.ltb_spec k 10); lia.
    + split; [|intros Hp; discriminate (T1 Hp)].
      split; [unfold Within in *; lia|].
      split; [exact C1|]. split; [exact I1|].
      exists n1. split; [exact S1|]. split; [exact F1|].
      destruct (Nat.ltb_spec k 10); lia.
Qed.

(** The whole call: the first line, then the loop. *)
Lemma verify_media_files_rounds media_files (s : Report.vstate world) :
  let out := verify_media_files media_files s in
  (Within (length media_files) s (snd out) /\
   Report.files_with_correct_dates (Report.v_results (snd out))
     = Report.files_with_correct_dates (Report.v_results s) /\
   Report.timestamp_accuracy_issues (Report.v_results (snd out))
     = Report.timestamp_accuracy_issues (Report.v_results s) /\
   exists new,
     Report.sample_verifications (Report.v_results (snd out))
       = Report.sample_verifications (Report.v_results s) ++ new /\
     Forall no_date_match new /\
     length new <= 10) /\
  ((forall w, exists w', print w = (Ok tt, w')) -> fst out = Ok tt).
Proof.
  cbv zeta. unfold Report.verify_media_files, enumerate. unfold bind.
  pose proof (print_keeps_results s) as P. unfold Keeps in P.
  assert (T : (forall w, exists w', print w = (Ok tt, w')) ->
              exists s0, Report.print_line world print s = (Ok tt, s0)).
  { intros Hp. unfold Report.print_line.
    destruct (Hp (Report.v_world s)) as [w' ->]. eauto. }
  destruct (Report.print_line world print s) as [[[]|e] s0]; cbn [snd] in P.
  - destruct (verify_rounds_from media_files 0 s0)
      as [(W & C & I & new & S & F & L) R].
    split; [|exact R].
    unfold Within in *. rewrite P in *.
    split; [exact W|]. split; [exact C|]. split; [exact I|].
    exists new. split; [exact S|]. split; [exact F | lia].
  - cbn [fst snd]. split; [|intros Hp; destruct (T Hp) as [s1 E]; discriminate E].
    unfold Within. rewrite P.
    split; [lia|]. split; [reflexivity|]. split; [reflexivity|].
    exists []. rewrite app_nil_r.
    split; [reflexivity|]. split; [constructor | cbn; lia].
Qed.

(** The verifier never counts a file as having a correct date, never records
    a timestamp-accuracy issue and never reports a date match in a sample:
    the date check it relies on always answers [False]. *)
Theorem verifier_never_confirms_a_date media_files (s : Report.vstate world) :
  let r := Report.v_results s in
  let r' := Report.v_results (snd (verify_media_files media_files s)) in
  Report.files_with_correct_dates r' = Report.files_with_correct_dates r /\
  Report.timestamp_accuracy_issues r' = Report.timestamp_accuracy_issues r /\
  exists new,
    Report.sample_verifications r' = Report.sample_verifications r ++ new /\
    Forall no_date_match new.
Proof.
  cbv zeta.
  destruct (verify_media_files_rounds media_files s)
    as [(_ & C & I & new & S & F & _) _].
  split; [exact C|]. split; [exact I|]. now exists new.
Qed.


(** The counters stay consistent: a call counts at most one file with JSON
    per file of the list, and the files it counts as having a date, GPS data
    or a description are among those it counts as having JSON. *)
Theorem verifier_counters_consistent media_files (s : Report.vstate world) :
  let r := Report.v_results s in
  let r' := Report.v_results (snd (verify_media_files media_files s)) in
  exists with_json with_dates with_gps with_descriptions,
    Report.files_with_json r' = Report.files_with_json r + with_json /\
    Report.files_with_dates r' = Report.files_with_dates r + with_dates /\
    Report.files_with_gps r' = Report.files_with_gps r + with_gps /\
    Report.files_with_descriptions r'
      = Report.files_with_descriptions r + with_descriptions /\
    with_json <= length media_files /\
    with_dates <= with_json /\ with_gps <= with_json /\
    with_descriptions <= with_json.
Proof.
  cbv zeta.
  destruct (verify_media_files_rounds media_files s) as [(W & _) _].
  set (s' := snd (verify_media_files media_files s)) in *.
  unfold Within in W.
  exists (Report.files_with_json (Report.v_results s')
          - Report.files_with_json (Report.v_results s)),
         (Report.files_with_dates (Report.v_results s')
          - Report.files_with_dates (Report.v_results s)),
         (Report.files_with_gps (Report.v_results s')
          - Report.files_with_gps (Report.v_results s)),
         (Report.files_with_descriptions (Report.v_results s')
          - Report.files_with_descriptions (Report.v_results s)).
  lia.
Qed.

(** The verifier looks for a sidecar under the file's own name only.  What
    it finds, the processor finds too; a sidecar that the processor finds
    and the verifier does not belongs to an edited variant, which the
    verifier therefore leaves out of its files-with-JSON count. *)
Theorem verifier_lookup_is_direct_only w media_file :
  (forall json_file,
     Report.find_json_metadata world os w media_file = Ok (Some json_file) ->
     find_json_metadata os w media_file = Ok (Some json_file)) /\
  (forall json_file,
     find_json_metadata os w media_file = Ok (Some json_file) ->
     Report.find_json_metadata world os w media_file = Ok None ->
     _is_edited_photo media_file = true /\
     exists original, _get_original_name media_file = Some original /\
       In json_file (sidecar_patterns (sibling media_file original))).
Proof.
  unfold Report.find_json_metadata, find_json_metadata. cbv zeta.
  split; intros json_file.
  - intros H. now rewrite H.
  - intros H Hn. rewrite Hn in H.
    destruct (_is_edited_photo media_file); [|discriminate].
    destruct (_get_original_name media_file) as [original|]; [|discriminate].
    destruct (negb (original =? "")%string); [|discriminate].
    split; [reflexivity|]. exists original. split; [reflexivity|].
    apply first_existing_some in H as (b & a & -> & _). apply in_elt.
Qed.

End ReportFacts.

Lemma verifier_lookup_is_direct_only_witness :
  let w := Sim.mkWorld [ "A/IMG_001.jpg.supplemental-metadata.json" ]
                       [] TimedOut TimedOut [] [] in
  _is_edited_photo (mkPath "A" "IMG_001-edited.jpg") = true.
Proof.
  intros w.
  apply (proj2 (verifier_lookup_is_direct_only Sim.os w
                  (mkPath "A" "IMG_001-edited.jpg"))
               "A/IMG_001.jpg.supplemental-metadata.json");
    reflexivity.
Defined.


(* ================================================================== *)
(** ** Live Photos *)

(** The companion that [identify_live_photos] picks for a file: the first
    of its two candidates that exists. *)
Definition companion {world} (os : OS world) (w : world) (file_path : Path)
  : res (option Path) :=
  first_existing_path os w
    [ sibling file_path (stem file_path +++ "(1).heic");
      sibling file_path (stem file_path +++ ".mov") ].

(** A [.heic] file with a companion. *)
Definition is_live {world} (os : OS world) (w : world) (file_path : Path) : bool :=
  String.eqb (PyStr.lower (suffix file_path)) ".heic" &&
  match companion os w file_path with
  | Ok (Some _) => true
  | _ => false
  end.

Section DictSet.

Context {A : Type}.

Lemma dict_set_in key (x : A) d k v :
  In (k, v) (dict_set key x d) -> (k = key /\ v = x) \/ In (k, v) d.
Proof.
  induction d as [|[k0 x0] d IH]; cbn.
  - intros [E|[]]. injection E as <- <-. now left.
  - destruct (String.eqb_spec k0 key) as [->|N]; cbn.
    + intros [E|H]; [injection E as <- <-; now left | now right; right].
    + intros [E|H]; [now right; left|].
      destruct (IH H) as [L|R]; [now left | now right; right].
Qed.

Lemma dict_set_keys key (x : A) d k :
  In k (map fst (dict_set key x d)) <-> k = key \/ In k (map fst d).
Proof.
  induction d as [|[k0 x0] d IH]; cbn.
  - split; [intros [<-|[]]; now left | intros [->|[]]; now left].
  - destruct (String.eqb_spec k0 key) as [->|N]; cbn.
    + intuition congruence.
    + rewrite IH. intuition congruence.
Qed.

Lemma dict_set_length key (x : A) d :
  length (dict_set key x d) <= S (length d).
Proof.
  induction d as [|[k0 x0] d IH]; cbn; [lia|].
  destruct (String.eqb k0 key); cbn; lia.
Qed.

Lemma dict_set_nodup key (x : A) d :
  NoDup (map fst d) -> NoDup (map fst (dict_set key x d)).
Proof.
  induction d as [|[k0 x0] d IH]; cbn; intros H.
  - constructor; [intros [] | constructor].
  - inversion H as [|? ? Hn Hd]; subst.
    destruct (String.eqb_spec k0 key) as [->|N]; cbn.
    + now constructor.
    + constructor; [|now apply IH].
      rewrite dict_set_keys. intros [E|I]; [congruence | contradiction].
Qed.

End DictSet.

Section LivePhotos.

Context {world : Type} (os : OS world).

(** What the loop has established after the files [seen], started in a
    state with world [w] and counter [paired]. *)
Definition live_inv (w : world) (paired : nat) (seen : list Path)
  (live_photos : list (string * (Path * Path))) (s : state world) : Prop :=
  st_world s = w /\
  live_photos_paired (st_stats s)
    = paired + length (filter (is_live os w) seen) /\
  NoDup (map fst live_photos) /\
  (forall base_name,
     In base_name (map fst live_photos) <->
     exists file_path, In file_path seen /\ is_live os w file_path = true /\
                       stem file_path = base_name) /\
  (forall base_name file_path video_path,
     In (base_name, (file_path, video_path)) live_photos ->
     In file_path seen /\ base_name = stem file_path /\
     PyStr.lower (suffix file_path) = ".heic" /\
     companion os w file_path = Ok (Some video_path)) /\
  length live_photos <= length (filter (is_live os w) seen).

Lemma live_step w paired seen file_path live_photos (s : state world) :
  (exists r, companion os w file_path = Ok r) ->
  live_inv w paired seen live_photos s ->
  exists live_photos' s',
    pair_live_photo os file_path live_photos s = (Ok live_photos', s') /\
    live_inv w paired (seen ++ [file_path]) live_photos' s'.
Proof.
  intros [r Ec] (W & C & N & K & V & L). unfold live_inv.
  rewrite filter_app, length_app. cbn [filter].
  assert (Hl : is_live os w file_path
               = String.eqb (PyStr.lower (suffix file_path)) ".heic" &&
                 match companion os w file_path with
                 | Ok (Some _) => true
                 | _ => false
                 end) by reflexivity.
  rewrite Hl. clear Hl. unfold pair_live_photo.
  destruct (String.eqb_spec (PyStr.lower (suffix file_path)) ".heic")
    as [Eh|Nh]; cbn [andb].
  - cbv zeta. unfold bind, get_world, lift_res, modify_stats, ret. rewrite W.
    fold (companion os w file_path). rewrite Ec.
    destruct r as [video_path|].
    + eexists _, _. split; [reflexivity|].
      cbn [st_world st_stats live_photos_paired incr_live_photos_paired length].
      split; [exact W|]. split; [rewrite C; cbn [length]; lia|].
      split; [now apply dict_set_nodup|]. split; [|split].
      * intros k. rewrite dict_set_keys, K. split.
        -- intros [->|(p & I & Lp & S)].
           ++ exists file_path. rewrite in_app_iff. cbn.
              unfold is_live. rewrite Eh, Ec. auto.
           ++ exists p. rewrite in_app_iff. auto.
        -- intros (p & I & Lp & S). rewrite in_app_iff in I.
           destruct I as [I|[<-|[]]]; [right; now exists p | now left].
      * intros k f v I. apply dict_set_in in I as [[-> E]|I].
        -- injection E as -> ->. rewrite in_app_iff. cbn. auto.
        -- destruct (V _ _ _ I) as (I' & R). rewrite in_app_iff. auto.
      * pose proof (dict_set_length (stem file_path) (file_path, video_path)
                      live_photos). lia.
    + eexists _, _. split; [reflexivity|].
      cbn [length]. rewrite Nat.add_0_r.
      split; [exact W|]. split; [exact C|]. split; [exact N|].
      split; [|split; [|exact L]].
      * intros k. rewrite K. split; intros (p & I & Lp & S); exists p.
        -- rewrite in_app_iff. auto.
        -- rewrite in_app_iff in I. destruct I as [I|[<-|[]]]; [auto|].
           unfold is_live in Lp. rewrite Ec, andb_false_r in Lp. discriminate.
      * intros k f v I. destruct (V _ _ _ I) as (I' & R).
        rewrite in_app_iff. auto.
  - eexists _, _. split; [reflexivity|].
    cbn [length]. rewrite Nat.add_0_r.
    split; [exact W|]. split; [exact C|]. split; [exact N|].
    split; [|split; [|exact L]].
    + intros k. rewrite K. split; intros (p & I & Lp & S); exists p.
      * rewrite in_app_iff. auto.
      * rewrite in_app_iff in I. destruct I as [I|[<-|[]]]; [auto|].
        unfold is_live in Lp.
        destruct (String.eqb_spec (PyStr.lower (suffix file_path)) ".heic");
          [contradiction | discriminate].
    + intros k f v I. destruct (V _ _ _ I) as (I' & R).
      rewrite in_app_iff. auto.
Qed.

Lemma live_loop w paired media_files :
  (forall p, In p media_files -> exists r, companion os w p = Ok r) ->
  forall seen live_photos (s : state world),
  live_inv w paired seen live_photos s ->
  exists live_photos' s',
    for_each media_files live_photos (pair_live_photo os) s
      = (Ok live_photos', s') /\
    live_inv w paired (seen ++ media_files) live_photos' s'.
Proof.
  induction media_files as [|p l IH]; intros Hc seen acc s H.
  - exists acc, s. rewrite app_nil_r. now split.
  - cbn [for_each]. unfold bind at 1.
    destruct (live_step w paired seen p acc s (Hc p (or_introl eq_refl)) H)
      as (acc1 & s1 & E1 & H1).
    rewrite E1.
    destruct (IH (fun q Hq => Hc q (or_intror Hq)) _ _ _ H1)
      as (acc2 & s2 & E2 & H2).
    exists acc2, s2. rewrite <- app_assoc in H2. now split.
Qed.

(** When the status callbacks do not raise and the existence checks of the
    companions return, [identify_live_photos] returns, and leaves the world
    as it is.  The keys of the dict it returns are the stems of the [.heic]
    files that have a companion; every entry pairs such a file with the
    first of its companions that exists; the counter [live_photos_paired]
    grows by the number of such files, which the number of entries never
    exceeds (two files with the same stem share one entry). *)
Theorem identify_live_photos_result media_files (s : state world) :
  let w := st_world s in
  (forall trace, status_callbacks os w trace = Ok tt) ->
  (forall p, In p media_files -> exists r, companion os w p = Ok r) ->
  exists live_photos s',
    identify_live_photos world os media_files s = (Ok live_photos, s') /\
    st_world s' = w /\
    live_photos_paired (st_stats s')
      = live_photos_paired (st_stats s)
        + length (filter (is_live os w) media_files) /\
    NoDup (map fst live_photos) /\
    (forall base_name,
       In base_name (map fst live_photos) <->
       exists file_path, In file_path media_files /\
                         is_live os w file_path = true /\
                         stem file_path = base_name) /\
    (forall base_name file_path video_path,
       In (base_name, (file_path, video_path)) live_photos ->
       In file_path media_files /\ base_name = stem file_path /\
       PyStr.lower (suffix file_path) = ".heic" /\
       companion os w file_path = Ok (Some video_path)) /\
    length live_photos <= length (filter (is_live os w) media_files).
Proof.
  cbv zeta. intros Hcb Hc.
  unfold identify_live_photos, update_status, callbacks, log, emit.
  unfold bind at 1 2. cbn [fst snd st_world st_trace]. rewrite Hcb.
  unfold bind at 1.
  match goal with
  | |- context [for_each media_files [] _ ?st] =>
      destruct (live_loop (st_world s) (live_photos_paired (st_stats s))
                  media_files Hc [] [] st)
        as (d & s1 & E & W & C & N & K & V & L)
  end.
  { unfold live_inv. cbn. rewrite Nat.add_0_r.
    split; [reflexivity|]. split; [reflexivity|]. split; [constructor|].
    split; [|split; [intros ? ? ? [] | lia]].
    intros k. split; [intros [] | intros (? & [] & _)]. }
  rewrite E. unfold bind, ret. cbn.
  exists d. eexists. split; [reflexivity|]. cbn. tauto.
Qed.

End LivePhotos.

(** A Live Photo with its [.mov] companion, and a [.heic] file without
    one. *)
Lemma identify_live_photos_result_witness :
  let w := Sim.mkWorld [ "A/IMG_1.heic"; "A/IMG_1.mov"; "A/IMG_2.heic" ]
                       [] TimedOut TimedOut [] [] in
  exists s',
    identify_live_photos Sim.world Sim.os
      [mkPath "A" "IMG_1.heic"; mkPath "A" "IMG_2.heic"] (Sim.start w)
    = (Ok [("IMG_1", (mkPath "A" "IMG_1.heic", mkPath "A" "IMG_1.mov"))], s')
    /\ live_photos_paired (st_stats s') = 1.
Proof.
  intros w.
  destruct (identify_live_photos_result Sim.os
              [mkPath "A" "IMG_1.heic"; mkPath "A" "IMG_2.heic"]
              (Sim.start w))
    as (d & s' & E & _ & C & _).
  - intros trace. reflexivity.
  - intros p _. unfold companion. cbn.
    repeat break_match; eexists; reflexivity.
  - exists s'. split; [|exact C].
    assert (D : fst (identify_live_photos Sim.world Sim.os
                       [mkPath "A" "IMG_1.heic"; mkPath "A" "IMG_2.heic"]
                       (Sim.start w))
                = Ok [("IMG_1", (mkPath "A" "IMG_1.heic",
                                 mkPath "A" "IMG_1.mov"))])
      by (vm_compute; reflexivity).
    rewrite E in D. cbn in D. injection D as ->. exact E.
Defined.

(* ================================================================== *)
(** ** The scan for media files *)

(** The files of a listing that are regular files with a media extension. *)
Definition media_by_extension (entries : list (Path * bool)) : list Path :=
  map fst
    (filter (fun entry : Path * bool =>
               snd entry
               && mem_str (PyStr.lower (suffix (fst entry))) media_extensions)
            entries).

Lemma endswith_app p s :
  PyStr.endswith p s = true -> exists pre, s = pre +++ p.
Proof.
  induction s as [|c s IH]; cbn.
  - intros H. apply String.eqb_eq in H. exists EmptyString. now subst.
  - intros H. apply orb_true_iff in H as [H|H].
    + apply String.eqb_eq in H. exists EmptyString. now subst.
    + destruct (IH H) as (pre & ->). now exists (String c pre).
Qed.

Lemma rfind_dot_json pre :
  PyStr.rfind_dot (pre +++ ".json") = Some (String.length pre).
Proof.
  induction pre as [|c pre IH]; [reflexivity|].
  cbn [String.append PyStr.rfind_dot String.length]. now rewrite IH.
Qed.

Lemma substring_skip pre s :
  substring (String.length pre) (String.length s) (pre +++ s) = s.
Proof.
  induction pre as [|c pre IH]; cbn [String.length String.append substring].
  - induction s as [|c s IHs]; [reflexivity|]. cbn. now rewrite IHs.
  - exact IH.
Qed.

Lemma length_append a b :
  String.length (a +++ b) = String.length a + String.length b.
Proof. induction a as [|c a IH]; cbn; [reflexivity | now rewrite IH]. Qed.

(** A name that ends in [.json] has the suffix [.json], or none when it is
    [.json] itself. *)
Lemma suffix_of_json_name (p : Path) :
  PyStr.endswith ".json" (name p) = true ->
  suffix p = ".json" \/ suffix p = EmptyString.
Proof.
  intros H. apply endswith_app in H as (pre & E).
  unfold suffix. rewrite E, rfind_dot_json.
  destruct pre as [|c pre]; [now right|]. left.
  rewrite length_append.
  replace (0 <? String.length (String c pre))%nat with true by reflexivity.
  replace (String.length (String c pre)
           <? String.length (String c pre) + String.length ".json" - 1)%nat
    with true by (symmetry; apply Nat.ltb_lt; cbn; lia).
  cbn [andb].
  replace (String.length (String c pre) + String.length ".json"
           - String.length (String c pre))
    with (String.length ".json") by lia.
  apply substring_skip.
Qed.

(** The scan returns the regular files with a media extension, in the order
    of the listing.  Its test for names ending in [.json] excludes nothing:
    such a name has no media extension, so a sidecar never counts as a
    media file and the test could not reject a file that passed the
    extension test. *)
Theorem media_scan_is_by_extension (entries : list (Path * bool)) :
  get_media_files_from_directory entries = media_by_extension entries /\
  forall file_path, In file_path (get_media_files_from_directory entries) ->
    PyStr.endswith ".json" (name file_path) = false.
Proof.
  assert (J : forall p, mem_str (PyStr.lower (suffix p)) media_extensions = true ->
                        PyStr.endswith ".json" (name p) = false).
  { intros p M. destruct (PyStr.endswith ".json" (name p)) eqn:E; [|reflexivity].
    destruct (suffix_of_json_name p E) as [S|S]; rewrite S in M; discriminate. }
  assert (G : forall acc,
            fold_left
              (fun media_files entry =>
                 let '(file_path, is_file) := entry in
                 if is_file
                    && mem_str (PyStr.lower (suffix file_path)) media_extensions
                 then
                   if negb (PyStr.endswith ".json" (name file_path))
                   then media_files ++ [file_path]
                   else media_files
                 else media_files)
              entries acc
            = acc ++ media_by_extension entries).
  { unfold media_by_extension.
    induction entries as [|[p f] l IH]; intros acc; cbn [fold_left filter map].
    - now rewrite app_nil_r.
    - rewrite IH. cbn [fst snd].
      destruct f; cbn [andb]; [|reflexivity].
      destruct (mem_str (PyStr.lower (suffix p)) media_extensions) eqn:M;
        [|reflexivity].
      rewrite (J p M). cbn [negb map fst]. now rewrite <- app_assoc. }
  unfold get_media_files_from_directory. rewrite G. cbn [app].
  split; [reflexivity|].
  intros p I. unfold media_by_extension in I.
  apply in_map_iff in I as ([q f] & <- & I). apply filter_In in I as [_ I].
  cbn [fst snd] in I. apply andb_true_iff in I as [_ M]. now apply J.
Qed.
